(** * zit: scripts/make_screenshots.py

    A shallow embedding of the terminal emulator and of the SVG renderer of
    [scripts/make_screenshots.py], with the properties its specification
    states about them.

    Python integers are [Z]; bytes are [Byte.byte]; a [str] is a [string]
    whose characters are the code points below 256 (every character the
    emulator creates is [chr b] for a byte [b]); lists are [list], indexed
    through [py_get] and [py_set], which raise [IndexError] where Python
    does; a raised exception ends the computation ([Raise]). *)

From Stdlib Require Import ZArith String Ascii HexadecimalString.
From Stdlib.Strings Require Import Byte.
From stdpp Require Import base decidable option list numbers strings pretty.

Local Open Scope Z_scope.

(** ** Python primitives *)

Inductive exn : Set := IndexError | ValueError.

Inductive result (A : Type) : Type :=
| Ok (a : A)
| Raise (e : exn).
Arguments Ok {A} a.
Arguments Raise {A} e.

#[global] Instance result_ret : MRet result := @Ok.
#[global] Instance result_bind : MBind result := λ A B f m,
  match m with Ok a => f a | Raise e => Raise e end.
#[global] Instance result_fmap : FMap result := λ A B f m,
  match m with Ok a => Ok (f a) | Raise e => Raise e end.

Definition is_Ok {A} (m : result A) : Prop := ∃ a, m = Ok a.

(** [l[i]] with Python's negative indices. *)
Definition py_norm (len : nat) (i : Z) : option nat :=
  if decide (0 ≤ i < Z.of_nat len) then Some (Z.to_nat i)
  else if decide (- Z.of_nat len ≤ i < 0) then Some (Z.to_nat (Z.of_nat len + i))
  else None.

Definition py_get {A} (l : list A) (i : Z) : result A :=
  match py_norm (length l) i with
  | Some k => match l !! k with Some x => Ok x | None => Raise IndexError end
  | None => Raise IndexError
  end.

(** [l[i] = x] *)
Definition py_set {A} (l : list A) (i : Z) (x : A) : result (list A) :=
  match py_norm (length l) i with
  | Some k => Ok (<[k:=x]> l)
  | None => Raise IndexError
  end.

(** [range(lo, hi)] *)
Definition py_range (lo hi : Z) : list Z :=
  (λ k : nat, lo + Z.of_nat k) <$> seq 0 (Z.to_nat (hi - lo)).

(** [for x in xs: body], threading the state and stopping at an exception. *)
Fixpoint for_each {A S} (xs : list A) (body : A → S → result S) (s : S) : result S :=
  match xs with
  | [] => Ok s
  | x :: xs' => s' ← body x s; for_each xs' body s'
  end.

(** The state after [for x in xs: body], whether the loop ran to its end
    or a round raised: the rounds before have had their effect, and the
    round that raised has left the state as [body_after] says. *)
Fixpoint for_each_after {A S} (xs : list A) (body : A → S → result S)
    (body_after : A → S → S) (s : S) : S :=
  match xs with
  | [] => s
  | x :: xs' =>
      match body x s with
      | Ok s' => for_each_after xs' body body_after s'
      | Raise _ => body_after x s
      end
  end.

(** ** Colours *)

Definition color : Type := Z * Z * Z.

(* Palette approximating xterm defaults. *)
Definition BASE_COLORS : list color :=
  [ (0, 0, 0);        (* 0 black *)
    (205, 49, 49);    (* 1 red *)
    (13, 188, 121);   (* 2 green *)
    (229, 229, 16);   (* 3 yellow *)
    (36, 114, 200);   (* 4 blue *)
    (188, 63, 188);   (* 5 magenta *)
    (17, 168, 205);   (* 6 cyan *)
    (229, 229, 229);  (* 7 white *)
    (102, 102, 102);  (* 8 bright black *)
    (241, 76, 76);    (* 9 bright red *)
    (35, 209, 139);   (* 10 bright green *)
    (245, 245, 67);   (* 11 bright yellow *)
    (59, 142, 234);   (* 12 bright blue *)
    (214, 112, 214);  (* 13 bright magenta *)
    (41, 184, 219);   (* 14 bright cyan *)
    (255, 255, 255)   (* 15 bright white *)
  ].

(** The local function [level] of [color_from_index]. *)
Definition level (x : Z) : Z := if decide (x ≠ 0) then 55 + x * 40 else 0.

Definition color_from_index (idx : Z) : result color :=
  if decide (idx < 0) then py_get BASE_COLORS 7
  else if decide (idx < 16) then py_get BASE_COLORS idx
  else if decide (idx < 232) then
    let v := idx - 16 in
    let r := (v `div` 36) `mod` 6 in
    let g := (v `div` 6) `mod` 6 in
    let b := v `mod` 6 in
    Ok (level r, level g, level b)
  else
    let v := 8 + (idx - 232) * 10 in
    let v := Z.max 0 (Z.min 255 v) in
    Ok (v, v, v).

(** ** Characters and strings *)

(** [ord b] for a byte of a [bytes] object, [chr b] for the character. *)
Definition ord (b : byte) : Z := Z.of_N (Byte.to_N b).
Definition chr (b : byte) : ascii := ascii_of_byte b.

(** The code point of a character; [str] comparison of one-character
    strings compares code points. *)
Definition code (c : ascii) : Z := Z.of_N (N_of_ascii c).
Definition ch_le (a b : ascii) : Prop := code a ≤ code b.
#[global] Instance ch_le_dec a b : Decision (ch_le a b) := Z.le_dec _ _.

(** A one-character [str]. *)
Definition str1 (c : ascii) : string := String c EmptyString.

Definition startswith (c : ascii) (s : string) : bool :=
  match s with
  | String c' _ => bool_decide (c' = c)
  | EmptyString => false
  end.

(** [s[1:]] *)
Definition drop1 (s : string) : string :=
  match s with
  | String _ s' => s'
  | EmptyString => EmptyString
  end.

(** [s.split(sep)] for a one-character separator: never empty. *)
Fixpoint split (sep : ascii) (s : string) : list string :=
  match s with
  | EmptyString => [EmptyString]
  | String c s' =>
      if decide (c = sep) then EmptyString :: split sep s'
      else match split sep s' with
           | f :: fs => String c f :: fs
           | [] => [str1 c]
           end
  end.

Definition chars (s : string) : list ascii := list_ascii_of_string s.

(** The decimal digits [0-9]. *)
Definition is_decimal (c : ascii) : bool :=
  bool_decide (0x30 ≤ code c ≤ 0x39).

(** [c.isdigit()] on the code points below 256: the decimal digits and the
    superscripts U+00B2, U+00B3 and U+00B9, which have the Unicode property
    Numeric_Type=Digit. *)
Definition char_isdigit (c : ascii) : bool :=
  is_decimal c ||
  bool_decide (code c = 0xB2 ∨ code c = 0xB3 ∨ code c = 0xB9).

(** [s.isdigit()]: false on the empty string. *)
Definition isdigit (s : string) : bool :=
  match s with
  | EmptyString => false
  | _ => forallb char_isdigit (chars s)
  end.

Definition decimal_value (cs : list ascii) : Z :=
  foldl (λ acc c, 10 * acc + (code c - 0x30)) 0 cs.

(** A non-empty string of decimal digits. *)
Definition all_decimal (s : string) : bool :=
  match s with
  | EmptyString => false
  | _ => forallb is_decimal (chars s)
  end.

(** [sys.get_int_max_str_digits()], at its default: [int] converts no
    string of more digits, leading zeros counted. *)
Definition int_max_str_digits : nat := 4300.

(** [int(s)] on the strings it is called with here, those with
    [s.isdigit()]: the value of a string of decimal digits, [ValueError]
    when a character is not a decimal digit or when there are more than
    [int_max_str_digits] digits. *)
Definition py_int (s : string) : result Z :=
  if all_decimal s then
    if decide (int_max_str_digits < String.length s)%nat then Raise ValueError
    else Ok (decimal_value (chars s))
  else Raise ValueError.

(** ** Cells *)

Module Cell.
Record t : Type := mk { ch : string; fg : color; bg : color; bold : bool }.

(** The defaults of the dataclass. *)
Definition default_fg : color := (230, 230, 230).
Definition default_bg : color := (10, 12, 16).

(** [Cell()] *)
Definition blank : t := mk " " default_fg default_bg false.

(** [Cell(fg=.., bg=.., bold=..)] *)
Definition styled (fg bg : color) (bold : bool) : t := mk " " fg bg bold.
End Cell.

#[global] Instance Cell_eq_dec : EqDecision Cell.t.
Proof. solve_decision. Defined.

(** ** The emulator *)

Module TerminalEmulator.

Inductive parser_state : Set := normal | esc | osc | csi.

Record t : Type := mk {
  cols : Z;
  rows : Z;
  cells : list (list Cell.t);
  cx : Z;
  cy : Z;
  saved : option (Z * Z);
  current_fg : color;
  current_bg : color;
  bold : bool;
  state : parser_state;
  csi_buf : string;
  osc_active : bool
}.

(** Assignments to one attribute. *)
Definition set_cells v (self : t) : t :=
  mk (cols self) (rows self) v (cx self) (cy self) (saved self)
     (current_fg self) (current_bg self) (bold self) (state self)
     (csi_buf self) (osc_active self).
Definition set_cx v (self : t) : t :=
  mk (cols self) (rows self) (cells self) v (cy self) (saved self)
     (current_fg self) (current_bg self) (bold self) (state self)
     (csi_buf self) (osc_active self).
Definition set_cy v (self : t) : t :=
  mk (cols self) (rows self) (cells self) (cx self) v (saved self)
     (current_fg self) (current_bg self) (bold self) (state self)
     (csi_buf self) (osc_active self).
Definition set_saved v (self : t) : t :=
  mk (cols self) (rows self) (cells self) (cx self) (cy self) v
     (current_fg self) (current_bg self) (bold self) (state self)
     (csi_buf self) (osc_active self).
Definition set_current_fg v (self : t) : t :=
  mk (cols self) (rows self) (cells self) (cx self) (cy self) (saved self)
     v (current_bg self) (bold self) (state self)
     (csi_buf self) (osc_active self).
Definition set_current_bg v (self : t) : t :=
  mk (cols self) (rows self) (cells self) (cx self) (cy self) (saved self)
     (current_fg self) v (bold self) (state self)
     (csi_buf self) (osc_active self).
Definition set_bold v (self : t) : t :=
  mk (cols self) (rows self) (cells self) (cx self) (cy self) (saved self)
     (current_fg self) (current_bg self) v (state self)
     (csi_buf self) (osc_active self).
Definition set_state v (self : t) : t :=
  mk (cols self) (rows self) (cells self) (cx self) (cy self) (saved self)
     (current_fg self) (current_bg self) (bold self) v
     (csi_buf self) (osc_active self).
Definition set_csi_buf v (self : t) : t :=
  mk (cols self) (rows self) (cells self) (cx self) (cy self) (saved self)
     (current_fg self) (current_bg self) (bold self) (state self)
     v (osc_active self).
Definition set_osc_active v (self : t) : t :=
  mk (cols self) (rows self) (cells self) (cx self) (cy self) (saved self)
     (current_fg self) (current_bg self) (bold self) (state self)
     (csi_buf self) v.

(** [[f(_) for _ in range(n)]] with a constant element. *)
Definition repeated {A} (x : A) (n : Z) : list A := replicate (Z.to_nat n) x.

Definition reset (self : t) : t :=
  mk (cols self) (rows self)
     (repeated (repeated Cell.blank (cols self)) (rows self))
     0 0 None (230, 230, 230) (10, 12, 16) false normal "" false.

(** [TerminalEmulator(cols, rows)]: the two dimensions are stored and
    [reset] sets every other attribute. *)
Definition __init__ (cols rows : Z) : t :=
  reset (mk cols rows [] 0 0 None (0, 0, 0) (0, 0, 0) false normal "" false).

(** [self.cells[y][x] = c] *)
Definition write_cell (y x : Z) (c : Cell.t) (self : t) : result t :=
  row ← py_get (cells self) y;
  row' ← py_set row x c;
  cells' ← py_set (cells self) y row';
  Ok (set_cells cells' self).

(** One round of the loop of [_scroll]. *)
Definition scroll_once (self : t) : result t :=
  match cells self with
  | [] => Raise IndexError
  | _ :: rest =>
      Ok (set_cells
            (rest ++ [repeated (Cell.styled (current_fg self) (current_bg self) (bold self))
                               (cols self)])
            self)
  end.

Definition _scroll (count : Z) (self : t) : result t :=
  for_each (py_range 0 count) (λ _, scroll_once) self.

Definition _newline (self : t) : result t :=
  let self := set_cx 0 self in
  let self := set_cy (cy self + 1) self in
  if decide (cy self >= rows self) then
    let self := set_cy (rows self - 1) self in
    _scroll 1 self
  else Ok self.

Definition _put_char (ch : string) (self : t) : result t :=
  self ← (if decide (cx self >= cols self) then _newline self else Ok self);
  self ← (if decide (cy self >= rows self) then
            self ← _scroll 1 self;
            Ok (set_cy (rows self - 1) self)
          else Ok self);
  self ← write_cell (cy self) (cx self)
           (Cell.mk ch (current_fg self) (current_bg self) (bold self)) self;
  Ok (set_cx (cx self + 1) self).

(** The loop of [_apply_sgr]: [sgr_step] is one round at index [i] with
    [p = params[i]] and gives the index of the next round; the loop ends
    when [i] leaves the list, within [length params] rounds. *)
Definition sgr_step (params : list Z) (i : nat) (p : Z) (self : t) : result (t * nat) :=
  if decide (p = 0) then
    Ok (set_bold false (set_current_bg (10, 12, 16) (set_current_fg (230, 230, 230) self)),
        (i + 1)%nat)
  else if decide (p = 1) then Ok (set_bold true self, (i + 1)%nat)
  else if decide (30 ≤ p ≤ 37) then
    c ← py_get BASE_COLORS (p - 30); Ok (set_current_fg c self, (i + 1)%nat)
  else if decide (90 ≤ p ≤ 97) then
    c ← py_get BASE_COLORS (p - 90 + 8); Ok (set_current_fg c self, (i + 1)%nat)
  else if decide (p = 39) then Ok (set_current_fg (230, 230, 230) self, (i + 1)%nat)
  else if decide (40 ≤ p ≤ 47) then
    c ← py_get BASE_COLORS (p - 40); Ok (set_current_bg c self, (i + 1)%nat)
  else if decide (100 ≤ p ≤ 107) then
    c ← py_get BASE_COLORS (p - 100 + 8); Ok (set_current_bg c self, (i + 1)%nat)
  else if decide (p = 49) then Ok (set_current_bg (10, 12, 16) self, (i + 1)%nat)
  else if decide (p = 38 ∨ p = 48) then
    let is_fg := bool_decide (p = 38) in
    if decide ((i + 1 < length params)%nat ∧ params !! (i + 1)%nat = Some 2
               ∧ (i + 4 < length params)%nat) then
      match take 3 (drop (i + 2) params) with
      | [r; g; b] =>
          let color := (r, g, b) in
          Ok (if is_fg then set_current_fg color self else set_current_bg color self,
              (i + 4 + 1)%nat)
      | _ => Raise ValueError
      end
    else if decide ((i + 1 < length params)%nat ∧ params !! (i + 1)%nat = Some 5
                    ∧ (i + 2 < length params)%nat) then
      idx ← py_get params (Z.of_nat (i + 2));
      color ← color_from_index idx;
      Ok (if is_fg then set_current_fg color self else set_current_bg color self,
          (i + 2 + 1)%nat)
    else Ok (self, (i + 1)%nat)
  else Ok (self, (i + 1)%nat).

Fixpoint sgr_loop (fuel : nat) (params : list Z) (i : nat) (self : t) : result t :=
  match fuel with
  | O => Ok self
  | S fuel' =>
      match params !! i with
      | None => Ok self
      | Some p =>
          '(self', i') ← sgr_step params i p self;
          sgr_loop fuel' params i' self'
      end
  end.

Definition _apply_sgr (params : list Z) (self : t) : result t :=
  let params := match params with [] => [0] | _ => params end in
  sgr_loop (length params) params 0 self.

(** The rounds of the loop from index [i] on. *)
Definition sgr_from (params : list Z) (i : nat) (self : t) : result t :=
  sgr_loop (length params - i) params i self.

(** The rounds of the loop at the indices below [k]: the object after
    them and the index of the next round, which is [k] when the loop
    comes to [params[k]] and is beyond [k] when an earlier round has
    consumed [params[k]]. *)
Fixpoint sgr_upto (fuel : nat) (params : list Z) (k i : nat) (self : t)
    : result (t * nat) :=
  match fuel with
  | O => Ok (self, i)
  | S fuel' =>
      if decide (k ≤ i)%nat then Ok (self, i)
      else
        match params !! i with
        | None => Ok (self, i)
        | Some p =>
            '(self', i') ← sgr_step params i p self;
            sgr_upto fuel' params k i' self'
        end
  end.

Definition sgr_prefix (params : list Z) (k : nat) (self : t) : result (t * nat) :=
  let params := match params with [] => [0] | _ => params end in
  sgr_upto (length params) params k 0 self.

(** The parameters of a control sequence: the first lines of
    [_handle_csi]. *)
Definition unprefixed (params_raw : string) : string :=
  let private := startswith "?" params_raw in
  if private then drop1 params_raw else params_raw.

Definition csi_ints (params_raw : string) : result (list Z) :=
  let params_raw := unprefixed params_raw in
  let params := filter (λ p, p ≠ EmptyString) (split ";" params_raw) in
  mapM (λ p, if isdigit p then py_int p else Ok 0) params.

(** [ints[k] if len(ints) >= k + 1 else d] *)
Definition arg (ints : list Z) (k : nat) (d : Z) : Z := default d (ints !! k).

(** The loop of the branch ["K"]. *)
Definition erase_cell (x : Z) (self : t) : result t :=
  if decide (0 ≤ cy self < rows self) then
    write_cell (cy self) x
      (Cell.styled (current_fg self) (current_bg self) (bold self)) self
  else Ok self.

(** The branch ["K"] of [_handle_csi]. *)
Definition erase_line (ints : list Z) (self : t) : result t :=
  let mode := arg ints 0 0 in
  if decide (mode = 0 ∨ mode = 1 ∨ mode = 2) then
    let '(start, end_) :=
      if decide (mode = 0) then (cx self, cols self)
      else if decide (mode = 1) then (0, cx self + 1)
      else (0, cols self) in
    for_each (py_range start (Z.min end_ (cols self))) erase_cell self
  else Ok self.

Definition _handle_csi (final : ascii) (params_raw : string) (self : t) : result t :=
  ints ← csi_ints params_raw;
  if decide (final = "H" ∨ final = "f")%char then
    let row := arg ints 0 1 in
    let col := arg ints 1 1 in
    let self := set_cy (Z.max 0 (Z.min (rows self - 1) (row - 1))) self in
    Ok (set_cx (Z.max 0 (Z.min (cols self - 1) (col - 1))) self)
  else if decide (final = "A")%char then
    Ok (set_cy (Z.max 0 (cy self - arg ints 0 1)) self)
  else if decide (final = "B")%char then
    Ok (set_cy (Z.min (rows self - 1) (cy self + arg ints 0 1)) self)
  else if decide (final = "C")%char then
    Ok (set_cx (Z.min (cols self - 1) (cx self + arg ints 0 1)) self)
  else if decide (final = "D")%char then
    Ok (set_cx (Z.max 0 (cx self - arg ints 0 1)) self)
  else if decide (final = "J")%char then
    let mode := arg ints 0 0 in
    if decide (mode = 2) then Ok (reset self) else Ok self
  else if decide (final = "K")%char then erase_line ints self
  else if decide (final = "m")%char then _apply_sgr ints self
  else if decide (final = "s")%char then Ok (set_saved (Some (cx self, cy self)) self)
  else if decide (final = "u")%char then
    match saved self with
    | Some (x, y) => Ok (set_cy y (set_cx x self))
    | None => Ok self
    end
  else
    (* Ignore other sequences. *)
    Ok self.

(** One round of the loop of [feed], on the byte [data[i]]; [next] is
    [data[i + 1]] when [i + 1 < len(data)]. The result carries the new
    state and whether the round consumed the following byte too. *)
Definition feed_step (byte : byte) (next : option Byte.byte) (self : t)
    : result (t * bool) :=
  let b := ord byte in
  match state self with
  | normal =>
      self ←
        (if decide (b = 0x1B) then Ok (set_state esc self)
         else if decide (b = 0x0D) then Ok (set_cx 0 self)
         else if decide (b = 0x0A) then _newline self
         else if decide (b = 0x08) then Ok (set_cx (Z.max 0 (cx self - 1)) self)
         else if decide (b = 0x09) then
           Ok (set_cx (Z.min (cols self - 1) ((cx self `div` 8 + 1) * 8)) self)
         else if decide (b = 0x07) then Ok self
         else if decide (0x20 ≤ b ≤ 0x7E ∨ b >= 0xA0) then _put_char (str1 (chr byte)) self
         else Ok self);
      Ok (self, false)
  | esc =>
      if decide (b = code "[") then Ok (set_csi_buf "" (set_state csi self), false)
      else if decide (b = code "]") then Ok (set_state osc (set_osc_active true self), false)
      else Ok (set_state normal self, false)
  | osc =>
      if decide (b = 0x07) then Ok (set_state normal (set_osc_active false self), false)
      else if decide (b = 0x1B ∧ ord <$> next = Some (code "\")) then
        Ok (set_state normal (set_osc_active false self), true)
      else Ok (self, false)
  | csi =>
      let ch := chr byte in
      if decide (ch_le "@" ch ∧ ch_le ch "~") then
        self ← _handle_csi ch (csi_buf self) self;
        Ok (set_state normal self, false)
      else Ok (set_csi_buf (csi_buf self +:+ str1 ch) self, false)
  end.

Fixpoint feed (data : list byte) (self : t) {struct data} : result t :=
  match data with
  | [] => Ok self
  | b :: rest =>
      '(self', skip) ← feed_step b (head rest) self;
      match rest with
      | _ :: rest' => if skip : bool then feed rest' self' else feed rest self'
      | [] => Ok self'
      end
  end.

(** *** The object after a call

    [result] gives what a call returns or raises. An exception leaves in
    place the assignments made before it, and the caller that catches it
    goes on with the object as it is: for each method that may raise,
    [<method>_after] is the object after the call, whether it returned
    or raised. An assignment to a cell and [cells.pop(0)] raise before
    they store anything, so that they leave the object as it was. *)

Definition _scroll_after (count : Z) (self : t) : t :=
  for_each_after (py_range 0 count) (λ _, scroll_once) (λ _ self, self) self.

Definition _newline_after (self : t) : t :=
  let self := set_cx 0 self in
  let self := set_cy (cy self + 1) self in
  if decide (cy self >= rows self) then
    let self := set_cy (rows self - 1) self in
    _scroll_after 1 self
  else self.

Definition _put_char_after (ch : string) (self : t) : t :=
  match (if decide (cx self >= cols self) then _newline self else Ok self) with
  | Raise _ => _newline_after self
  | Ok self =>
      match (if decide (cy self >= rows self) then
               self ← _scroll 1 self;
               Ok (set_cy (rows self - 1) self)
             else Ok self) with
      | Raise _ => _scroll_after 1 self
      | Ok self =>
          match write_cell (cy self) (cx self)
                  (Cell.mk ch (current_fg self) (current_bg self) (bold self)) self with
          | Raise _ => self
          | Ok self => set_cx (cx self + 1) self
          end
      end
  end.

(** A round of the loop of [_apply_sgr] evaluates the colour before it
    assigns it. *)
Fixpoint sgr_loop_after (fuel : nat) (params : list Z) (i : nat) (self : t) : t :=
  match fuel with
  | O => self
  | S fuel' =>
      match params !! i with
      | None => self
      | Some p =>
          match sgr_step params i p self with
          | Ok (self', i') => sgr_loop_after fuel' params i' self'
          | Raise _ => self
          end
      end
  end.

Definition _apply_sgr_after (params : list Z) (self : t) : t :=
  let params := match params with [] => [0] | _ => params end in
  sgr_loop_after (length params) params 0 self.

Definition erase_line_after (ints : list Z) (self : t) : t :=
  let mode := arg ints 0 0 in
  if decide (mode = 0 ∨ mode = 1 ∨ mode = 2) then
    let '(start, end_) :=
      if decide (mode = 0) then (cx self, cols self)
      else if decide (mode = 1) then (0, cx self + 1)
      else (0, cols self) in
    for_each_after (py_range start (Z.min end_ (cols self))) erase_cell
      (λ _ self, self) self
  else self.

(** The parameters are converted before anything is assigned; the
    branches other than ["K"] and ["m"] assign, or call [reset], and do not
    raise. *)
Definition _handle_csi_after (final : ascii) (params_raw : string) (self : t) : t :=
  match csi_ints params_raw with
  | Raise _ => self
  | Ok ints =>
      if decide (final = "K")%char then erase_line_after ints self
      else if decide (final = "m")%char then _apply_sgr_after ints self
      else match _handle_csi final params_raw self with
           | Ok self' => self'
           | Raise _ => self
           end
  end.

(** The object after a round of the loop of [feed] that raised: the
    exception comes from [_newline], [_put_char] or [_handle_csi], and in
    the last case [self.state = "normal"] is not reached. *)
Definition feed_step_after (byte : byte) (self : t) : t :=
  let b := ord byte in
  match state self with
  | normal =>
      if decide (b = 0x0A) then _newline_after self
      else if decide (0x20 ≤ b ≤ 0x7E ∨ b >= 0xA0) then
        _put_char_after (str1 (chr byte)) self
      else self
  | csi =>
      let ch := chr byte in
      if decide (ch_le "@" ch ∧ ch_le ch "~") then
        _handle_csi_after ch (csi_buf self) self
      else self
  | esc | osc => self
  end.

Fixpoint feed_after (data : list byte) (self : t) {struct data} : t :=
  match data with
  | [] => self
  | b :: rest =>
      match feed_step b (head rest) self with
      | Raise _ => feed_step_after b self
      | Ok (self', skip) =>
          match rest with
          | _ :: rest' => if skip : bool then feed_after rest' self' else feed_after rest self'
          | [] => self'
          end
      end
  end.

(** The rounds of the loop of [feed] that ran to their end: the object
    before the round, the byte of the round, the object after it. *)
Fixpoint feed_rounds (data : list byte) (self : t) {struct data}
    : list (t * byte * t) :=
  match data with
  | [] => []
  | b :: rest =>
      match feed_step b (head rest) self with
      | Raise _ => []
      | Ok (self', skip) =>
          (self, b, self') ::
          match rest with
          | _ :: rest' =>
              if skip : bool then feed_rounds rest' self' else feed_rounds rest self'
          | [] => []
          end
      end
  end.

(** The states at the end of each round of the loop of [feed], up to the
    end of the data or the round that raises. *)
Fixpoint feed_trace (data : list byte) (self : t) {struct data} : list t :=
  match data with
  | [] => []
  | b :: rest =>
      match feed_step b (head rest) self with
      | Raise _ => []
      | Ok (self', skip) =>
          self' ::
          match rest with
          | _ :: rest' => if skip : bool then feed_trace rest' self' else feed_trace rest self'
          | [] => []
          end
      end
  end.

(** A sequence of calls of [feed] on one emulator: the states at the end
    of each round of each call. A call that raised has left the object as
    [feed_after] says, and the next call goes on from there. *)
Fixpoint feeds_trace (calls : list (list byte)) (self : t) : list t :=
  match calls with
  | [] => []
  | data :: calls' => feed_trace data self ++ feeds_trace calls' (feed_after data self)
  end.

(** The rounds of a sequence of calls of [feed] on one emulator. *)
Fixpoint feeds_rounds (calls : list (list byte)) (self : t) : list (t * byte * t) :=
  match calls with
  | [] => []
  | data :: calls' => feed_rounds data self ++ feeds_rounds calls' (feed_after data self)
  end.

(** The grid has [rows] rows of [cols] cells, at least one cell, and the
    cursor and the saved cursor are on a row of the grid, at a column of
    the grid or just after the last one. *)
Record wf (self : t) : Prop := mk_wf {
  wf_cols : 1 ≤ cols self;
  wf_rows : 1 ≤ rows self;
  wf_height : Z.of_nat (length (cells self)) = rows self;
  wf_width : Forall (λ row, Z.of_nat (length row) = cols self) (cells self);
  wf_cx : 0 ≤ cx self ≤ cols self;
  wf_cy : 0 ≤ cy self < rows self;
  wf_saved : ∀ x y, saved self = Some (x, y) →
               0 ≤ x ≤ cols self ∧ 0 ≤ y < rows self
}.

(** The invariant with the dimensions of a given state. *)
Definition wf_like (s s' : t) : Prop :=
  wf s' ∧ cols s' = cols s ∧ rows s' = rows s.

(** The state after some rounds of the loop of ["K"] that started in
    [s0]: the grid differs on the row of the cursor at most. *)
Definition erased_from (s0 s : t) : Prop :=
  ∃ cells', s = set_cells cells' s0 ∧ length cells' = length (cells s0) ∧
            ∀ k : nat, Z.of_nat k ≠ cy s0 → cells' !! k = cells s0 !! k.

(** Two states with the same dimensions, grid, cursor and saved cursor. *)
Definition same_screen (s s' : t) : Prop :=
  cols s' = cols s ∧ rows s' = rows s ∧ cells s' = cells s ∧
  cx s' = cx s ∧ cy s' = cy s ∧ saved s' = saved s.

End TerminalEmulator.

(** ** The renderer *)

(** The characters that a string literal cannot hold. *)
Definition dq : string := str1 (ascii_of_N 34).
Definition nl : string := str1 (ascii_of_N 10).
Definition nul : string := str1 (ascii_of_N 0).

(** [name="value"] *)
Definition attr (name value : string) : string := name +:+ "=" +:+ dq +:+ value +:+ dq.

(** [format(n, "02x")] *)
Definition format_02x (n : Z) : string :=
  let digits := NilZero.string_of_uint (N.to_hex_uint (Z.to_N (Z.abs n))) in
  if decide (n < 0) then "-" +:+ digits
  else if decide (String.length digits < 2)%nat then "0" +:+ digits
  else digits.

Definition rgb_hex (c : color) : string :=
  let '(r, g, b) := c in "#" +:+ format_02x r +:+ format_02x g +:+ format_02x b.

(** [html.escape(s)], with [quote=True]. *)
Definition escape_char (c : ascii) : string :=
  if decide (c = "&"%char) then "&amp;"
  else if decide (c = "<"%char) then "&lt;"
  else if decide (c = ">"%char) then "&gt;"
  else if decide (c = ascii_of_N 34) then "&quot;"
  else if decide (c = "'"%char) then "&#x27;"
  else str1 c.

Fixpoint html_escape (s : string) : string :=
  match s with
  | EmptyString => EmptyString
  | String c s' => escape_char c +:+ html_escape s'
  end.

Section render.
Variable screen : TerminalEmulator.t.
Variables cell_w cell_h padding : Z.

Let cols := TerminalEmulator.cols screen.
Let rows := TerminalEmulator.rows screen.
Let cells := TerminalEmulator.cells screen.

Definition svg_width : Z := padding * 2 + cols * cell_w.
Definition svg_height : Z := padding * 2 + rows * cell_h.

(** [screen.cells[0][0].bg if screen.cells else (0, 0, 0)] *)
Definition canvas_bg : result color :=
  match cells with
  | [] => Ok (0, 0, 0)
  | _ => row ← py_get cells 0; c ← py_get row 0; Ok (Cell.bg c)
  end.

(** The rectangle that fills the canvas. *)
Definition base_rect (bg0 : color) : string :=
  "  <rect " +:+ attr "x" "0" +:+ " " +:+ attr "y" "0" +:+ " "
    +:+ attr "width" (pretty svg_width) +:+ " " +:+ attr "height" (pretty svg_height)
    +:+ " " +:+ attr "fill" (rgb_hex bg0) +:+ " " +:+ attr "rx" "8" +:+ " "
    +:+ attr "ry" "8" +:+ "/>".

Definition header_lines (bg0 : color) : list string :=
  [ "<?xml version=" +:+ dq +:+ "1.0" +:+ dq +:+ " encoding=" +:+ dq +:+ "UTF-8" +:+ dq +:+ "?>";
    "<svg " +:+ attr "xmlns" "http://www.w3.org/2000/svg" +:+ " "
      +:+ attr "width" (pretty svg_width) +:+ " " +:+ attr "height" (pretty svg_height)
      +:+ " " +:+ attr "viewBox" ("0 0 " +:+ pretty svg_width +:+ " " +:+ pretty svg_height)
      +:+ ">";
    base_rect bg0 ].

(** The rectangle of the run of columns [start .. x - 1] of row [y]. *)
Definition span_line (y start x : Z) (bg : color) : string :=
  let rect_x := padding + start * cell_w in
  let rect_w := (x - start) * cell_w in
  let rect_y := padding + y * cell_h in
  "  <rect " +:+ attr "x" (pretty rect_x) +:+ " " +:+ attr "y" (pretty rect_y) +:+ " "
    +:+ attr "width" (pretty rect_w) +:+ " " +:+ attr "height" (pretty cell_h) +:+ " "
    +:+ attr "fill" (rgb_hex bg) +:+ "/>".

(** [while x < screen.cols and row[x].bg == bg: x += 1] *)
Fixpoint scan_run (fuel : nat) (row : list Cell.t) (bg : color) (x : Z) : result Z :=
  match fuel with
  | O => Ok x
  | S fuel' =>
      if decide (x < cols) then
        c ← py_get row x;
        if decide (Cell.bg c = bg) then scan_run fuel' row bg (x + 1) else Ok x
      else Ok x
  end.

(** [while x < screen.cols: ...], the lines appended for one row; each
    round moves [x] forward, so that [cols - x] rounds are enough. *)
Fixpoint span_loop (fuel : nat) (bg0 : color) (y : Z) (row : list Cell.t) (x : Z)
    : result (list string) :=
  match fuel with
  | O => Ok []
  | S fuel' =>
      if decide (x < cols) then
        let start := x in
        c ← py_get row x;
        let bg := Cell.bg c in
        x ← scan_run (Z.to_nat (cols - x)) row bg x;
        rest ← span_loop fuel' bg0 y row x;
        Ok (if decide (bg ≠ bg0) then span_line y start x bg :: rest else rest)
      else Ok []
  end.

(** [for y, row in enumerate(rows): ...], the lines appended. *)
Fixpoint enumerate_from {A} (y : Z) (l : list A) : list (Z * A) :=
  match l with
  | [] => []
  | a :: l' => (y, a) :: enumerate_from (y + 1) l'
  end.

Definition span_lines (bg0 : color) : result (list string) :=
  @concat string <$> mapM (λ '(y, row), span_loop (Z.to_nat cols) bg0 y row 0)
                  (enumerate_from 0 cells).

Definition font : string :=
  "JetBrains Mono, 'Fira Code', SFMono-Regular, Consolas, Menlo, monospace".

Definition text_open (y : Z) : string :=
  let text_y := padding + y * cell_h in
  "  <text " +:+ attr "x" (pretty padding) +:+ " " +:+ attr "y" (pretty text_y) +:+ " "
    +:+ attr "xml:space" "preserve" +:+ " " +:+ attr "font-family" font +:+ " "
    +:+ attr "font-size" "13" +:+ " " +:+ attr "dominant-baseline" "hanging" +:+ ">".

(** The variables that [flush] shares with the loop over the cells of a
    row, and the lines appended so far. *)
Record run_state : Type := mk_run {
  current_fg : option color;
  current_bold : bool;
  buffer : string;
  emitted : list string
}.

Definition flush (st : run_state) : run_state :=
  if decide (buffer st = EmptyString) then st
  else
    let attrs :=
      match current_fg st with Some fg => [attr "fill" (rgb_hex fg)] | None => [] end
      ++ (if current_bold st then [attr "font-weight" "700"] else []) in
    let attr_str :=
      match attrs with [] => EmptyString | _ => " " +:+ String.concat " " attrs end in
    mk_run (current_fg st) (current_bold st) EmptyString
      (emitted st ++ ["    <tspan" +:+ attr_str +:+ ">" +:+ html_escape (buffer st)
                        +:+ "</tspan>"]).

Definition text_cell (st : run_state) (cell : Cell.t) : run_state :=
  let fg := Cell.fg cell in
  let bold := Cell.bold cell in
  let ch := if decide (Cell.ch cell ≠ nul) then Cell.ch cell else " " in
  let st :=
    if decide (Some fg ≠ current_fg st ∨ bold ≠ current_bold st) then
      let st := flush st in
      mk_run (Some fg) bold (buffer st) (emitted st)
    else st in
  mk_run (current_fg st) (current_bold st) (buffer st +:+ ch) (emitted st).

Definition text_lines_row (y : Z) (row : list Cell.t) : list string :=
  let st := foldl text_cell (mk_run None false EmptyString [text_open y]) row in
  emitted (flush st) ++ ["  </text>"].

Definition text_lines : list string :=
  @concat string ((λ '(y, row), text_lines_row y row) <$> enumerate_from 0 cells).

(** The list [lines] at the end of [render_svg]. *)
Definition render_lines : result (list string) :=
  bg0 ← canvas_bg;
  spans ← span_lines bg0;
  Ok (header_lines bg0 ++ spans ++ text_lines ++ ["</svg>"]).

Definition render_svg : result string :=
  lines ← render_lines;
  Ok (String.concat nl lines +:+ nl).

End render.

(** ** The renderer, as a call on the screen object

    [render_svg] above takes the screen as a value. Here the screen is
    the object that the caller holds and the renderer is a call on it,
    which may read it, might write to it, and leaves it to the caller in
    some state. The variables of [render_svg] ([lines], [buffer], [x] and
    the others) are its own, and are values as above. *)

Module Call.

(** A call on the screen object: from the object before the call to the
    object after it and what the call returns or raises. *)
Definition call (A : Type) : Type :=
  TerminalEmulator.t → TerminalEmulator.t * result A.

#[global] Instance call_ret : MRet call := λ A a screen, (screen, Ok a).
#[global] Instance call_bind : MBind call := λ A B k m screen,
  match m screen with
  | (screen', Ok a) => k a screen'
  | (screen', Raise e) => (screen', Raise e)
  end.

(** [screen.cols], [screen.rows], [screen.cells]: the value of an
    attribute of the object at the time of the read. *)
Definition attribute {A} (field : TerminalEmulator.t → A) : call A :=
  λ screen, (screen, Ok (field screen)).

(** A computation on values that have been read. *)
Definition value {A} (r : result A) : call A := λ screen, (screen, r).

(** [screen.feed(data)] *)
Definition feed (data : list Byte.byte) : call unit :=
  λ screen, (TerminalEmulator.feed_after data screen,
             _ ← TerminalEmulator.feed data screen; Ok tt).

Section render.
Variables cell_w cell_h padding : Z.

(** In [for y, row in enumerate(screen.cells)] the name [row] is bound
    to the list [screen.cells[y]], not to a copy of it: what the rounds
    read of [row], they read of the object as it is at that time. *)
Definition row_of (y : nat) : call (list Cell.t) :=
  cells ← attribute TerminalEmulator.cells;
  value (match cells !! y with Some row => Ok row | None => Raise IndexError end).

(** [row[x]] *)
Definition row_item (y : nat) (x : Z) : call Cell.t :=
  row ← row_of y; value (py_get row x).

(** [screen.cells[0][0].bg if screen.cells else (0, 0, 0)] *)
Definition canvas_bg : call color :=
  cells ← attribute TerminalEmulator.cells;
  match cells with
  | [] => mret (0, 0, 0)
  | _ =>
      cells ← attribute TerminalEmulator.cells;
      value (row ← py_get cells 0; c ← py_get row 0; Ok (Cell.bg c))
  end.

(** The first lines of the document, from [width] and [height]. *)
Definition base_rect (width height : Z) (bg0 : color) : string :=
  "  <rect " +:+ attr "x" "0" +:+ " " +:+ attr "y" "0" +:+ " "
    +:+ attr "width" (pretty width) +:+ " " +:+ attr "height" (pretty height)
    +:+ " " +:+ attr "fill" (rgb_hex bg0) +:+ " " +:+ attr "rx" "8" +:+ " "
    +:+ attr "ry" "8" +:+ "/>".

Definition header_lines (width height : Z) (bg0 : color) : list string :=
  [ "<?xml version=" +:+ dq +:+ "1.0" +:+ dq +:+ " encoding=" +:+ dq +:+ "UTF-8" +:+ dq +:+ "?>";
    "<svg " +:+ attr "xmlns" "http://www.w3.org/2000/svg" +:+ " "
      +:+ attr "width" (pretty width) +:+ " " +:+ attr "height" (pretty height)
      +:+ " " +:+ attr "viewBox" ("0 0 " +:+ pretty width +:+ " " +:+ pretty height)
      +:+ ">";
    base_rect width height bg0 ].

(** [while x < screen.cols and row[x].bg == bg: x += 1] *)
Fixpoint scan_run (fuel : nat) (y : nat) (bg : color) (x : Z) : call Z :=
  match fuel with
  | O => mret x
  | S fuel' =>
      cols ← attribute TerminalEmulator.cols;
      if decide (x < cols) then
        c ← row_item y x;
        if decide (Cell.bg c = bg) then scan_run fuel' y bg (x + 1) else mret x
      else mret x
  end.

(** [while x < screen.cols: ...], the lines appended for the row [y]. *)
Fixpoint span_loop (fuel : nat) (bg0 : color) (y : nat) (x : Z) : call (list string) :=
  match fuel with
  | O => mret []
  | S fuel' =>
      cols ← attribute TerminalEmulator.cols;
      if decide (x < cols) then
        let start := x in
        c ← row_item y x;
        let bg := Cell.bg c in
        x ← scan_run (Z.to_nat (cols - x)) y bg x;
        rest ← span_loop fuel' bg0 y x;
        mret (if decide (bg ≠ bg0)
              then span_line cell_w cell_h padding (Z.of_nat y) start x bg :: rest
              else rest)
      else mret []
  end.

(** [for y, row in enumerate(screen.cells): body], the lines that the
    rounds append: the iterator gives [screen.cells[y]] as long as
    [y < len(screen.cells)]. *)
Fixpoint for_rows (fuel : nat) (y : nat) (body : nat → call (list string))
    : call (list string) :=
  match fuel with
  | O => mret []
  | S fuel' =>
      cells ← attribute TerminalEmulator.cells;
      if decide (y < length cells)%nat then
        out ← body y;
        rest ← for_rows fuel' (S y) body;
        mret (out ++ rest)
      else mret []
  end.

Definition span_lines (bg0 : color) : call (list string) :=
  cells ← attribute TerminalEmulator.cells;
  for_rows (length cells) 0
    (λ y, cols ← attribute TerminalEmulator.cols; span_loop (Z.to_nat cols) bg0 y 0).

(** [for cell in row: ...] *)
Fixpoint text_cells (fuel : nat) (y x : nat) (st : run_state) : call run_state :=
  match fuel with
  | O => mret st
  | S fuel' =>
      row ← row_of y;
      match row !! x with
      | Some cell => text_cells fuel' y (S x) (text_cell st cell)
      | None => mret st
      end
  end.

Definition text_lines_row (y : nat) : call (list string) :=
  row ← row_of y;
  st ← text_cells (length row) y 0
         (mk_run None false EmptyString [text_open cell_h padding (Z.of_nat y)]);
  mret (emitted (flush st) ++ ["  </text>"]).

Definition text_lines : call (list string) :=
  cells ← attribute TerminalEmulator.cells;
  for_rows (length cells) 0 text_lines_row.

Definition render_svg : call string :=
  cols ← attribute TerminalEmulator.cols;
  let width := padding * 2 + cols * cell_w in
  rows ← attribute TerminalEmulator.rows;
  let height := padding * 2 + rows * cell_h in
  bg0 ← canvas_bg;
  spans ← span_lines bg0;
  texts ← text_lines;
  mret (String.concat nl (header_lines width height bg0 ++ spans ++ texts ++ ["</svg>"])
        +:+ nl).

End render.
End Call.

(** ** Notions of the specification *)

(** The rounds of the loop of [feed], by what they do to the column of the
    cursor: a round in the normal state on a printable byte puts a
    character; a carriage return, a line feed, a backspace, a tab and the
    control sequences [H], [f] and [C] leave the cursor at a column of the
    grid; the control sequence [u] restores the saved cursor. *)
Definition puts_character (self : TerminalEmulator.t) (b : byte) : Prop :=
  TerminalEmulator.state self = TerminalEmulator.normal ∧
  (0x20 ≤ ord b ≤ 0x7E ∨ ord b >= 0xA0).

Definition clamps_column (self : TerminalEmulator.t) (b : byte) : Prop :=
  (TerminalEmulator.state self = TerminalEmulator.normal ∧
   (ord b = 0x0D ∨ ord b = 0x0A ∨ ord b = 0x08 ∨ ord b = 0x09)) ∨
  (TerminalEmulator.state self = TerminalEmulator.csi ∧
   (chr b = "H" ∨ chr b = "f" ∨ chr b = "C")%char).

Definition restores_cursor (self : TerminalEmulator.t) (b : byte) : Prop :=
  TerminalEmulator.state self = TerminalEmulator.csi ∧ chr b = "u"%char.

(** The value of a parameter field: its decimal value when it is a string
    of decimal digits, 0 otherwise. *)
Definition field_value (f : string) : Z :=
  if all_decimal f then decimal_value (chars f) else 0.

(** A field on which [isdigit] and [int] agree: one that [isdigit] accepts
    has decimal digits only, and no more of them than [int] converts. *)
Definition plain_field (f : string) : Prop :=
  isdigit f = true →
  all_decimal f = true ∧ (String.length f ≤ int_max_str_digits)%nat.

(** The runs of a row, in the words of the specification: consecutive
    cells with the same background are coalesced into one run
    [(start, end, bg)], the columns [start .. end - 1]. *)
Fixpoint bg_runs (start : nat) (row : list Cell.t) : list (nat * nat * color) :=
  match row with
  | [] => []
  | c :: row' =>
      match bg_runs (S start) row' with
      | (_, e, bg) :: runs =>
          if decide (bg = Cell.bg c) then (start, e, bg) :: runs
          else (start, S start, Cell.bg c) :: bg_runs (S start) row'
      | [] => [(start, S start, Cell.bg c)]
      end
  end.

(** The backgrounds that a list of runs stands for, column by column. *)
Definition expand_runs (runs : list (nat * nat * color)) : list color :=
  mjoin ((λ '(s, e, bg), replicate (e - s) bg) <$> runs).

(** Runs that follow one another from the column [start] on, none empty,
    each with a background other than that of the next. *)
Fixpoint chained (start : nat) (runs : list (nat * nat * color)) : Prop :=
  match runs with
  | [] => True
  | (s, e, bg) :: runs' =>
      s = start ∧ (s < e)%nat ∧
      match runs' with (_, _, bg') :: _ => bg' ≠ bg | [] => True end ∧
      chained e runs'
  end.

(** The number of cells at the head of a list that have the background
    [bg]. *)
Fixpoint run_length (bg : color) (l : list Cell.t) : nat :=
  match l with
  | c :: l' => if decide (Cell.bg c = bg) then S (run_length bg l') else 0
  | [] => 0
  end.

(** A line of the document that is a rectangle. *)
Definition is_rect (line : string) : bool := String.prefix "  <rect " line.

(** A grid that the renderer can read: each row has [cols] cells at least,
    and there is a column. *)
Definition renderable (screen : TerminalEmulator.t) : Prop :=
  1 ≤ TerminalEmulator.cols screen ∧
  Forall (λ row, TerminalEmulator.cols screen ≤ Z.of_nat (length row))
    (TerminalEmulator.cells screen).

(** The rectangles of a row, in the words of the specification: one for
    each run whose background differs from the canvas base colour. *)
Definition row_rects (cell_w cell_h padding cols : Z) (bg0 : color)
    (y : Z) (row : list Cell.t) : list string :=
  (λ '(s, e, bg), span_line cell_w cell_h padding y (Z.of_nat s) (Z.of_nat e) bg)
    <$> filter (λ r, r.2 ≠ bg0) (bg_runs 0 (take (Z.to_nat cols) row)).

(** The bytes and the strings without the three characters that [isdigit]
    accepts and [int] rejects. *)
Definition plain_byte (b : byte) : Prop :=
  ord b ≠ 0xB2 ∧ ord b ≠ 0xB3 ∧ ord b ≠ 0xB9.

Definition superscript_free (s : string) : Prop :=
  Forall (λ c, char_isdigit c = true → is_decimal c = true) (chars s).

(** The extended colour forms of an SGR parameter list: [38;2;r;g;b] and
    [48;2;r;g;b], and [38;5;idx] and [48;5;idx]; [fg] tells the
    foreground form, with [38], from the background form, with [48]. *)
Inductive color_form : Type :=
  | truecolor (fg : bool) (r g b : Z)
  | indexed (fg : bool) (idx : Z).

Definition form_params (form : color_form) : list Z :=
  match form with
  | truecolor fg r g b => [if fg then 38 else 48; 2; r; g; b]
  | indexed fg idx => [if fg then 38 else 48; 5; idx]
  end.

(** The colour that the form names. *)
Definition form_color (form : color_form) : result color :=
  match form with
  | truecolor _ r g b => Ok (r, g, b)
  | indexed _ idx => color_from_index idx
  end.

(** The pending colour that the form sets. *)
Definition set_pending (form : color_form) (c : color) (self : TerminalEmulator.t)
    : TerminalEmulator.t :=
  match form with
  | truecolor true _ _ _ | indexed true _ => TerminalEmulator.set_current_fg c self
  | truecolor false _ _ _ | indexed false _ => TerminalEmulator.set_current_bg c self
  end.

(** The iteration over [params] comes to index [k], with the object
    [self'], having started on [self]. *)
Definition sgr_reaches (params : list Z) (k : nat) (self self' : TerminalEmulator.t)
    : Prop :=
  TerminalEmulator.sgr_prefix params k self = Ok (self', k).

(** The codes [post] on their own: the loop of [_apply_sgr] over them.
    ([_apply_sgr] reads no code at all as the one code [0]; the loop
    over no code does nothing.) *)
Definition sgr_codes (post : list Z) (self : TerminalEmulator.t)
    : result TerminalEmulator.t :=
  match post with
  | [] => Ok self
  | _ => TerminalEmulator._apply_sgr post self
  end.

(** Two screens with equal grids: the same dimensions and the same cells,
    whatever their cursors, pending attributes and parser states. *)
Definition same_grid (screen1 screen2 : TerminalEmulator.t) : Prop :=
  TerminalEmulator.cols screen1 = TerminalEmulator.cols screen2 ∧
  TerminalEmulator.rows screen1 = TerminalEmulator.rows screen2 ∧
  TerminalEmulator.cells screen1 = TerminalEmulator.cells screen2.

(** A call that leaves the object as it found it. *)
Definition readonly {A} (m : Call.call A) : Prop := ∀ screen, (m screen).1 = screen.

(** A call whose outcome, a value or an exception, is the same on equal
    grids. *)
Definition grid_only {A} (m : Call.call A) : Prop :=
  ∀ screen1 screen2, same_grid screen1 screen2 → (m screen1).2 = (m screen2).2.

Definition observes_grid {A} (m : Call.call A) : Prop := readonly m ∧ grid_only m.

(** ** Drawing on a screen *)

Definition fill_rect (x y w h : Z) (ch : string) (fg bg : color) (bold : bool)
    (screen : TerminalEmulator.t) : result TerminalEmulator.t :=
  for_each (py_range y (Z.min (TerminalEmulator.rows screen) (y + h)))
    (λ yy screen,
       for_each (py_range x (Z.min (TerminalEmulator.cols screen) (x + w)))
         (λ xx screen, TerminalEmulator.write_cell yy xx (Cell.mk ch fg bg bold) screen)
         screen)
    screen.

(** One round of the loop of [draw_text], on [(i, ch)] of
    [enumerate(text)]. *)
Definition draw_text_cell (x y : Z) (fg : color) (bg : option color) (bold : bool)
    (ic : Z * ascii) (screen : TerminalEmulator.t) : result TerminalEmulator.t :=
  let '(i, ch) := ic in
  let xx := x + i in
  if decide (0 ≤ xx < TerminalEmulator.cols screen) then
    cell_bg ← match bg with
              | Some bg => Ok bg
              | None =>
                  row ← py_get (TerminalEmulator.cells screen) y;
                  c ← py_get row xx;
                  Ok (Cell.bg c)
              end;
    TerminalEmulator.write_cell y xx (Cell.mk (str1 ch) fg cell_bg bold) screen
  else Ok screen.

Definition draw_text (x y : Z) (text : string) (fg : color) (bg : option color)
    (bold : bool) (screen : TerminalEmulator.t) : result TerminalEmulator.t :=
  if decide (¬ (0 ≤ y < TerminalEmulator.rows screen)) then Ok screen
  else for_each (enumerate_from 0 (chars text)) (draw_text_cell x y fg bg bold) screen.

Definition draw_box (x y w h : Z) (fg bg : color) (title : option string)
    (screen : TerminalEmulator.t) : result TerminalEmulator.t :=
  if decide (w ≤ 1 ∨ h ≤ 1) then Ok screen
  else
    screen ← fill_rect x y w h " " fg bg false screen;
    screen ←
      for_each (py_range x (Z.min (TerminalEmulator.cols screen) (x + w)))
        (λ xx screen,
           for_each [y; Z.min (TerminalEmulator.rows screen - 1) (y + h - 1)]
             (λ yy screen,
                TerminalEmulator.write_cell yy xx
                  (Cell.mk (if decide (yy = y ∨ yy = y + h - 1) then "-" else " ")
                     fg bg false) screen)
             screen)
        screen;
    screen ←
      for_each (py_range y (Z.min (TerminalEmulator.rows screen) (y + h)))
        (λ yy screen,
           for_each [x; Z.min (TerminalEmulator.cols screen - 1) (x + w - 1)]
             (λ xx screen,
                TerminalEmulator.write_cell yy xx
                  (Cell.mk (if decide (xx = x ∨ xx = x + w - 1) then "|" else " ")
                     fg bg false) screen)
             screen)
        screen;
    screen ← TerminalEmulator.write_cell y x (Cell.mk "+" fg bg false) screen;
    screen ← TerminalEmulator.write_cell y
               (Z.min (TerminalEmulator.cols screen - 1) (x + w - 1))
               (Cell.mk "+" fg bg false) screen;
    screen ← TerminalEmulator.write_cell
               (Z.min (TerminalEmulator.rows screen - 1) (y + h - 1)) x
               (Cell.mk "+" fg bg false) screen;
    screen ← TerminalEmulator.write_cell
               (Z.min (TerminalEmulator.rows screen - 1) (y + h - 1))
               (Z.min (TerminalEmulator.cols screen - 1) (x + w - 1))
               (Cell.mk "+" fg bg false) screen;
    match title with
    | Some t =>
        if decide (t ≠ EmptyString) then
          draw_text (x + 2) y ("[ " +:+ t +:+ " ]") fg (Some bg) true screen
        else Ok screen
    | None => Ok screen
    end.

(** ** From a capture to a document *)

(** [capture_to_svg], from the bytes [data] that [run_capture] returned to
    the text that is written to [out_path]. *)
Definition capture_to_svg (data : list byte) (rows cols : Z) : result string :=
  screen ← TerminalEmulator.feed data (TerminalEmulator.__init__ cols rows);
  render_svg screen 9 16 10.

(** ** Further notions *)

(** A cell that holds one printable character. *)
Definition printable_cell (c : Cell.t) : Prop :=
  ∃ a, Cell.ch c = str1 a ∧ (0x20 ≤ code a ≤ 0x7E ∨ 0xA0 ≤ code a).

(** A state with other pending attributes. *)
Definition with_attrs (fg bg : color) (bold : bool) (self : TerminalEmulator.t)
    : TerminalEmulator.t :=
  TerminalEmulator.set_bold bold
    (TerminalEmulator.set_current_bg bg (TerminalEmulator.set_current_fg fg self)).

(** A state with another grid and cursor. *)
Definition with_text (cells : list (list Cell.t)) (x y : Z) (self : TerminalEmulator.t)
    : TerminalEmulator.t :=
  TerminalEmulator.set_cells cells
    (TerminalEmulator.set_cy y (TerminalEmulator.set_cx x self)).

(** The grid of [rows] rows of [cols] cells. *)
Definition rectangular (self : TerminalEmulator.t) : Prop :=
  length (TerminalEmulator.cells self) = Z.to_nat (TerminalEmulator.rows self) ∧
  Forall (λ row, length row = Z.to_nat (TerminalEmulator.cols self))
    (TerminalEmulator.cells self).

(** The cell at row [y], column [x]. *)
Definition cell_at (self : TerminalEmulator.t) (y x : Z) : option Cell.t :=
  if decide (0 ≤ y ∧ 0 ≤ x) then
    row ← TerminalEmulator.cells self !! Z.to_nat y; row !! Z.to_nat x
  else None.

(** The [str] of the characters of some bytes. *)
Definition str_of_bytes (bs : list byte) : string := string_of_list_ascii (chr <$> bs).

(** The bytes that the CSI state collects: those outside ['@' .. '~']. *)
Definition csi_parameter_byte (b : byte) : Prop := ¬ (0x40 ≤ ord b ≤ 0x7E).

(** The characters that delimit markup or an attribute value. *)
Definition markup_char (c : ascii) : Prop :=
  c = "<"%char ∨ c = ">"%char ∨ c = ascii_of_N 34 ∨ c = "'"%char.

Definition special_char (c : ascii) : Prop := c = "&"%char ∨ markup_char c.

(** The number that a string of hexadecimal digits stands for. *)
Definition hex_value (s : string) : option N :=
  option_map N.of_hex_uint (NilZero.uint_of_string s).

(** A colour with its three channels in [0 .. 255]. *)
Definition byte_channels (c : color) : Prop :=
  0 ≤ c.1.1 ≤ 255 ∧ 0 ≤ c.1.2 ≤ 255 ∧ 0 ≤ c.2 ≤ 255.

(** ** The text of a row, in runs *)

(** The style of a run of text: the foreground, if any, and the weight. *)
Definition style : Type := option color * bool.

(** [cell.ch if cell.ch != "\x00" else " "] *)
Definition shown_ch (cell : Cell.t) : string :=
  if decide (Cell.ch cell ≠ nul) then Cell.ch cell else " ".

(** A text of the style [st] put before some runs: it joins the first run
    when that run has the same style. *)
Definition join_run (st : style) (text : string) (runs : list (style * string))
    : list (style * string) :=
  match runs with
  | (st', text') :: runs' =>
      if decide (st' = st) then (st, text +:+ text') :: runs' else (st, text) :: runs
  | [] => [(st, text)]
  end.

(** The runs of a row: consecutive cells with the same foreground and
    weight, with the characters that they show. *)
Fixpoint style_runs (row : list Cell.t) : list (style * string) :=
  match row with
  | [] => []
  | cell :: row' =>
      join_run (Some (Cell.fg cell), Cell.bold cell) (shown_ch cell) (style_runs row')
  end.

(** The line of a run. *)
Definition tspan_line (run : style * string) : string :=
  let '((fg, bold), text) := run in
  let attrs :=
    match fg with Some fg => [attr "fill" (rgb_hex fg)] | None => [] end
    ++ (if bold : bool then [attr "font-weight" "700"] else []) in
  let attr_str :=
    match attrs with [] => EmptyString | _ => " " +:+ String.concat " " attrs end in
  "    <tspan" +:+ attr_str +:+ ">" +:+ html_escape text +:+ "</tspan>".

(** The lines of the runs that have a text. *)
Definition tspans (runs : list (style * string)) : list string :=
  tspan_line <$> filter (λ run, run.2 ≠ EmptyString) runs.

(** Runs of which each has a style other than that of the next. *)
Fixpoint alternating (runs : list (style * string)) : Prop :=
  match runs with
  | (st, _) :: rest =>
      match rest with (st', _) :: _ => st ≠ st' | [] => True end ∧ alternating rest
  | [] => True
  end.

(** The texts of some runs, or of some cells, one after another. *)
Definition joined (texts : list string) : string := foldr String.append EmptyString texts.

(** The final characters that [_handle_csi] has a branch for. *)
Definition handled_finals : list ascii :=
  ["H"; "f"; "A"; "B"; "C"; "D"; "J"; "K"; "m"; "s"; "u"]%char.

(** ** Painted grids *)

(** The grid of [s'] is that of [s] with the cell at row [r], column [q]
    replaced by [g r q] of it; nothing else differs, and the grid has kept
    its shape. *)
Definition painted (g : Z → Z → Cell.t → Cell.t) (s s' : TerminalEmulator.t) : Prop :=
  rectangular s' ∧ (∃ cells', s' = TerminalEmulator.set_cells cells' s) ∧
  ∀ r q, cell_at s' r q = g r q <$> cell_at s r q.


(** The cell that [draw_text] leaves at row [r], column [q], where the
    cell [old] was. *)
Definition drawn (x y : Z) (text : list ascii) (fg : color) (bg : option color)
    (bold : bool) (r q : Z) (old : Cell.t) : Cell.t :=
  if decide (r = y ∧ x ≤ q) then
    match text !! Z.to_nat (q - x) with
    | Some ch => Cell.mk (str1 ch) fg (default (Cell.bg old) bg) bold
    | None => old
    end
  else old.


(** The character of a box at row [r], column [q]. *)
Definition box_ch (x y w h r q : Z) : string :=
  if decide ((r = y ∨ r = y + h - 1) ∧ (q = x ∨ q = x + w - 1)) then "+"
  else if decide (r = y ∨ r = y + h - 1) then "-"
  else if decide (q = x ∨ q = x + w - 1) then "|"
  else " ".

(** The cell that a box leaves at row [r], column [q]. *)
Definition boxed (x y w h : Z) (fg bg : color) (r q : Z) (old : Cell.t) : Cell.t :=
  if decide (y ≤ r < y + h ∧ x ≤ q < x + w) then Cell.mk (box_ch x y w h r q) fg bg false
  else old.

(** The cell that the title of a box leaves. *)
Definition titled (x y : Z) (fg bg : color) (title : option string) (r q : Z)
    (old : Cell.t) : Cell.t :=
  match title with
  | Some t =>
      if decide (t ≠ EmptyString) then
        drawn (x + 2) y (chars ("[ " +:+ t +:+ " ]")) fg (Some bg) true r q old
      else old
  | None => old
  end.

(** * Properties *)


(** ** The result monad and Python's lists *)

Lemma bind_Ok {A B} (a : A) (f : A → result B) : (Ok a ≫= f) = f a.
Proof. reflexivity. Qed.


Lemma bind_Ok_inv {A B} (m : result A) (f : A → result B) (b : B) :
  m ≫= f = Ok b → ∃ a, m = Ok a ∧ f a = Ok b.
Proof. destruct m as [a|e]; [eauto | discriminate]. Qed.


(** Splits an equation [m ≫= f = Ok b] of the context. *)
Ltac inv_bind H :=
  let a := fresh "a" in
  let Ha := fresh "Ha" in
  apply bind_Ok_inv in H as (a & Ha & H).

Lemma py_norm_nonneg (len : nat) (i : Z) :
  0 ≤ i < Z.of_nat len → py_norm len i = Some (Z.to_nat i).
Proof. intros Hi. unfold py_norm. by rewrite decide_True. Qed.


Lemma py_get_Ok {A} (l : list A) (i : Z) (x : A) :
  0 ≤ i → l !! Z.to_nat i = Some x → py_get l i = Ok x.
Proof.
  intros Hi Hx. unfold py_get.
  rewrite py_norm_nonneg by (apply lookup_lt_Some in Hx; lia).
  by rewrite Hx.
Qed.


Lemma py_get_of_nat {A} (l : list A) (k : nat) :
  py_get l (Z.of_nat k) =
    match l !! k with Some x => Ok x | None => Raise IndexError end.
Proof.
  unfold py_get, py_norm. destruct (l !! k) as [x|] eqn:Hk.
  - pose proof (lookup_lt_Some _ _ _ Hk).
    rewrite decide_True by lia. by rewrite Nat2Z.id, Hk.
  - pose proof (lookup_ge_None_1 _ _ Hk).
    rewrite decide_False by lia. by rewrite decide_False by lia.
Qed.

Lemma py_set_Ok {A} (l : list A) (i : Z) (x : A) :
  0 ≤ i < Z.of_nat (length l) → py_set l i x = Ok (<[Z.to_nat i:=x]> l).
Proof. intros Hi. unfold py_set. by rewrite py_norm_nonneg. Qed.





(** ** The colour-index mapping *)

Lemma color_from_index_fixed (idx : Z) :
  0 ≤ idx < 16 →
  ∃ c, BASE_COLORS !! Z.to_nat idx = Some c ∧ color_from_index idx = Ok c.
Proof.
  intros Hidx.
  assert (Hcases : idx ∈ [0;1;2;3;4;5;6;7;8;9;10;11;12;13;14;15]).
  { apply list_elem_of_In. simpl. lia. }
  repeat (apply elem_of_cons in Hcases as [->|Hcases]; [eexists; split; reflexivity|]).
  by apply elem_of_nil in Hcases.
Qed.

Lemma color_from_index_cube (r g b : Z) :
  0 ≤ r < 6 → 0 ≤ g < 6 → 0 ≤ b < 6 →
  color_from_index (16 + 36 * r + 6 * g + b) = Ok (level r, level g, level b).
Proof.
  intros Hr Hg Hb. unfold color_from_index.
  repeat case_decide; try lia.
  repeat f_equal; Z.div_mod_to_equations; lia.
Qed.

Lemma color_from_index_gray (idx : Z) :
  232 ≤ idx ≤ 255 →
  color_from_index idx =
    Ok (8 + 10 * (idx - 232), 8 + 10 * (idx - 232), 8 + 10 * (idx - 232)).
Proof.
  intros Hidx. unfold color_from_index.
  repeat case_decide; try lia.
  repeat f_equal; lia.
Qed.

(** C7. On 0..255 the mapping has three bands: 0..15 give the entries of
    the fixed palette; 16..231 give the 6x6x6 cube, index
    [16 + 36 r + 6 g + b] having the channels [0] for level [0] and
    [55 + 40 x] for level [x > 0] (16 is black, 231 is white); 232..255
    give the gray [8 + 10 (idx - 232)] (232 is 8, 255 is 238). *)
Theorem color_from_index_bands (idx : Z) :
  0 ≤ idx ≤ 255 →
  (idx < 16 →
     ∃ c, BASE_COLORS !! Z.to_nat idx = Some c ∧ color_from_index idx = Ok c) ∧
  (16 ≤ idx < 232 →
     ∃ r g b, 0 ≤ r < 6 ∧ 0 ≤ g < 6 ∧ 0 ≤ b < 6 ∧ idx = 16 + 36 * r + 6 * g + b ∧
       color_from_index idx =
         Ok (if decide (r = 0) then 0 else 55 + 40 * r,
             if decide (g = 0) then 0 else 55 + 40 * g,
             if decide (b = 0) then 0 else 55 + 40 * b)) ∧
  (232 ≤ idx →
     color_from_index idx =
       Ok (8 + 10 * (idx - 232), 8 + 10 * (idx - 232), 8 + 10 * (idx - 232))) ∧
  color_from_index 16 = Ok (0, 0, 0) ∧
  color_from_index 231 = Ok (255, 255, 255) ∧
  color_from_index 232 = Ok (8, 8, 8) ∧
  color_from_index 255 = Ok (238, 238, 238).
Proof.
  intros Hidx. split_and!; try reflexivity.
  - intros ?. apply color_from_index_fixed. lia.
  - intros Hband.
    exists ((idx - 16) `div` 36), (((idx - 16) `div` 6) `mod` 6), ((idx - 16) `mod` 6).
    assert (idx = 16 + 36 * ((idx - 16) `div` 36) + 6 * (((idx - 16) `div` 6) `mod` 6)
                  + (idx - 16) `mod` 6) as Hdec
      by (Z.div_mod_to_equations; lia).
    split_and!; try (Z.div_mod_to_equations; lia).
    rewrite Hdec at 1.
    rewrite color_from_index_cube by (Z.div_mod_to_equations; lia).
    unfold level. repeat f_equal; repeat case_decide; lia.
  - intros ?. apply color_from_index_gray. lia.
Qed.

(** ** The parameters of a control sequence *)

Lemma append_nil_l (s : string) : EmptyString +:+ s = s.
Proof. reflexivity. Qed.

Lemma append_cons (c : ascii) (s t : string) : String c s +:+ t = String c (s +:+ t).
Proof. reflexivity. Qed.

Lemma length_append (s t : string) :
  String.length (s +:+ t) = (String.length s + String.length t)%nat.
Proof. induction s as [|c s IH]; [done|]. rewrite append_cons. cbn. by rewrite IH. Qed.

Section split.
Variable sep : ascii.

Lemma split_no_sep (f : string) : sep ∉ chars f → split sep f = [f].
Proof.
  induction f as [|c f IH]; [done|].
  cbn [chars list_ascii_of_string split]. intros Hc.
  apply not_elem_of_cons in Hc as [Hne Hc].
  rewrite decide_False by done. by rewrite (IH Hc).
Qed.

Lemma split_app_sep (f rest : string) :
  sep ∉ chars f → split sep (f +:+ String sep rest) = f :: split sep rest.
Proof.
  induction f as [|c f IH]; intros Hc.
  - rewrite append_nil_l. cbn [split]. by rewrite decide_True.
  - cbn [chars list_ascii_of_string] in Hc.
    apply not_elem_of_cons in Hc as [Hne Hc].
    rewrite append_cons. cbn [split]. rewrite decide_False by done. by rewrite (IH Hc).
Qed.

(** Joining fields that do not hold the separator and splitting again
    gives the fields back. *)
Lemma split_concat (fs : list string) :
  fs ≠ [] → Forall (λ f, sep ∉ chars f) fs →
  split sep (String.concat (str1 sep) fs) = fs.
Proof.
  induction fs as [|f fs IH]; [done|]. intros _ Hfs.
  apply Forall_cons in Hfs as [Hf Hfs].
  destruct fs as [|f' fs].
  - cbn. by apply split_no_sep.
  - change (String.concat (str1 sep) (f :: f' :: fs))
      with (f +:+ String sep (String.concat (str1 sep) (f' :: fs))).
    rewrite split_app_sep by done. f_equal. by apply IH.
Qed.
Lemma split_nonempty (s : string) : split sep s ≠ [].
Proof. destruct s as [|c s]; [done|]. cbn. case_decide; [done|]. by destruct (split sep s). Qed.

(** Every string is the join of its fields, and no field holds the
    separator. *)
Lemma concat_split (s : string) :
  String.concat (str1 sep) (split sep s) = s ∧ Forall (λ f, sep ∉ chars f) (split sep s).
Proof.
  induction s as [|c s [IH1 IH2]].
  - split; [done|]. repeat constructor. apply not_elem_of_nil.
  - pose proof (split_nonempty s) as Hne. cbn [split].
    destruct (split sep s) as [|f fs]; [done|]. case_decide as Hc.
    + subst c. split; [|constructor; [apply not_elem_of_nil|done]].
      change (String.concat (str1 sep) (EmptyString :: f :: fs))
        with (String sep (String.concat (str1 sep) (f :: fs))).
      by rewrite IH1.
    + apply Forall_cons in IH2 as [Hf Hfs]. split.
      * rewrite <- IH1. by destruct fs.
      * constructor; [|done]. cbn. by apply not_elem_of_cons.
Qed.
End split.

Lemma isdigit_all_decimal (f : string) : all_decimal f = true → isdigit f = true.
Proof.
  destruct f as [|c f]; [done|]. unfold all_decimal, isdigit.
  generalize (chars (String c f)). intros cs. rewrite !forallb_forall.
  intros Hall x Hx. unfold char_isdigit. by rewrite (Hall x Hx).
Qed.

(** What one field contributes, when [isdigit] and [int] agree on it. *)
Lemma field_conversion (f : string) :
  plain_field f → (if isdigit f then py_int f else Ok 0) = Ok (field_value f).
Proof.
  intros Hplain. unfold py_int, field_value.
  destruct (isdigit f) eqn:Hdig.
  - destruct (Hplain Hdig) as [-> Hlen]. by rewrite decide_False by lia.
  - destruct (all_decimal f) eqn:Hdec; [|done].
    by rewrite isdigit_all_decimal in Hdig.
Qed.

Lemma mapM_fields (fs : list string) :
  Forall plain_field fs →
  mapM (λ p, if isdigit p then py_int p else Ok 0) fs = Ok (field_value <$> fs).
Proof.
  induction 1 as [|f fs Hf Hfs IH]; [done|].
  cbn [mapM]. rewrite field_conversion by done. rewrite bind_Ok, IH. done.
Qed.

(** C2, as the code has it. The parameter string, less a leading [?], is
    split on [;]; the empty fields are dropped, a field of decimal digits,
    4300 of them at most, gives its value and a field that [isdigit]
    rejects gives 0. (The fields that [isdigit] accepts and [int] does not,
    with a superscript digit or with more than 4300 digits, are not
    [plain_field]s: on them the conversion raises.) *)
Theorem csi_ints_fields (params_raw : string) (fs : list string) :
  TerminalEmulator.unprefixed params_raw = String.concat ";" fs →
  Forall (λ f, (";"%char ∉ chars f) ∧ plain_field f) fs →
  TerminalEmulator.csi_ints params_raw =
    Ok (field_value <$> filter (λ f, f ≠ EmptyString) fs).
Proof.
  intros Hraw Hfs. unfold TerminalEmulator.csi_ints. rewrite Hraw.
  assert (Forall plain_field (filter (λ f, f ≠ EmptyString) fs)) as Hplain.
  { apply Forall_forall. intros f Hf. apply list_elem_of_filter in Hf as [_ Hf].
    by apply (proj1 (Forall_forall _ _) Hfs f Hf). }
  destruct (decide (fs = [])) as [->|Hne]; [done|].
  change ";"%string with (str1 ";"). rewrite split_concat; [|done|].
  - by apply mapM_fields.
  - eapply Forall_impl; [exact Hfs|]. by intros f [? _].
Qed.

Lemma csi_ints_fields_witness :
  TerminalEmulator.csi_ints ";5" = Ok [5].
Proof.
  apply (csi_ints_fields ";5" [""; "5"]%string); [reflexivity|].
  apply Forall_cons; split; [split|apply Forall_cons; split; [split|constructor]].
  - apply not_elem_of_nil.
  - intros [=].
  - intros [[=]|[]%elem_of_nil]%elem_of_cons.
  - intros _. split; [reflexivity|]. unfold int_max_str_digits. cbn. lia.
Defined.

(** C2, as stated, fails: the empty first field of [ESC [ ; 5 H] is
    dropped, so that 5 is the row parameter and the column parameter takes
    its default. *)
Lemma csi_ints_empty_field_dropped :
  TerminalEmulator.csi_ints ";5" ≠ Ok [0; 5] ∧
  TerminalEmulator.csi_ints ";5" = Ok [5] ∧
  (λ self, (TerminalEmulator.cy self, TerminalEmulator.cx self)) <$>
    TerminalEmulator.feed [x1b; x5b; x3b; x35; x48] (TerminalEmulator.__init__ 10 10)
  = Ok (4, 0).
Proof. split_and!; [by vm_compute | by vm_compute | by vm_compute]. Qed.

(** ** Failure of [feed] *)

(** C3 fails on the code: [isdigit] accepts the superscript two, [int]
    does not, and the bytes [ESC [ 0xB2 m] raise [ValueError] on a grid of
    any size. *)
Theorem feed_raises_on_superscript_digit (cols rows : Z) :
  TerminalEmulator.feed [x1b; x5b; xb2; x6d] (TerminalEmulator.__init__ cols rows)
  = Raise ValueError.
Proof. reflexivity. Qed.

(** [int] converts 4300 digits at most: a parameter of 4301 digits, which
    [isdigit] accepts, raises [ValueError] as well. *)
Lemma feed_raises_on_long_field :
  TerminalEmulator.feed ([x1b; x5b] ++ replicate 4301 x31 ++ [x6d])
    (TerminalEmulator.__init__ 80 24)
  = Raise ValueError.
Proof. vm_compute. reflexivity. Qed.

(** ** Select Graphic Rendition *)

Section sgr.
Import TerminalEmulator.

Lemma sgr_step_advances params i p self self' i' :
  sgr_step params i p self = Ok (self', i') → (i < i')%nat.
Proof.
  unfold sgr_step. intros H.
  repeat (case_decide || case_match); simplify_eq; try lia;
    repeat (inv_bind H); simplify_eq; lia.
Qed.

(** The loop does not run out of rounds: any two supplies that cover the
    rest of the list give the same result. *)
Lemma sgr_loop_fuel params fuel fuel' i self :
  (length params - i ≤ fuel)%nat → (length params - i ≤ fuel')%nat →
  sgr_loop fuel params i self = sgr_loop fuel' params i self.
Proof.
  revert fuel' i self. induction fuel as [|fuel IH]; intros fuel' i self Hf Hf'.
  - destruct fuel'; [done|]. cbn [sgr_loop].
    rewrite lookup_ge_None_2 by lia. done.
  - cbn [sgr_loop]. destruct (params !! i) as [p|] eqn:Hp.
    + pose proof (lookup_lt_Some _ _ _ Hp).
      destruct fuel' as [|fuel']; [lia|]. cbn [sgr_loop]. rewrite Hp.
      destruct (sgr_step params i p self) as [[self' i']|e] eqn:Hstep; [|done].
      rewrite !bind_Ok. apply sgr_step_advances in Hstep. apply IH; lia.
    + destruct fuel'; cbn [sgr_loop]; by rewrite ?Hp.
Qed.

Lemma apply_sgr_from params self :
  _apply_sgr params self =
    sgr_from (match params with [] => [0] | _ => params end) 0 self.
Proof. unfold _apply_sgr, sgr_from. apply sgr_loop_fuel; lia. Qed.

(** A round looks at its own index and the following ones only. *)
Lemma sgr_step_shift pre l i p self :
  sgr_step (pre ++ l) (length pre + i) p self =
    (λ '(s, j), (s, (length pre + j)%nat)) <$> sgr_step l i p self.
Proof.
  unfold sgr_step.
  assert (∀ k, (pre ++ l) !! (length pre + i + k)%nat = l !! (i + k)%nat) as Hlook.
  { intros k. rewrite lookup_app_r by lia. f_equal. lia. }
  assert (∀ k, (length pre + i + k < length (pre ++ l))%nat ↔ (i + k < length l)%nat)
    as Hlen.
  { intros k. rewrite length_app. lia. }
  repeat (destruct (decide _) as [?|?];
          [by (cbn; try (destruct (py_get _ _); cbn); rewrite ?Nat.add_assoc)|]).
  destruct (decide (p = 38 ∨ p = 48)) as [Hp|?]; [|by (cbn; rewrite ?Nat.add_assoc)].
  rewrite (decide_ext _ ((i + 1 < length l)%nat ∧ l !! (i + 1)%nat = Some 2
                         ∧ (i + 4 < length l)%nat))
    by (by rewrite Hlook, !Hlen).
  rewrite (decide_ext (_ ∧ (pre ++ l) !! _ = Some 5 ∧ _)
                      ((i + 1 < length l)%nat ∧ l !! (i + 1)%nat = Some 5
                       ∧ (i + 2 < length l)%nat))
    by (by rewrite Hlook, !Hlen).
  replace (drop (length pre + i + 2) (pre ++ l)) with (drop (i + 2) l)
    by (by rewrite <- Nat.add_assoc, drop_app_add).
  rewrite !py_get_of_nat, Hlook.
  destruct (decide _).
  { destruct (take 3 _) as [|? [|? [|? [|]]]]; cbn; by rewrite ?Nat.add_assoc. }
  destruct (decide _); [|by (cbn; rewrite ?Nat.add_assoc)].
  destruct (l !! (i + 2)%nat); cbn; [destruct (color_from_index _); cbn|];
    by rewrite ?Nat.add_assoc.
Qed.

Lemma sgr_loop_shift pre l fuel i self :
  sgr_loop fuel (pre ++ l) (length pre + i) self = sgr_loop fuel l i self.
Proof.
  revert i self. induction fuel as [|fuel IH]; intros i self; [done|].
  cbn [sgr_loop]. rewrite lookup_app_r by lia.
  replace (length pre + i - length pre)%nat with i by lia.
  destruct (l !! i) as [p|]; [|done].
  rewrite sgr_step_shift.
  destruct (sgr_step l i p self) as [[self' i']|e]; [|done].
  cbn. apply IH.
Qed.

Lemma sgr_from_shift pre l i self :
  sgr_from (pre ++ l) (length pre + i) self = sgr_from l i self.
Proof.
  unfold sgr_from. rewrite sgr_loop_shift, length_app.
  apply sgr_loop_fuel; lia.
Qed.

Lemma sgr_from_step params i p self :
  params !! i = Some p →
  sgr_from params i self =
    '(self', i') ← sgr_step params i p self; sgr_from params i' self'.
Proof.
  intros Hp. pose proof (lookup_lt_Some _ _ _ Hp). unfold sgr_from.
  destruct (length params - i)%nat as [|fuel] eqn:Hfuel; [lia|].
  cbn [sgr_loop]. rewrite Hp.
  destruct (sgr_step params i p self) as [[self' i']|e] eqn:Hstep; [|done].
  rewrite !bind_Ok. apply sgr_step_advances in Hstep.
  apply sgr_loop_fuel; lia.
Qed.

(** The round at a [38] or [48] that opens a complete form. *)
Lemma sgr_step_truecolor p r g b post self :
  p = 38 ∨ p = 48 →
  sgr_step (p :: 2 :: r :: g :: b :: post) 0 p self =
    Ok (if bool_decide (p = 38) then set_current_fg (r, g, b) self
        else set_current_bg (r, g, b) self, 5%nat).
Proof.
  intros Hp. unfold sgr_step.
  repeat (rewrite decide_False by lia). rewrite decide_True by done.
  rewrite decide_True by (cbn; split_and!; (lia || done)). done.
Qed.

Lemma sgr_step_indexed p idx post self :
  p = 38 ∨ p = 48 →
  sgr_step (p :: 5 :: idx :: post) 0 p self =
    color ← color_from_index idx;
    Ok (if bool_decide (p = 38) then set_current_fg color self
        else set_current_bg color self, 3%nat).
Proof.
  intros Hp. unfold sgr_step.
  repeat (rewrite decide_False by lia). rewrite decide_True by done.
  rewrite decide_False by (cbn; intros (_ & [=] & _)).
  rewrite decide_True by (cbn; split_and!; (lia || done)).
  by rewrite py_get_of_nat.
Qed.

Lemma sgr_from_truecolor p pre r g b post self :
  p = 38 ∨ p = 48 →
  sgr_from (pre ++ p :: 2 :: r :: g :: b :: post) (length pre) self =
    sgr_from post 0
      (if bool_decide (p = 38) then set_current_fg (r, g, b) self
       else set_current_bg (r, g, b) self).
Proof.
  intros Hp. rewrite <- (Nat.add_0_r (length pre)), sgr_from_shift.
  rewrite (sgr_from_step _ _ p) by done.
  rewrite sgr_step_truecolor, bind_Ok by done.
  apply (sgr_from_shift [p; 2; r; g; b] post 0).
Qed.

Lemma sgr_from_indexed p pre idx post self :
  p = 38 ∨ p = 48 →
  sgr_from (pre ++ p :: 5 :: idx :: post) (length pre) self =
    color ← color_from_index idx;
    sgr_from post 0
      (if bool_decide (p = 38) then set_current_fg color self
       else set_current_bg color self).
Proof.
  intros Hp. rewrite <- (Nat.add_0_r (length pre)), sgr_from_shift.
  rewrite (sgr_from_step _ _ p) by done.
  rewrite sgr_step_indexed by done.
  destruct (color_from_index idx) as [c|e]; [|done]. rewrite !bind_Ok.
  apply (sgr_from_shift [p; 5; idx] post 0).
Qed.

Lemma sgr_from_upto params k fuel : ∀ i self,
  (length params - i ≤ fuel)%nat →
  sgr_from params i self =
    '(self', j) ← sgr_upto fuel params k i self; sgr_from params j self'.
Proof.
  induction fuel as [|fuel IH]; intros i self Hfuel; cbn [sgr_upto].
  { by rewrite bind_Ok. }
  case_decide; [by rewrite bind_Ok|].
  destruct (params !! i) as [p|] eqn:Hp; [|by rewrite bind_Ok].
  rewrite (sgr_from_step _ _ p) by done.
  destruct (sgr_step params i p self) as [[self' i']|e] eqn:Hstep; [|done].
  rewrite !bind_Ok. apply sgr_step_advances in Hstep. apply IH. lia.
Qed.

Lemma apply_sgr_prefix params k self s1 j :
  sgr_prefix params k self = Ok (s1, j) →
  _apply_sgr params self =
    sgr_from (match params with [] => [0] | _ => params end) j s1.
Proof.
  unfold sgr_prefix. cbn zeta. intros H.
  rewrite apply_sgr_from.
  rewrite (sgr_from_upto _ k (length (match params with [] => [0] | _ => params end)))
    by lia.
  by rewrite H, bind_Ok.
Qed.

Lemma sgr_from_alone post self :
  sgr_from post 0 self =
    match post with [] => Ok self | _ => _apply_sgr post self end.
Proof. destruct post; [done|]. by rewrite apply_sgr_from. Qed.
End sgr.

Lemma color_from_index_total (idx : Z) : is_Ok (color_from_index idx).
Proof.
  unfold color_from_index.
  destruct (decide (idx < 0)); [by eexists|].
  destruct (decide (idx < 16)).
  - destruct (color_from_index_fixed idx) as (c & _ & Hc); [lia|].
    unfold color_from_index in Hc. rewrite decide_False, decide_True in Hc by done.
    by exists c.
  - case_decide; by eexists.
Qed.

(** C6, as the code has it. Let the parameter list of [_apply_sgr] hold a
    form [38;2;r;g;b], [48;2;r;g;b], [38;5;idx] or [48;5;idx] after the
    codes [pre] and before the codes [post], and let the iteration come
    to the first value of the form, that is, no earlier form of [pre] has
    consumed it. Then [_apply_sgr] does what the codes of [pre] do, sets
    the pending foreground (for [38]) or background (for [48]) to the
    triple [(r, g, b)] or to the colour of index [idx], and goes on with
    the codes of [post] as if they stood alone: the values [2], [r], [g],
    [b], or [5], [idx], are not read as codes. *)
Theorem sgr_extended_color (pre post : list Z) (form : color_form)
    (self self' : TerminalEmulator.t) :
  sgr_reaches (pre ++ form_params form ++ post) (length pre) self self' →
  TerminalEmulator._apply_sgr (pre ++ form_params form ++ post) self =
    c ← form_color form; sgr_codes post (set_pending form c self').
Proof.
  unfold sgr_reaches, sgr_codes. intros Hreach.
  rewrite (apply_sgr_prefix _ _ _ _ _ Hreach).
  replace (match pre ++ form_params form ++ post with [] => [0] | _ => _ end)
    with (pre ++ form_params form ++ post)
    by (by destruct pre, form).
  destruct form as [fg r g b|fg idx]; cbn [form_params form_color app].
  - rewrite bind_Ok, <- sgr_from_alone.
    rewrite sgr_from_truecolor by (destruct fg; auto). by destruct fg.
  - rewrite sgr_from_indexed by (destruct fg; auto).
    destruct (color_from_index idx) as [c|e]; [|done].
    rewrite !bind_Ok, <- sgr_from_alone. by destruct fg.
Qed.

Lemma sgr_extended_color_witness :
  let self := TerminalEmulator.__init__ 2 1 in
  let self' :=
    TerminalEmulator.set_current_fg (255, 0, 0) (TerminalEmulator.set_bold true self) in
  sgr_reaches ([1; 38; 5; 196] ++ form_params (truecolor false 1 2 3) ++ [4; 39])
    4 self self' ∧
  TerminalEmulator._apply_sgr
      ([1; 38; 5; 196] ++ form_params (truecolor false 1 2 3) ++ [4; 39]) self =
    c ← form_color (truecolor false 1 2 3);
    sgr_codes [4; 39] (set_pending (truecolor false 1 2 3) c self').
Proof.
  intros self self'.
  assert (sgr_reaches ([1; 38; 5; 196] ++ form_params (truecolor false 1 2 3) ++ [4; 39])
            (length [1; 38; 5; 196]) self self') as Hreach by reflexivity.
  split; [exact Hreach|].
  exact (sgr_extended_color [1; 38; 5; 196] [4; 39] (truecolor false 1 2 3)
           self self' Hreach).
Defined.

(** C6, as stated, fails on a list in which the values of a form are
    themselves a form. In [38;5;38;2;1;2;3] the form [38;5;38] consumes
    the [38] of [38;2;1;2;3]: the foreground becomes the colour of index
    [38], not [(1, 2, 3)], and the [1] is read as the code of bold. In
    [48;2;38;2;1;2;3;4] the form [48;2;38;2;1] consumes the [38], and the
    foreground stays as it was. *)
Lemma sgr_form_inside_a_form :
  TerminalEmulator._apply_sgr ([38; 5] ++ [38; 2; 1; 2; 3]) (TerminalEmulator.__init__ 2 1)
    = Ok (with_attrs (0, 175, 215) (10, 12, 16) true (TerminalEmulator.__init__ 2 1)) ∧
  TerminalEmulator._apply_sgr ([48; 2] ++ [38; 2; 1; 2; 3] ++ [4])
      (TerminalEmulator.__init__ 2 1)
    = Ok (with_attrs (230, 230, 230) (38, 2, 1) false (TerminalEmulator.__init__ 2 1)).
Proof. split; reflexivity. Qed.

(** ** The cursor stays on the grid *)

Section invariant.
Import TerminalEmulator.

Lemma for_each_inv {A S} (P : S → Prop) (xs : list A) (body : A → S → result S) s s' :
  (∀ x s s', x ∈ xs → P s → body x s = Ok s' → P s') →
  P s → for_each xs body s = Ok s' → P s'.
Proof.
  revert s. induction xs as [|x xs IH]; intros s Hbody Hs Hrun.
  - by injection Hrun as <-.
  - cbn [for_each] in Hrun. inv_bind Hrun.
    apply (IH a); [|by eapply Hbody; [left| |]|done].
    intros x' t t' Hx'. apply Hbody. by right.
Qed.

Lemma for_each_Ok {A S} (P : S → Prop) (xs : list A) (body : A → S → result S) s :
  (∀ x s, x ∈ xs → P s → ∃ s', body x s = Ok s' ∧ P s') →
  P s → ∃ s', for_each xs body s = Ok s' ∧ P s'.
Proof.
  revert s. induction xs as [|x xs IH]; intros s Hbody Hs.
  - by exists s.
  - destruct (Hbody x s) as (s1 & Hs1 & HP1); [by left|done|].
    cbn [for_each]. rewrite Hs1, bind_Ok. apply IH; [|done].
    intros x' t Hx'. apply Hbody. by right.
Qed.

Lemma elem_of_py_range (lo hi x : Z) : x ∈ py_range lo hi ↔ lo ≤ x < hi.
Proof.
  unfold py_range. rewrite list_elem_of_fmap. split.
  - intros (k & -> & Hk). apply elem_of_seq in Hk. lia.
  - intros Hx. exists (Z.to_nat (x - lo)). split; [lia|]. apply elem_of_seq. lia.
Qed.

Lemma wf_same_screen s s' : same_screen s s' → wf s → wf s'.
Proof.
  intros (Hc & Hr & Hcells & Hx & Hy & Hs) [].
  split; rewrite ?Hc, ?Hr, ?Hcells, ?Hx, ?Hy, ?Hs; done.
Qed.

Lemma wf_set_cx v s : wf s → 0 ≤ v ≤ cols s → wf (set_cx v s).
Proof. intros [] Hv. by split. Qed.

Lemma wf_set_cy v s : wf s → 0 ≤ v < rows s → wf (set_cy v s).
Proof. intros [] Hv. by split. Qed.

Lemma wf_set_saved x y s :
  wf s → 0 ≤ x ≤ cols s → 0 ≤ y < rows s → wf (set_saved (Some (x, y)) s).
Proof. intros [] Hx Hy. split; try done. by intros ?? [= <- <-]. Qed.

Lemma wf_set_cells v s :
  wf s → length v = length (cells s) →
  Forall (λ row, Z.of_nat (length row) = cols s) v → wf (set_cells v s).
Proof. intros [] Hlen Hv. split; try done. cbn. by rewrite Hlen. Qed.

Lemma length_repeated {A} (x : A) (n : Z) :
  0 ≤ n → Z.of_nat (length (repeated x n)) = n.
Proof. intros Hn. unfold repeated. rewrite length_replicate. lia. Qed.

Lemma wf_reset s : 1 ≤ cols s → 1 ≤ rows s → wf (reset s).
Proof.
  intros Hc Hr. split; cbn; try done; try lia.
  - apply length_repeated. lia.
  - unfold repeated at 1. apply Forall_replicate. apply length_repeated. lia.
Qed.

Lemma wf_init c r : 1 ≤ c → 1 ≤ r → wf (__init__ c r).
Proof. intros. by apply wf_reset. Qed.

Lemma scroll_1 s : _scroll 1 s = scroll_once s.
Proof.
  unfold _scroll. change (py_range 0 1) with [0]. cbn [for_each].
  by destruct (scroll_once s).
Qed.

Lemma scroll_once_wf s :
  wf s → ∃ s', scroll_once s = Ok s' ∧ wf s' ∧
               cx s' = cx s ∧ cy s' = cy s ∧ cols s' = cols s ∧ rows s' = rows s.
Proof.
  intros Hwf. pose proof Hwf as []. unfold scroll_once.
  destruct (cells s) as [|row0 rest] eqn:Hcells; [cbn in *; lia|].
  eexists. split; [done|]. split; [|done].
  apply wf_set_cells; [done| |].
  - rewrite Hcells, length_app. cbn. lia.
  - apply Forall_cons in wf_width0 as [_ Hrest].
    apply Forall_app. split; [done|].
    apply Forall_singleton. apply length_repeated. lia.
Qed.

Lemma newline_wf s :
  wf s → ∃ s', _newline s = Ok s' ∧ wf s' ∧ cx s' = 0 ∧
               cols s' = cols s ∧ rows s' = rows s.
Proof.
  intros Hwf. pose proof Hwf as []. unfold _newline. cbn.
  case_decide.
  - rewrite scroll_1.
    destruct (scroll_once_wf (set_cy (rows s - 1) (set_cy (cy s + 1) (set_cx 0 s))))
      as (s' & -> & Hwf' & Hx & _ & Hc & Hr).
    { split; cbn; try done; lia. }
    by exists s'.
  - eexists. split; [done|]. split; [|done].
    apply wf_set_cy; [|cbn; lia]. apply wf_set_cx; [done|lia].
Qed.

Lemma same_screen_refl s : same_screen s s.
Proof. by repeat split. Qed.

Lemma same_screen_trans s1 s2 s3 :
  same_screen s1 s2 → same_screen s2 s3 → same_screen s1 s3.
Proof.
  intros (?&?&?&?&?&?) (?&?&?&?&?&?). repeat split; congruence.
Qed.

(** What [self.cells[y][x] = c] does when it returns. *)
Lemma write_cell_inv y x c s s' :
  write_cell y x c s = Ok s' →
  ∃ k row j, py_norm (length (cells s)) y = Some k ∧ cells s !! k = Some row ∧
             py_norm (length row) x = Some j ∧
             s' = set_cells (<[k:=<[j:=c]> row]> (cells s)) s.
Proof.
  unfold write_cell, py_get, py_set. intros H.
  destruct (py_norm (length (cells s)) y) as [k|] eqn:Hk; [|done].
  destruct (cells s !! k) as [row|] eqn:Hrow; [|done]. rewrite bind_Ok in H.
  destruct (py_norm (length row) x) as [j|] eqn:Hj; [|done].
  rewrite !bind_Ok in H. injection H as <-. by exists k, row, j.
Qed.

Lemma write_cell_wf y x c s :
  wf s → 0 ≤ y < rows s → 0 ≤ x < cols s →
  ∃ cells', write_cell y x c s = Ok (set_cells cells' s) ∧ wf (set_cells cells' s).
Proof.
  intros Hwf Hy Hx. pose proof Hwf as [].
  destruct (lookup_lt_is_Some_2 (cells s) (Z.to_nat y)) as [row Hrow]; [lia|].
  assert (Z.of_nat (length row) = cols s) as Hlen
    by apply (proj1 (Forall_lookup _ _) wf_width0 _ _ Hrow).
  unfold write_cell.
  rewrite (py_get_Ok _ _ row), bind_Ok by (done || lia).
  rewrite py_set_Ok, bind_Ok by lia.
  rewrite py_set_Ok, bind_Ok by lia.
  eexists. split; [done|].
  apply wf_set_cells; [done| |].
  - by rewrite length_insert.
  - apply Forall_insert; [done|]. by rewrite length_insert.
Qed.

Lemma put_char_wf ch s :
  wf s → ∃ s', _put_char ch s = Ok s' ∧ wf s' ∧
               cols s' = cols s ∧ rows s' = rows s.
Proof.
  intros Hwf. unfold _put_char.
  assert (∃ s1, (if decide (cx s >= cols s) then _newline s else Ok s) = Ok s1 ∧
                wf s1 ∧ 0 ≤ cx s1 < cols s1 ∧ cols s1 = cols s ∧ rows s1 = rows s)
    as (s1 & -> & Hwf1 & Hx1 & Hc1 & Hr1).
  { case_decide.
    - destruct (newline_wf s Hwf) as (s1 & ? & Hwf1 & ? & ? & ?).
      exists s1. split_and!; try done; destruct Hwf1; lia.
    - exists s. split_and!; try done; destruct Hwf; lia. }
  rewrite bind_Ok. pose proof Hwf1 as [].
  rewrite decide_False, bind_Ok by lia.
  destruct (write_cell_wf (cy s1) (cx s1)
              (Cell.mk ch (current_fg s1) (current_bg s1) (bold s1)) s1)
    as (cells' & -> & Hwf2); [done..|].
  rewrite bind_Ok. eexists. split; [done|]. split; [|done].
  apply wf_set_cx; [done|]. cbn. lia.
Qed.

Lemma BASE_COLORS_get (i : Z) : 0 ≤ i < 16 → is_Ok (py_get BASE_COLORS i).
Proof.
  intros Hi.
  destruct (lookup_lt_is_Some_2 BASE_COLORS (Z.to_nat i)) as [c Hc]; [cbn; lia|].
  exists c. by apply py_get_Ok; [lia|].
Qed.

Lemma sgr_step_same_screen params i p s :
  ∃ s' i', sgr_step params i p s = Ok (s', i') ∧ same_screen s s'.
Proof.
  unfold sgr_step.
  repeat (destruct (decide _) as [?|?];
    [by (try (match goal with
              | |- context [py_get BASE_COLORS ?j] =>
                  destruct (BASE_COLORS_get j) as [? ->]; [lia|]
              end);
         eexists _, _; split; [done|by repeat split])|]).
  destruct (decide (p = 38 ∨ p = 48)) as [Hp|?];
    [|by (eexists _, _; split; [done|by repeat split])].
  destruct (decide _) as [(H1 & H2 & H4)|_].
  { assert (length (take 3 (drop (i + 2) params)) = 3%nat) as Hlen
      by (rewrite length_take, length_drop; lia).
    destruct (take 3 _) as [|r [|g [|b [|]]]]; try done.
    eexists _, _. split; [done|]. by case_bool_decide. }
  destruct (decide _) as [(H1 & H2 & H3)|_];
    [|by (eexists _, _; split; [done|by repeat split])].
  rewrite py_get_of_nat.
  destruct (lookup_lt_is_Some_2 params (i + 2)) as [idx ->]; [done|].
  rewrite bind_Ok. destruct (color_from_index_total idx) as [c ->].
  eexists _, _. split; [done|]. by case_bool_decide.
Qed.

Lemma sgr_loop_same_screen fuel params i s :
  ∃ s', sgr_loop fuel params i s = Ok s' ∧ same_screen s s'.
Proof.
  revert i s. induction fuel as [|fuel IH]; intros i s.
  - exists s. split; [done|apply same_screen_refl].
  - cbn [sgr_loop]. destruct (params !! i) as [p|];
      [|exists s; split; [done|apply same_screen_refl]].
    destruct (sgr_step_same_screen params i p s) as (s1 & i1 & -> & H1).
    rewrite bind_Ok. destruct (IH i1 s1) as (s2 & -> & H2).
    exists s2. split; [done|]. by eapply same_screen_trans.
Qed.

Lemma apply_sgr_same_screen params s :
  ∃ s', _apply_sgr params s = Ok s' ∧ same_screen s s'.
Proof. apply sgr_loop_same_screen. Qed.

Lemma mapM_Ok_Forall {A B} (f : A → result B) (P : B → Prop) l bs :
  (∀ a b, f a = Ok b → P b) → mapM f l = Ok bs → Forall P bs.
Proof.
  intros Hf. revert bs. induction l as [|a l IH]; intros bs H; cbn [mapM] in H.
  - injection H as <-. constructor.
  - inv_bind H. inv_bind H. injection H as <-. constructor; eauto.
Qed.

Lemma mapM_Raise {A B} (f : A → result B) (e0 : exn) l e :
  (∀ a e, f a = Raise e → e = e0) → mapM f l = Raise e → e = e0.
Proof.
  intros Hf. induction l as [|a l IH]; cbn [mapM]; [done|].
  destruct (f a) as [b|e'] eqn:Hfa.
  - rewrite bind_Ok. destruct (mapM f l); [done|]. intros [= <-]. by apply IH.
  - intros [= <-]. by eapply Hf.
Qed.

Lemma is_decimal_code c : is_decimal c = true → 0x30 ≤ code c ≤ 0x39.
Proof. unfold is_decimal. apply bool_decide_eq_true. Qed.

Lemma decimal_value_nonneg cs : forallb is_decimal cs = true → 0 ≤ decimal_value cs.
Proof.
  unfold decimal_value.
  enough (∀ acc, 0 ≤ acc → forallb is_decimal cs = true →
                 0 ≤ foldl (λ acc c, 10 * acc + (code c - 0x30)) acc cs) as H
    by (intros; apply H; [lia|done]).
  induction cs as [|c cs IH]; intros acc Hacc Hcs; [done|].
  cbn in Hcs. apply andb_prop in Hcs as [Hc Hcs]. apply is_decimal_code in Hc.
  cbn [foldl]. apply IH; [lia|done].
Qed.

Lemma py_int_Ok s z : py_int s = Ok z → 0 ≤ z.
Proof.
  unfold py_int. destruct (all_decimal s) eqn:Hs; [|done].
  case_decide; [done|]. intros [= <-].
  apply decimal_value_nonneg. by destruct s.
Qed.

Lemma py_int_Raise s e : py_int s = Raise e → e = ValueError.
Proof.
  unfold py_int. destruct (all_decimal s); [|by intros [= <-]].
  case_decide; [by intros [= <-]|done].
Qed.

Lemma csi_ints_nonneg raw ints : csi_ints raw = Ok ints → Forall (Z.le 0) ints.
Proof.
  apply mapM_Ok_Forall. intros p z.
  destruct (isdigit p); [apply py_int_Ok|]. by intros [= <-].
Qed.

Lemma csi_ints_Raise raw e : csi_ints raw = Raise e → e = ValueError.
Proof.
  apply mapM_Raise. intros p e'.
  destruct (isdigit p); [apply py_int_Raise|done].
Qed.

Lemma arg_nonneg ints k d : Forall (Z.le 0) ints → 0 ≤ d → 0 ≤ arg ints k d.
Proof.
  intros Hints Hd. unfold arg. destruct (ints !! k) as [z|] eqn:Hz; [|done].
  apply (proj1 (Forall_lookup _ _) Hints _ _ Hz).
Qed.

(** The rounds of the loop of ["K"] change the grid only. *)
Lemma erase_cell_wf s0 x s :
  0 ≤ x < cols s0 →
  wf s ∧ (∃ cells', s = set_cells cells' s0) →
  ∃ s', erase_cell x s = Ok s' ∧ wf s' ∧ ∃ cells', s' = set_cells cells' s0.
Proof.
  intros Hx [Hwf [cells0 ->]]. unfold erase_cell. pose proof Hwf as [].
  cbn in *. rewrite decide_True by lia.
  destruct (write_cell_wf (cy s0) x
              (Cell.styled (current_fg s0) (current_bg s0) (bold s0))
              (set_cells cells0 s0))
    as (cells' & H & Hwf'); [done|done|done|].
  cbn in H. rewrite H. eexists. split; [done|]. split; [done|]. by eexists.
Qed.

Lemma erase_line_wf ints s :
  wf s → ∃ s', erase_line ints s = Ok s' ∧ wf s' ∧ ∃ cells', s' = set_cells cells' s.
Proof.
  intros Hwf. pose proof Hwf as []. unfold erase_line.
  destruct (decide (_ ∨ _)) as [Hmode|_]; [|exists s; by split; [|split; [|exists (cells s); destruct s]]].
  set (range := if decide (arg ints 0 0 = 0) then (cx s, cols s)
                else if decide (arg ints 0 0 = 1) then (0, cx s + 1)
                else (0, cols s)).
  assert (0 ≤ range.1) as Hstart by (subst range; repeat case_decide; cbn; lia).
  destruct range as [start end_]. cbn in Hstart.
  apply (for_each_Ok (λ s', wf s' ∧ ∃ cells', s' = set_cells cells' s)).
  - intros x t Hx. apply elem_of_py_range in Hx. apply erase_cell_wf. lia.
  - split; [done|]. exists (cells s). by destruct s.
Qed.

Lemma handle_csi_wf final raw s :
  wf s →
  match _handle_csi final raw s with
  | Ok s' => wf s' ∧ cols s' = cols s ∧ rows s' = rows s
  | Raise e => e = ValueError
  end.
Proof.
  intros Hwf. pose proof Hwf as []. unfold _handle_csi.
  destruct (csi_ints raw) as [ints|e] eqn:Hints; [|by apply csi_ints_Raise in Hints].
  rewrite bind_Ok. apply csi_ints_nonneg in Hints.
  pose proof (arg_nonneg ints 0 1 Hints ltac:(lia)).
  pose proof (arg_nonneg ints 0 0 Hints ltac:(lia)).
  repeat (destruct (decide (final = _ ∨ final = _)) as [_|_]
          || destruct (decide (final = _)) as [_|_]).
  - split; [|done]. split; cbn; try done; lia.
  - split; [|done]. apply wf_set_cy; [done|lia].
  - split; [|done]. apply wf_set_cy; [done|lia].
  - split; [|done]. apply wf_set_cx; [done|lia].
  - split; [|done]. apply wf_set_cx; [done|lia].
  - case_decide; [|done]. split; [|done]. by apply wf_reset.
  - by destruct (erase_line_wf ints s Hwf) as (s' & -> & Hwf' & cells' & ->).
  - destruct (apply_sgr_same_screen ints s) as (s' & -> & Hsame).
    split; [by eapply wf_same_screen|]. by destruct Hsame as (-> & -> & _).
  - split; [|done]. by apply wf_set_saved.
  - destruct (saved s) as [[x y]|] eqn:Hsaved; [|done].
    destruct (wf_saved0 x y eq_refl). split; [|done].
    apply wf_set_cy; [|done]. by apply wf_set_cx.
  - done.
Qed.

Lemma feed_step_wf b next s :
  wf s →
  match feed_step b next s with
  | Ok (s', _) => wf s' ∧ cols s' = cols s ∧ rows s' = rows s
  | Raise e => e = ValueError
  end.
Proof.
  intros Hwf. pose proof Hwf as []. unfold feed_step.
  destruct (state s).
  - repeat (destruct (decide _) as [?|?]);
      try (by (cbn; split; [split; cbn; try done; lia|done])).
    + destruct (newline_wf s Hwf) as (s' & -> & ? & ? & ? & ?). by cbn.
    + cbn. split; [|done]. apply wf_set_cx; [done|].
      Z.div_mod_to_equations. lia.
    + destruct (put_char_wf (str1 (chr b)) s Hwf) as (s' & -> & ? & ? & ?). by cbn.
  - repeat case_decide; by (split; [eapply wf_same_screen; [|done]|]).
  - repeat case_decide; by (split; [eapply wf_same_screen; [|done]|]).
  - case_decide; [|by (split; [eapply wf_same_screen; [|done]|])].
    pose proof (handle_csi_wf (chr b) (csi_buf s) s Hwf) as Hcsi.
    destruct (_handle_csi _ _ _) as [s'|e]; [|done].
    cbn. destruct Hcsi as (? & ? & ?). split; [|done].
    by eapply wf_same_screen; [|done].
Qed.

Lemma wf_like_trans s1 s2 s3 : wf_like s1 s2 → wf_like s2 s3 → wf_like s1 s3.
Proof. intros (?&?&?) (?&?&?). split_and!; [done|congruence..]. Qed.

Lemma feed_wf_bounded n data s :
  (length data ≤ n)%nat → wf s →
  match feed data s with
  | Ok s' => wf_like s s'
  | Raise e => e = ValueError
  end ∧ Forall (wf_like s) (feed_trace data s).
Proof.
  revert data s. induction n as [|n IH]; intros data s Hlen Hwf.
  { destruct data; [|cbn in Hlen; lia]. cbn. by split; [split|]. }
  destruct data as [|b rest]; [cbn; by split; [split|]|].
  cbn [feed feed_trace]. cbn in Hlen.
  pose proof (feed_step_wf b (head rest) s Hwf) as Hstep.
  destruct (feed_step b (head rest) s) as [[s1 skip]|e]; [|by split].
  rewrite bind_Ok.
  assert (wf_like s s1) as Hs1 by done. destruct Hs1 as (Hwf1 & _).
  assert (∀ data', (length data' ≤ n)%nat →
            match feed data' s1 with
            | Ok s' => wf_like s s'
            | Raise e => e = ValueError
            end ∧ Forall (wf_like s) (s1 :: feed_trace data' s1)) as Hrec.
  { intros data' Hlen'. destruct (IH data' s1 Hlen' Hwf1) as [Hfeed Htrace]. split.
    - destruct (feed data' s1); [|done]. by eapply wf_like_trans.
    - constructor; [done|]. eapply Forall_impl; [exact Htrace|].
      intros s'. by apply wf_like_trans. }
  destruct rest as [|b' rest'].
  - split; [done|]. by constructor.
  - cbn in Hlen. destruct skip; apply Hrec; cbn; lia.
Qed.

Lemma feed_wf data s :
  wf s →
  match feed data s with
  | Ok s' => wf_like s s'
  | Raise e => e = ValueError
  end.
Proof. intros. by apply (feed_wf_bounded (length data)). Qed.

Lemma feed_trace_wf data s : wf s → Forall (wf_like s) (feed_trace data s).
Proof. intros. by apply (feed_wf_bounded (length data)). Qed.

End invariant.

(** ** The forms that the iteration reaches *)

Section reach.
Import TerminalEmulator.

(** A code other than 38 and 48 takes one round and one parameter. *)
Lemma sgr_step_one params i p s :
  p ≠ 38 → p ≠ 48 → ∃ s', sgr_step params i p s = Ok (s', (i + 1)%nat).
Proof.
  intros H38 H48. unfold sgr_step.
  repeat (destruct (decide _) as [?|?];
    [by (try (match goal with
              | |- context [py_get BASE_COLORS ?j] =>
                  destruct (BASE_COLORS_get j) as [? ->]; [lia|]
              end); eexists)|]).
  rewrite decide_False by (by intros [|]). by eexists.
Qed.

Lemma sgr_upto_plain rest pre : ∀ before self fuel,
  Forall (λ p, p ≠ 38 ∧ p ≠ 48) pre → (length pre ≤ fuel)%nat →
  ∃ self', sgr_upto fuel (before ++ pre ++ rest) (length before + length pre)
             (length before) self
           = Ok (self', (length before + length pre)%nat).
Proof.
  induction pre as [|p pre IH]; intros before self fuel Hpre Hfuel.
  { exists self. cbn [length]. rewrite Nat.add_0_r.
    destruct fuel; [done|]. cbn [sgr_upto]. by rewrite decide_True by lia. }
  destruct fuel as [|fuel]; [cbn in Hfuel; lia|]. cbn in Hfuel.
  apply Forall_cons in Hpre as [[H38 H48] Hpre].
  cbn [sgr_upto]. rewrite decide_False by (cbn; lia).
  rewrite lookup_app_r, Nat.sub_diag by lia. cbn [app lookup list_lookup].
  destruct (sgr_step_one (before ++ p :: pre ++ rest) (length before) p self H38 H48)
    as [s1 ->].
  rewrite bind_Ok.
  destruct (IH (before ++ [p]) s1 fuel Hpre ltac:(lia)) as [self' Hself'].
  exists self'. rewrite length_app in Hself'. cbn [length] in Hself'.
  rewrite <- app_assoc in Hself'. cbn [app] in Hself'.
  cbn [length].
  replace (length before + S (length pre))%nat
    with (length before + 1 + length pre)%nat by lia.
  exact Hself'.
Qed.

(** The iteration comes to every form that no 38 and no 48 precedes. *)
Lemma sgr_reaches_after_plain_codes pre form post self :
  Forall (λ p, p ≠ 38 ∧ p ≠ 48) pre →
  ∃ self', sgr_reaches (pre ++ form_params form ++ post) (length pre) self self'.
Proof.
  intros Hpre. unfold sgr_reaches, sgr_prefix.
  replace (match pre ++ form_params form ++ post with [] => [0] | _ => _ end)
    with (pre ++ form_params form ++ post)
    by (by destruct pre, form).
  apply (sgr_upto_plain (form_params form ++ post) pre [] self); [done|].
  rewrite length_app. lia.
Qed.
End reach.

(** ** Where [feed] returns *)

Section totality.
Import TerminalEmulator.

Lemma code_chr (b : byte) : code (chr b) = ord b.
Proof. by destruct b. Qed.

Lemma chars_append (s t : string) : chars (s +:+ t) = chars s ++ chars t.
Proof.
  unfold chars. induction s as [|c s IH]; [done|].
  rewrite append_cons. cbn. by rewrite IH.
Qed.

Lemma split_chars sep s f c : f ∈ split sep s → c ∈ chars f → c ∈ chars s.
Proof.
  revert f. induction s as [|c' s IH]; intros f Hf Hc; cbn [split] in Hf.
  - by apply list_elem_of_singleton in Hf as ->.
  - cbn. case_decide.
    + apply elem_of_cons in Hf as [->|Hf]; [by apply elem_of_nil in Hc|].
      right. by eapply IH.
    + destruct (split sep s) as [|f' fs] eqn:Hsplit.
      * apply list_elem_of_singleton in Hf as ->.
        apply list_elem_of_singleton in Hc as ->. by left.
      * apply elem_of_cons in Hf as [->|Hf].
        -- cbn in Hc. apply elem_of_cons in Hc as [->|Hc]; [by left|].
           right. apply (IH f'); [by left|done].
        -- right. apply (IH f); [by right|done].
Qed.

Lemma split_length sep s f :
  f ∈ split sep s → (String.length f ≤ String.length s)%nat.
Proof.
  revert f. induction s as [|c s IH]; intros f Hf; cbn [split] in Hf.
  - by apply list_elem_of_singleton in Hf as ->.
  - cbn [String.length]. case_decide.
    + apply elem_of_cons in Hf as [->|Hf]; [cbn; lia|]. apply IH in Hf. lia.
    + destruct (split sep s) as [|f' fs] eqn:Hsplit.
      * apply list_elem_of_singleton in Hf as ->. cbn. lia.
      * apply elem_of_cons in Hf as [->|Hf].
        -- cbn. pose proof (IH f' ltac:(by left)). lia.
        -- pose proof (IH f ltac:(by right)). lia.
Qed.

Lemma length_unprefixed raw :
  (String.length (unprefixed raw) ≤ String.length raw)%nat.
Proof.
  unfold unprefixed. destruct (startswith "?" raw); [|done].
  destruct raw; cbn; lia.
Qed.

Lemma superscript_free_field raw f :
  superscript_free raw → (String.length raw ≤ int_max_str_digits)%nat →
  f ∈ split ";" (unprefixed raw) → plain_field f.
Proof.
  intros Hraw Hlen Hf Hdigit. split.
  - assert (Forall (λ c, char_isdigit c = true → is_decimal c = true) (chars f))
      as Hplain.
    { apply Forall_forall. intros c Hc.
      apply (proj1 (Forall_forall _ _) Hraw).
      apply (split_chars _ _ _ _ Hf) in Hc. unfold unprefixed in Hc.
      destruct (startswith "?" raw); [|done].
      destruct raw; [done|]. by right. }
    destruct f as [|c0 f]; [done|]. unfold isdigit in Hdigit. unfold all_decimal.
    revert Hdigit Hplain. generalize (chars (String c0 f)). intros cs.
    induction cs as [|c cs IH]; [done|]. cbn.
    intros [Hc Hcs]%andb_prop [Hplain Hrest]%Forall_cons.
    by rewrite (Hplain Hc), IH.
  - apply split_length in Hf. pose proof (length_unprefixed raw). lia.
Qed.

Lemma csi_ints_Ok raw :
  superscript_free raw → (String.length raw ≤ int_max_str_digits)%nat →
  is_Ok (csi_ints raw).
Proof.
  intros Hraw Hlen. unfold csi_ints. rewrite mapM_fields; [by eexists|].
  apply Forall_forall. intros f [_ Hf]%list_elem_of_filter.
  by eapply superscript_free_field.
Qed.

Lemma handle_csi_Ok final raw ints s :
  wf s → csi_ints raw = Ok ints → is_Ok (_handle_csi final raw s).
Proof.
  intros Hwf Hints. unfold _handle_csi. rewrite Hints, bind_Ok.
  repeat (destruct (decide (final = _ ∨ final = _)) as [_|_]
          || destruct (decide (final = _)) as [_|_]); try by eexists.
  - case_decide; by eexists.
  - destruct (erase_line_wf ints s Hwf) as (s' & -> & _). by eexists.
  - destruct (apply_sgr_same_screen ints s) as (s' & -> & _). by eexists.
  - destruct (saved s) as [[x y]|]; by eexists.
Qed.

(** What a newline and a put-character leave alone. *)
Lemma scroll_once_state s s' : scroll_once s = Ok s' → state s' = state s.
Proof. unfold scroll_once. destruct (cells s); [done|]. by intros [= <-]. Qed.

Lemma newline_state s s' : _newline s = Ok s' → state s' = state s.
Proof.
  unfold _newline. case_decide; [|by intros [= <-]].
  rewrite scroll_1. by intros ->%scroll_once_state.
Qed.

Lemma put_char_state ch s s' : _put_char ch s = Ok s' → state s' = state s.
Proof.
  unfold _put_char. intros H. inv_bind H. inv_bind H. inv_bind H.
  injection H as <-. cbn.
  apply write_cell_inv in Ha1 as (k & row & j & _ & _ & _ & ->). cbn.
  assert (state a0 = state a) as ->.
  { destruct (decide (cy a >= rows a)); [|by injection Ha0 as <-].
    inv_bind Ha0. injection Ha0 as <-. cbn. rewrite scroll_1 in Ha1.
    by apply scroll_once_state in Ha1. }
  destruct (decide (cx s >= cols s)); [by apply newline_state|by injection Ha as <-].
Qed.

(** The invariant of the loop of [feed] on plain bytes, [k] of them still
    to come: the parameters collected so far, with what may follow, are
    within what [int] converts. *)
Lemma feed_step_plain (k : nat) b next s :
  wf s → (S k ≤ int_max_str_digits)%nat →
  (state s = csi → superscript_free (csi_buf s)
                   ∧ (String.length (csi_buf s) + S k ≤ int_max_str_digits)%nat) →
  plain_byte b →
  ∃ s' skip, feed_step b next s = Ok (s', skip) ∧
             wf s' ∧
             (state s' = csi →
              superscript_free (csi_buf s')
              ∧ (String.length (csi_buf s') + k ≤ int_max_str_digits)%nat).
Proof.
  intros Hwf Hk Hbuf Hb.
  pose proof (feed_step_wf b next s Hwf) as Hstep.
  enough (∃ s' skip, feed_step b next s = Ok (s', skip) ∧
                     (state s' = csi →
                      superscript_free (csi_buf s')
                      ∧ (String.length (csi_buf s') + k ≤ int_max_str_digits)%nat)) as
    (s' & skip & Hs' & Hbuf').
  { rewrite Hs' in Hstep. exists s', skip. by destruct Hstep as (? & _). }
  clear Hstep. unfold feed_step. destruct (state s) eqn:Hstate.
  - assert (∀ m : result t, (∀ s', m = Ok s' → state s' ≠ csi) → is_Ok m →
              ∃ s' skip, m ≫= (λ self, Ok (self, false)) = Ok (s', skip) ∧
                         (state s' = csi →
                          superscript_free (csi_buf s')
                          ∧ (String.length (csi_buf s') + k
                             ≤ int_max_str_digits)%nat)) as Hnormal.
    { intros m Hm [s' ->]. exists s', false. split; [done|].
      intros Hcsi. by destruct (Hm s' eq_refl). }
    apply Hnormal.
    + intros s'. repeat case_decide; try (by intros [= <-]; cbn; rewrite ?Hstate).
      * intros ->%newline_state. by rewrite Hstate.
      * intros ->%put_char_state. by rewrite Hstate.
    + repeat case_decide; try by eexists.
      * destruct (newline_wf s Hwf) as (s' & -> & _). by eexists.
      * destruct (put_char_wf (str1 (chr b)) s Hwf) as (s' & -> & _). by eexists.
  - repeat case_decide; eexists _, _; (split; [done|]); cbn; try done.
    intros _. split; [constructor|cbn; lia].
  - repeat case_decide; eexists _, _; (split; [done|]); cbn; try done.
    all: by rewrite Hstate.
  - destruct (Hbuf eq_refl) as [Hfree Hlen]. case_decide.
    + destruct (csi_ints_Ok (csi_buf s) Hfree ltac:(lia)) as [ints Hints].
      destruct (handle_csi_Ok (chr b) (csi_buf s) ints s Hwf Hints) as [s' ->].
      eexists _, _. split; [done|]. done.
    + eexists _, _. split; [done|]. cbn. intros _. split.
      * unfold superscript_free. rewrite chars_append. apply Forall_app.
        split; [done|]. apply Forall_singleton.
        unfold char_isdigit, is_decimal. rewrite code_chr.
        destruct Hb as (? & ? & ?).
        intros [?|Hsup%bool_decide_eq_true]%orb_prop; [done|lia].
      * rewrite length_append. cbn. lia.
Qed.

Lemma feed_plain_bounded n data s :
  (length data ≤ n)%nat →
  wf s → (length data ≤ int_max_str_digits)%nat →
  (state s = csi → superscript_free (csi_buf s)
                   ∧ (String.length (csi_buf s) + length data
                      ≤ int_max_str_digits)%nat) →
  Forall plain_byte data →
  is_Ok (feed data s).
Proof.
  revert data s. induction n as [|n IH]; intros data s Hlen Hwf Hmax Hbuf Hdata.
  { destruct data; [by eexists|cbn in Hlen; lia]. }
  destruct data as [|b rest]; [by eexists|].
  apply Forall_cons in Hdata as [Hb Hrest]. cbn in Hlen, Hmax, Hbuf. cbn [feed].
  destruct (feed_step_plain (length rest) b (head rest) s Hwf Hmax Hbuf Hb)
    as (s' & skip & -> & Hwf' & Hbuf').
  rewrite bind_Ok. destruct rest as [|b' rest']; [by eexists|].
  cbn in Hlen, Hmax, Hbuf'. destruct skip.
  - apply IH; [lia|done|lia| |by apply Forall_cons in Hrest as [_ ?]].
    intros Hcsi. destruct (Hbuf' Hcsi). split; [done|lia].
  - apply IH; [cbn; lia|done|cbn; lia|done|done].
Qed.
End totality.

(** Apart from the bytes 0xB2, 0xB3 and 0xB9, whose characters [isdigit]
    accepts and [int] rejects, [feed] returns on every input that is
    short enough to hold no field of more digits than [int] converts. *)
Lemma feed_returns_on_plain_bytes (cols rows : Z) (data : list byte) :
  1 ≤ cols → 1 ≤ rows → Forall plain_byte data →
  (length data ≤ int_max_str_digits)%nat →
  is_Ok (TerminalEmulator.feed data (TerminalEmulator.__init__ cols rows)).
Proof.
  intros Hcols Hrows Hdata Hlen.
  apply (feed_plain_bounded (length data)); [done|by apply wf_init|done|done|done].
Qed.

(** A call of [feed] on a grid with a cell raises nothing but the
    [ValueError] of [int]: no list is read or written out of its range. *)
Lemma feed_raises_only_ValueError (cols rows : Z) (data : list byte) (e : exn) :
  1 ≤ cols → 1 ≤ rows →
  TerminalEmulator.feed data (TerminalEmulator.__init__ cols rows) = Raise e →
  e = ValueError.
Proof.
  intros Hcols Hrows Hfeed.
  pose proof (feed_wf data _ (wf_init cols rows Hcols Hrows)) as H.
  by rewrite Hfeed in H.
Qed.

(** ** Scrolling *)

Section scrolling.
Import TerminalEmulator.

Lemma scroll_once_cells s row0 rest :
  cells s = row0 :: rest →
  scroll_once s =
    Ok (set_cells
          (rest ++ [replicate (Z.to_nat (cols s))
                      (Cell.mk " " (current_fg s) (current_bg s) (bold s))]) s).
Proof. intros Hcells. unfold scroll_once. by rewrite Hcells. Qed.

Lemma newline_scrolls s row0 rest :
  cells s = row0 :: rest → cy s + 1 >= rows s →
  _newline s =
    Ok (set_cells
          (rest ++ [replicate (Z.to_nat (cols s))
                      (Cell.mk " " (current_fg s) (current_bg s) (bold s))])
          (set_cy (rows s - 1) (set_cx 0 s))).
Proof.
  intros Hcells Hcy. unfold _newline. cbn.
  rewrite decide_True by done. rewrite scroll_1.
  by rewrite (scroll_once_cells _ row0 rest).
Qed.

Lemma insert_last {A} (l : list A) (x y : A) : <[length l:=y]> (l ++ [x]) = l ++ [y].
Proof. by rewrite <- (Nat.add_0_r (length l)), insert_app_r. Qed.

Lemma write_cell_last y x c s rest row :
  cells s = rest ++ [row] → y = Z.of_nat (length rest) →
  0 ≤ x < Z.of_nat (length row) →
  write_cell y x c s = Ok (set_cells (rest ++ [<[Z.to_nat x:=c]> row]) s).
Proof.
  intros Hcells -> Hx. unfold write_cell. rewrite Hcells, py_get_of_nat.
  rewrite list_lookup_middle, bind_Ok by done.
  rewrite py_set_Ok, bind_Ok by done.
  rewrite py_set_Ok, bind_Ok by (rewrite length_app; cbn; lia).
  rewrite Nat2Z.id. by rewrite insert_last.
Qed.
End scrolling.

(** C5. A scroll drops row 0, moves every other row up by one and appends
    a row of blank cells with the current foreground, background and
    emphasis. A newline on the last row does this, and so does a
    put-character that wraps on the last row or finds the cursor below the
    grid, before it writes its character on the new bottom row. *)
Theorem scroll_appends_styled_row (self : TerminalEmulator.t)
    (row0 : list Cell.t) (rest : list (list Cell.t)) (ch : string) :
  let blank_row :=
    replicate (Z.to_nat (TerminalEmulator.cols self))
      (Cell.mk " " (TerminalEmulator.current_fg self)
         (TerminalEmulator.current_bg self) (TerminalEmulator.bold self)) in
  let cell :=
    Cell.mk ch (TerminalEmulator.current_fg self)
      (TerminalEmulator.current_bg self) (TerminalEmulator.bold self) in
  TerminalEmulator.cells self = row0 :: rest →
  TerminalEmulator._scroll 1 self
    = Ok (TerminalEmulator.set_cells (rest ++ [blank_row]) self) ∧
  (TerminalEmulator.cy self + 1 >= TerminalEmulator.rows self →
   TerminalEmulator._newline self
     = Ok (TerminalEmulator.set_cells (rest ++ [blank_row])
             (TerminalEmulator.set_cy (TerminalEmulator.rows self - 1)
                (TerminalEmulator.set_cx 0 self)))) ∧
  (Z.of_nat (length (TerminalEmulator.cells self)) = TerminalEmulator.rows self →
   1 ≤ TerminalEmulator.cols self →
   TerminalEmulator.cx self >= TerminalEmulator.cols self →
   TerminalEmulator.cy self + 1 >= TerminalEmulator.rows self →
   TerminalEmulator._put_char ch self
     = Ok (TerminalEmulator.set_cx 1
             (TerminalEmulator.set_cells (rest ++ [<[0%nat:=cell]> blank_row])
                (TerminalEmulator.set_cy (TerminalEmulator.rows self - 1) self)))) ∧
  (Z.of_nat (length (TerminalEmulator.cells self)) = TerminalEmulator.rows self →
   0 ≤ TerminalEmulator.cx self < TerminalEmulator.cols self →
   TerminalEmulator.cy self >= TerminalEmulator.rows self →
   TerminalEmulator._put_char ch self
     = Ok (TerminalEmulator.set_cx (TerminalEmulator.cx self + 1)
             (TerminalEmulator.set_cells
                (rest ++ [<[Z.to_nat (TerminalEmulator.cx self):=cell]> blank_row])
                (TerminalEmulator.set_cy (TerminalEmulator.rows self - 1) self)))).
Proof.
  intros blank_row cell Hcells.
  assert (Z.of_nat (length (TerminalEmulator.cells self)) = TerminalEmulator.rows self →
          TerminalEmulator.rows self - 1 = Z.of_nat (length rest)) as Hrows.
  { rewrite Hcells. cbn. lia. }
  split_and!.
  - rewrite scroll_1. by apply (scroll_once_cells _ row0).
  - intros Hcy. by apply (newline_scrolls _ row0).
  - intros Hheight Hcols Hcx Hcy. unfold TerminalEmulator._put_char.
    rewrite decide_True by done.
    rewrite (newline_scrolls _ row0 rest), bind_Ok by done.
    cbn. rewrite decide_False, bind_Ok by lia.
    rewrite (write_cell_last _ _ _ _ rest blank_row), bind_Ok;
      [done|done|by cbn; apply Hrows|].
    subst blank_row. rewrite length_replicate. cbn. lia.
  - intros Hheight Hcx Hcy. unfold TerminalEmulator._put_char.
    rewrite decide_False, bind_Ok by lia.
    rewrite decide_True by done.
    rewrite scroll_1, (scroll_once_cells _ row0 rest), !bind_Ok by done.
    cbn. rewrite (write_cell_last _ _ _ _ rest blank_row), bind_Ok;
      [done|done|by cbn; apply Hrows|].
    subst blank_row. rewrite length_replicate. cbn. lia.
Qed.

Lemma scroll_appends_styled_row_witness :
  let self :=
    TerminalEmulator.mk 2 2
      [[Cell.mk "a" (1, 2, 3) (4, 5, 6) false; Cell.blank]; [Cell.blank; Cell.blank]]
      2 1 None (205, 49, 49) (0, 0, 0) true TerminalEmulator.normal "" false in
  TerminalEmulator._newline self
    = Ok (TerminalEmulator.set_cells
            [[Cell.blank; Cell.blank];
             [Cell.mk " " (205, 49, 49) (0, 0, 0) true;
              Cell.mk " " (205, 49, 49) (0, 0, 0) true]]
            (TerminalEmulator.set_cy 1 (TerminalEmulator.set_cx 0 self))) ∧
  TerminalEmulator._put_char "x" self
    = Ok (TerminalEmulator.set_cx 1
            (TerminalEmulator.set_cells
               [[Cell.blank; Cell.blank];
                [Cell.mk "x" (205, 49, 49) (0, 0, 0) true;
                 Cell.mk " " (205, 49, 49) (0, 0, 0) true]]
               (TerminalEmulator.set_cy 1 self))).
Proof.
  intros self.
  destruct (scroll_appends_styled_row self
              [Cell.mk "a" (1, 2, 3) (4, 5, 6) false; Cell.blank]
              [[Cell.blank; Cell.blank]] "x" eq_refl)
    as (_ & Hnewline & Hwrap & _).
  split.
  - apply Hnewline. cbn. lia.
  - apply Hwrap; cbn; lia.
Defined.

(** ** Erase in line *)

Section erase.
Import TerminalEmulator.

Lemma erased_from_refl s : erased_from s s.
Proof. exists (cells s). split; [by destruct s|done]. Qed.

Lemma py_norm_nonneg_inv len i k : 0 ≤ i → py_norm len i = Some k → k = Z.to_nat i.
Proof.
  intros Hi. unfold py_norm. case_decide; [by intros [= <-]|].
  case_decide; [lia|done].
Qed.

Lemma erase_cell_erased_from s0 x s s' :
  erased_from s0 s → erase_cell x s = Ok s' → erased_from s0 s'.
Proof.
  intros (cells1 & -> & Hlen & Hother). unfold erase_cell. cbn.
  case_decide as Hcy; [|intros [= <-]; by exists cells1].
  intros (k & row & j & Hk & Hrow & Hj & ->)%write_cell_inv. cbn in *.
  apply py_norm_nonneg_inv in Hk as ->; [|lia].
  eexists. split; [done|]. split; [by rewrite length_insert|].
  intros k Hne. rewrite list_lookup_insert_ne by lia. by apply Hother.
Qed.
End erase.

Section erase_frame.
Import TerminalEmulator.

Lemma erase_line_erased_from ints s s' :
  erase_line ints s = Ok s' → erased_from s s'.
Proof.
  unfold erase_line. case_decide; [|intros [= <-]; apply erased_from_refl].
  destruct (if decide (arg ints 0 0 = 0) then _ else _) as [start end_].
  apply for_each_inv; [|apply erased_from_refl].
  intros x t t' _. apply erase_cell_erased_from.
Qed.

Lemma handle_csi_K raw s :
  _handle_csi "K" raw s = ints ← csi_ints raw; erase_line ints s.
Proof. unfold _handle_csi. destruct (csi_ints raw); [|done]. by rewrite !bind_Ok. Qed.
End erase_frame.

(** ** The column of the cursor *)

Section cursor.
Import TerminalEmulator.

Lemma feed_after_Ok_bounded n : ∀ data s s',
  (length data ≤ n)%nat → feed data s = Ok s' → feed_after data s = s'.
Proof.
  induction n as [|n IH]; intros data s s' Hlen H.
  { destruct data; [by injection H as <-|cbn in Hlen; lia]. }
  destruct data as [|b rest]; [by injection H as <-|].
  cbn [feed feed_after] in *. cbn in Hlen.
  destruct (feed_step b (head rest) s) as [[s1 skip]|e]; [|done].
  rewrite bind_Ok in H. destruct rest as [|b' rest']; [by injection H as <-|].
  cbn in Hlen. destruct skip; apply IH; (done || cbn; lia).
Qed.

(** A call that returns leaves the object that it returns. *)
Lemma feed_after_Ok data s s' : feed data s = Ok s' → feed_after data s = s'.
Proof. by apply (feed_after_Ok_bounded (length data)). Qed.

(** On a grid with a cell a round raises in the conversion of the
    parameters only, where nothing has been assigned yet. *)
Lemma feed_step_raise_wf b next s e :
  wf s → feed_step b next s = Raise e → feed_step_after b s = s.
Proof.
  intros Hwf. unfold feed_step, feed_step_after. cbn zeta.
  destruct (state s); [|done|done|].
  - intros H. exfalso. revert H.
    repeat (destruct (decide _) as [?|?]); try done.
    + by destruct (newline_wf s Hwf) as (s' & -> & _).
    + by destruct (put_char_wf (str1 (chr b)) s Hwf) as (s' & -> & _).
  - case_decide; [|done]. unfold _handle_csi_after.
    destruct (csi_ints (csi_buf s)) as [ints|e'] eqn:Hints; [|done].
    destruct (handle_csi_Ok (chr b) (csi_buf s) ints s Hwf Hints) as [s' ->].
    done.
Qed.

Lemma feed_after_wf_bounded n : ∀ data s,
  (length data ≤ n)%nat → wf s → wf_like s (feed_after data s).
Proof.
  induction n as [|n IH]; intros data s Hlen Hwf.
  { destruct data; [by split|cbn in Hlen; lia]. }
  destruct data as [|b rest]; [by split|]. cbn [feed_after]. cbn in Hlen.
  pose proof (feed_step_wf b (head rest) s Hwf) as Hstep.
  destruct (feed_step b (head rest) s) as [[s1 skip]|e] eqn:Hs;
    [|by rewrite (feed_step_raise_wf _ _ _ _ Hwf Hs)].
  assert (wf_like s s1) as Hs1 by done. destruct Hs1 as (Hwf1 & _).
  destruct rest as [|b' rest']; [done|]. cbn in Hlen.
  destruct skip; (eapply wf_like_trans; [exact Hstep|]); apply IH; (done || cbn; lia).
Qed.

Lemma feed_after_wf data s : wf s → wf_like s (feed_after data s).
Proof. by apply (feed_after_wf_bounded (length data)). Qed.

Lemma feeds_trace_wf calls s : wf s → Forall (wf_like s) (feeds_trace calls s).
Proof.
  revert s. induction calls as [|data calls IH]; intros s Hwf; [constructor|].
  cbn [feeds_trace]. apply Forall_app. split; [by apply feed_trace_wf|].
  pose proof (feed_after_wf data s Hwf) as Hafter.
  eapply Forall_impl; [apply IH, Hafter|]. intros s''. by apply wf_like_trans.
Qed.

(** What a control sequence does to the column of the cursor. *)
Lemma handle_csi_column final raw s s' :
  wf s → _handle_csi final raw s = Ok s' →
  (cx s' = cols s →
   cx s = cols s ∨ (final = "u"%char ∧ ∃ y, saved s = Some (cols s, y))) ∧
  ((final = "H" ∨ final = "f" ∨ final = "C")%char → cx s' ≤ cols s - 1).
Proof.
  intros Hwf H. pose proof Hwf as []. unfold _handle_csi in H.
  apply bind_Ok_inv in H as (ints & Hints & H).
  apply csi_ints_nonneg in Hints.
  pose proof (arg_nonneg ints 0 1 Hints ltac:(lia)).
  destruct (decide (final = "H" ∨ final = "f")%char) as [HHf|HHf].
  { injection H as <-. cbn. split; [lia|intros _; lia]. }
  destruct (decide (final = "A"%char)) as [->|HA].
  { injection H as <-. cbn. split; [by left|by intros [|[|]]]. }
  destruct (decide (final = "B"%char)) as [->|HB].
  { injection H as <-. cbn. split; [by left|by intros [|[|]]]. }
  destruct (decide (final = "C"%char)) as [->|HC].
  { injection H as <-. cbn. split; [lia|intros _; lia]. }
  assert (¬ (final = "H" ∨ final = "f" ∨ final = "C")%char) as Hclamp by tauto.
  split; [|done]. clear Hclamp. intros Hcol.
  destruct (decide (final = "D"%char)) as [->|HD].
  { injection H as <-. cbn in Hcol. left. lia. }
  destruct (decide (final = "J"%char)) as [->|HJ].
  { destruct (decide (arg ints 0 0 = 2)); injection H as <-; cbn in Hcol;
      [lia|by left]. }
  destruct (decide (final = "K"%char)) as [->|HK].
  { apply erase_line_erased_from in H as (cells' & -> & _). by left. }
  destruct (decide (final = "m"%char)) as [->|Hm].
  { destruct (apply_sgr_same_screen ints s) as (s1 & Hs1 & _ & _ & _ & Hcx & _).
    rewrite Hs1 in H. injection H as <-. left. congruence. }
  destruct (decide (final = "s"%char)) as [->|Hs].
  { injection H as <-. by left. }
  destruct (decide (final = "u"%char)) as [->|Hu]; [|injection H as <-; by left].
  destruct (saved s) as [[x y]|] eqn:Hsaved; injection H as <-; [|by left].
  cbn in Hcol. right. split; [done|]. exists y. by rewrite Hcol.
Qed.

(** What a round of the loop of [feed] does to the column of the cursor. *)
Lemma feed_step_column b next s s' skip :
  wf s → feed_step b next s = Ok (s', skip) →
  (cx s' = cols s →
   cx s = cols s ∨ puts_character s b
   ∨ (restores_cursor s b ∧ ∃ y, saved s = Some (cols s, y))) ∧
  (clamps_column s b → cx s' ≤ cols s - 1).
Proof.
  intros Hwf H. pose proof Hwf as [].
  unfold puts_character, restores_cursor, clamps_column.
  unfold feed_step in H. cbn zeta in H. destruct (state s) eqn:Hstate.
  - apply bind_Ok_inv in H as (s1 & H1 & H). injection H as <- <-.
    destruct (decide (ord b = 0x1B)).
    { injection H1 as <-. cbn. split; [by left|]. intros [[_ ?]|[? _]]; [lia|done]. }
    destruct (decide (ord b = 0x0D)).
    { injection H1 as <-. cbn. split; [lia|intros _; lia]. }
    destruct (decide (ord b = 0x0A)).
    { destruct (newline_wf s Hwf) as (s2 & Hs2 & _ & Hcx & _).
      rewrite Hs2 in H1. injection H1 as <-. rewrite Hcx. split; [lia|intros _; lia]. }
    destruct (decide (ord b = 0x08)).
    { injection H1 as <-. cbn. split; [lia|intros _; lia]. }
    destruct (decide (ord b = 0x09)).
    { injection H1 as <-. cbn. split; [lia|intros _; lia]. }
    assert (¬ ((normal = normal ∧ (ord b = 0x0D ∨ ord b = 0x0A ∨ ord b = 0x08
                                  ∨ ord b = 0x09))
               ∨ (normal = csi ∧ (chr b = "H" ∨ chr b = "f" ∨ chr b = "C")%char)))
      as Hclamp by (intros [[_ ?]|[? _]]; [lia|done]).
    split; [|done]. clear Hclamp.
    destruct (decide (ord b = 0x07)); [injection H1 as <-; by left|].
    destruct (decide (0x20 ≤ ord b ≤ 0x7E ∨ ord b >= 0xA0));
      [by right; left|injection H1 as <-; by left].
  - split; [|by intros [[? _]|[? _]]].
    repeat case_decide; injection H as <- <-; by left.
  - split; [|by intros [[? _]|[? _]]].
    repeat case_decide; injection H as <- <-; by left.
  - destruct (decide (ch_le "@" (chr b) ∧ ch_le (chr b) "~")) as [Hfinal|Hfinal].
    + apply bind_Ok_inv in H as (s1 & H1 & H). injection H as <- <-. cbn.
      destruct (handle_csi_column _ _ _ _ Hwf H1) as [Hcol Hclamp]. split.
      * intros [?|[Hu Hsaved]]%Hcol; [by left|by right; right].
      * intros [[? _]|[_ ?]]; [done|by apply Hclamp].
    + injection H as <- <-. cbn. split; [by left|].
      intros [[? _]|[_ Hch]]; [done|]. exfalso. apply Hfinal.
      unfold ch_le. by destruct Hch as [-> | [-> | ->]].
Qed.

Lemma feed_rounds_column n : ∀ data s,
  (length data ≤ n)%nat → wf s →
  Forall (λ '(s0, b, s'),
            (cx s' = cols s →
             cx s0 = cols s ∨ puts_character s0 b
             ∨ (restores_cursor s0 b ∧ ∃ y, saved s0 = Some (cols s, y))) ∧
            (clamps_column s0 b → cx s' ≤ cols s - 1))
    (feed_rounds data s).
Proof.
  induction n as [|n IH]; intros data s Hlen Hwf.
  { destruct data; [constructor|cbn in Hlen; lia]. }
  destruct data as [|b rest]; [constructor|]. cbn [feed_rounds]. cbn in Hlen.
  pose proof (feed_step_wf b (head rest) s Hwf) as Hstep.
  destruct (feed_step b (head rest) s) as [[s1 skip]|e] eqn:Hs; [|constructor].
  destruct Hstep as (Hwf1 & Hc & Hr).
  constructor; [by apply (feed_step_column b (head rest) s s1 skip)|].
  destruct rest as [|b' rest']; [constructor|]. cbn in Hlen.
  rewrite <- Hc. destruct skip; apply IH; (done || cbn; lia).
Qed.

Lemma feeds_rounds_column calls : ∀ s,
  wf s →
  Forall (λ '(s0, b, s'),
            (cx s' = cols s →
             cx s0 = cols s ∨ puts_character s0 b
             ∨ (restores_cursor s0 b ∧ ∃ y, saved s0 = Some (cols s, y))) ∧
            (clamps_column s0 b → cx s' ≤ cols s - 1))
    (feeds_rounds calls s).
Proof.
  induction calls as [|data calls IH]; intros s Hwf; [constructor|].
  cbn [feeds_rounds]. apply Forall_app.
  split; [by apply (feed_rounds_column (length data))|].
  destruct (feed_after_wf data s Hwf) as (Hwf' & Hc & _).
  rewrite <- Hc. by apply IH.
Qed.
End cursor.

(** C1, as the code has it. On a grid with at least one row and one column,
    after every byte of every call of [feed], also of the calls that
    follow one that raised, the cursor is on a row of the grid,
    [0 ≤ cy ≤ rows - 1], and at a column of the grid or just after the last
    one, [0 ≤ cx ≤ cols]. It is just after the last column only once a
    character has been put in the last column, until the cursor next
    moves: a round leaves [cx = cols] only if it found it so, or put a
    character, or restored a cursor that was saved there; and a carriage
    return, a line feed, a backspace, a tab and the control sequences [H],
    [f] and [C] leave [cx ≤ cols - 1]. *)
Theorem cursor_within_grid (cols rows : Z) (calls : list (list byte)) :
  1 ≤ cols → 1 ≤ rows →
  Forall (λ self, 0 ≤ TerminalEmulator.cx self ≤ cols ∧
                  0 ≤ TerminalEmulator.cy self ≤ rows - 1)
    (TerminalEmulator.feeds_trace calls (TerminalEmulator.__init__ cols rows)) ∧
  Forall (λ '(self, b, self'),
            (TerminalEmulator.cx self' = cols →
             TerminalEmulator.cx self = cols ∨ puts_character self b
             ∨ (restores_cursor self b
                ∧ ∃ y, TerminalEmulator.saved self = Some (cols, y))) ∧
            (clamps_column self b → TerminalEmulator.cx self' ≤ cols - 1))
    (TerminalEmulator.feeds_rounds calls (TerminalEmulator.__init__ cols rows)).
Proof.
  intros Hcols Hrows. split.
  - eapply Forall_impl; [apply feeds_trace_wf, wf_init; done|].
    intros self ([] & Hc & Hr). cbn in Hc, Hr. lia.
  - apply (feeds_rounds_column calls (TerminalEmulator.__init__ cols rows)).
    by apply wf_init.
Qed.

Lemma cursor_within_grid_witness :
  let calls := [[x61; x62; x63]; [x1b; x5b; xb2; x6d]; [x09; x64; x1b; x5b; x39; x43]] in
  Forall (λ self, 0 ≤ TerminalEmulator.cx self ≤ 3 ∧
                  0 ≤ TerminalEmulator.cy self ≤ 2 - 1)
    (TerminalEmulator.feeds_trace calls (TerminalEmulator.__init__ 3 2)) ∧
  Forall (λ '(self, b, self'),
            (TerminalEmulator.cx self' = 3 →
             TerminalEmulator.cx self = 3 ∨ puts_character self b
             ∨ (restores_cursor self b
                ∧ ∃ y, TerminalEmulator.saved self = Some (3, y))) ∧
            (clamps_column self b → TerminalEmulator.cx self' ≤ 3 - 1))
    (TerminalEmulator.feeds_rounds calls (TerminalEmulator.__init__ 3 2)).
Proof. intros calls. apply (cursor_within_grid 3 2); lia. Defined.

(** C1, as stated, fails: after a character is put in the last column the
    cursor column is [cols]. *)
Lemma cursor_column_reaches_cols :
  ¬ Forall (λ self, 0 ≤ TerminalEmulator.cx self ≤ 3 - 1 ∧
                    0 ≤ TerminalEmulator.cy self ≤ 2 - 1)
      (TerminalEmulator.feeds_trace [[x61; x62; x63]] (TerminalEmulator.__init__ 3 2)).
Proof.
  intros H.
  pose proof (proj1 (Forall_lookup _ _) H 2%nat _ ltac:(vm_compute; reflexivity))
    as [Hcx _].
  cbn in Hcx. lia.
Qed.


(** C10. A control sequence with the final byte [K] leaves the cursor, the
    saved cursor, the pending attributes, the dimensions and every row
    other than the row of the cursor as they were; on a well-formed state
    it returns whenever its parameters are read without an exception. *)
Theorem erase_in_line_frame (params_raw : string) (self : TerminalEmulator.t) :
  (TerminalEmulator.wf self → is_Ok (TerminalEmulator.csi_ints params_raw) →
   is_Ok (TerminalEmulator._handle_csi "K" params_raw self)) ∧
  (∀ self', TerminalEmulator._handle_csi "K" params_raw self = Ok self' →
     TerminalEmulator.cx self' = TerminalEmulator.cx self ∧
     TerminalEmulator.cy self' = TerminalEmulator.cy self ∧
     TerminalEmulator.saved self' = TerminalEmulator.saved self ∧
     TerminalEmulator.current_fg self' = TerminalEmulator.current_fg self ∧
     TerminalEmulator.current_bg self' = TerminalEmulator.current_bg self ∧
     TerminalEmulator.bold self' = TerminalEmulator.bold self ∧
     TerminalEmulator.cols self' = TerminalEmulator.cols self ∧
     TerminalEmulator.rows self' = TerminalEmulator.rows self ∧
     length (TerminalEmulator.cells self') = length (TerminalEmulator.cells self) ∧
     ∀ k : nat, Z.of_nat k ≠ TerminalEmulator.cy self →
       TerminalEmulator.cells self' !! k = TerminalEmulator.cells self !! k).
Proof.
  rewrite handle_csi_K. split.
  - intros Hwf [ints ->]. rewrite bind_Ok.
    destruct (erase_line_wf ints self Hwf) as (s' & -> & _). by eexists.
  - intros self' H. inv_bind H.
    apply erase_line_erased_from in H as (cells' & -> & Hlen & Hother).
    by split_and!.
Qed.

Lemma erase_in_line_frame_witness :
  let self :=
    TerminalEmulator.mk 2 2
      [[Cell.mk "a" (1, 2, 3) (4, 5, 6) false; Cell.blank];
       [Cell.mk "b" (1, 2, 3) (4, 5, 6) false; Cell.mk "c" (1, 2, 3) (4, 5, 6) true]]
      1 1 (Some (0, 1)) (205, 49, 49) (0, 0, 0) true TerminalEmulator.csi "1" false in
  is_Ok (TerminalEmulator._handle_csi "K" "1" self) ∧
  ∀ self', TerminalEmulator._handle_csi "K" "1" self = Ok self' →
    TerminalEmulator.cells self' !! 0%nat = TerminalEmulator.cells self !! 0%nat.
Proof.
  intros self. destruct (erase_in_line_frame "1" self) as [Hok Hframe]. split.
  - apply Hok; [|by eexists].
    split; cbn; try lia; [by repeat constructor|by intros ?? [= <- <-]].
  - intros self' Hself'. by apply (Hframe self' Hself').
Defined.

(** ** Printable text on a fresh grid *)

Section printable.
Import TerminalEmulator.

Lemma feed_cons_no_skip b rest s s' :
  feed_step b (head rest) s = Ok (s', false) → feed (b :: rest) s = feed rest s'.
Proof. intros Hstep. cbn [feed]. rewrite Hstep, bind_Ok. by destruct rest. Qed.

(** The cell that put-character writes for the byte [b]. *)
Lemma put_char_on_row s n row0 others ch :
  cells s = row0 :: others → cy s = 0 → cx s = Z.of_nat n →
  (n < length row0)%nat → Z.of_nat (length row0) = cols s → 1 ≤ rows s →
  _put_char ch s =
    Ok (set_cx (Z.of_nat (S n))
          (set_cells
             (<[n:=Cell.mk ch (current_fg s) (current_bg s) (bold s)]> row0 :: others) s)).
Proof.
  intros Hcells Hcy Hcx Hn Hlen Hrows. unfold _put_char.
  rewrite decide_False, bind_Ok by lia.
  rewrite decide_False, bind_Ok by lia.
  unfold write_cell. rewrite Hcells, Hcy, Hcx.
  rewrite (py_get_Ok _ _ row0), bind_Ok by done.
  rewrite py_set_Ok, bind_Ok by lia.
  rewrite py_set_Ok, bind_Ok by (cbn; lia).
  rewrite Nat2Z.id. cbn. do 2 f_equal. lia.
Qed.

Lemma feed_printable data : ∀ s n row0 others,
  Forall (λ b, 0x20 ≤ ord b ≤ 0x7E) data →
  state s = normal → cells s = row0 :: others → cy s = 0 → cx s = Z.of_nat n →
  (n + length data ≤ length row0)%nat → Z.of_nat (length row0) = cols s →
  1 ≤ rows s →
  feed data s =
    Ok (set_cx (Z.of_nat (n + length data))
          (set_cells
             ((take n row0
               ++ ((λ b, Cell.mk (str1 (chr b)) (current_fg s) (current_bg s) (bold s))
                     <$> data)
               ++ drop (n + length data) row0) :: others) s)).
Proof.
  induction data as [|b data IH];
    intros s n row0 others Hdata Hstate Hcells Hcy Hcx Hn Hlen Hrows.
  - cbn. rewrite Nat.add_0_r, take_drop, <- Hcells, <- Hcx. by destruct s.
  - apply Forall_cons in Hdata as [Hb Hdata]. cbn [length] in Hn.
    set (c := Cell.mk (str1 (chr b)) (current_fg s) (current_bg s) (bold s)).
    rewrite (feed_cons_no_skip b data s
               (set_cx (Z.of_nat (S n)) (set_cells (<[n:=c]> row0 :: others) s))).
    2: { unfold feed_step. rewrite Hstate.
         repeat (rewrite decide_False by lia). rewrite decide_True by lia.
         rewrite (put_char_on_row s n row0 others) by (done || lia).
         by rewrite bind_Ok. }
    rewrite (IH _ (S n) (<[n:=c]> row0) others)
      by (cbn; rewrite ?length_insert; (done || lia)).
    cbn [Nat.add].
    rewrite (take_S_r _ _ c) by (apply list_lookup_insert_eq; lia).
    rewrite take_insert_ge by lia. rewrite drop_insert_lt by lia.
    rewrite <- app_assoc. cbn [app fmap list_fmap].
    cbn [length].
    by replace (n + S (length data))%nat with (S (n + length data)) by lia.
Qed.
End printable.

(** C4. Printable ASCII bytes, no more than there are columns, fed into a
    fresh grid with a row: row 0 holds these characters in order from
    column 0 on, with the default attributes, the rest of row 0 and the
    other rows are blank as before. *)
Theorem printable_text_on_row_0 (cols rows : Z) (data : list byte) :
  1 ≤ rows → Z.of_nat (length data) ≤ cols →
  Forall (λ b, 0x20 ≤ ord b ≤ 0x7E) data →
  ∃ self',
    TerminalEmulator.feed data (TerminalEmulator.__init__ cols rows) = Ok self' ∧
    TerminalEmulator.cells self' !! 0%nat =
      Some (((λ b, Cell.mk (str1 (chr b)) (230, 230, 230) (10, 12, 16) false) <$> data)
            ++ replicate (Z.to_nat cols - length data) Cell.blank) ∧
    (∀ k : nat, k ≠ 0%nat →
       TerminalEmulator.cells self' !! k =
         TerminalEmulator.cells (TerminalEmulator.__init__ cols rows) !! k) ∧
    TerminalEmulator.cx self' = Z.of_nat (length data) ∧
    TerminalEmulator.cy self' = 0.
Proof.
  intros Hrows Hlen Hdata.
  set (row0 := replicate (Z.to_nat cols) Cell.blank).
  assert (TerminalEmulator.cells (TerminalEmulator.__init__ cols rows)
          = row0 :: replicate (Z.to_nat rows - 1) row0) as Hcells.
  { cbn. unfold TerminalEmulator.repeated.
    by replace (Z.to_nat rows) with (S (Z.to_nat rows - 1)) at 1 by lia. }
  eexists. split.
  { apply (feed_printable data (TerminalEmulator.__init__ cols rows) 0%nat row0 _
             Hdata eq_refl Hcells eq_refl eq_refl).
    - subst row0. rewrite length_replicate. lia.
    - subst row0. rewrite length_replicate. cbn. lia.
    - done. }
  split_and!; try done.
  - cbn. rewrite take_0. subst row0. by rewrite drop_replicate.
  - intros [|k] Hk; [done|]. by rewrite Hcells.
Qed.

Lemma printable_text_on_row_0_witness :
  ∃ self',
    TerminalEmulator.feed [x68; x69; x21] (TerminalEmulator.__init__ 4 2) = Ok self' ∧
    TerminalEmulator.cells self' !! 0%nat =
      Some [Cell.mk "h" (230, 230, 230) (10, 12, 16) false;
            Cell.mk "i" (230, 230, 230) (10, 12, 16) false;
            Cell.mk "!" (230, 230, 230) (10, 12, 16) false;
            Cell.blank].
Proof.
  destruct (printable_text_on_row_0 4 2 [x68; x69; x21]) as (self' & Hfeed & Hrow & _).
  - lia.
  - cbn. lia.
  - repeat constructor; cbn; lia.
  - exists self'. by split.
Defined.

Lemma color_from_index_bands_witness : color_from_index 240 = Ok (88, 88, 88).
Proof.
  destruct (color_from_index_bands 240) as (_ & _ & Hgray & _); [lia|].
  apply Hgray. lia.
Defined.

(** ** The renderer *)

Section render_facts.
Variables cell_w cell_h padding : Z.

Lemma wf_renderable screen : TerminalEmulator.wf screen → renderable screen.
Proof.
  intros []. split; [done|]. eapply Forall_impl; [done|].
  intros row Hrow. cbn in *. by rewrite Hrow.
Qed.

(** The inner loop stops at the end of the run that starts at [x]. *)
Lemma scan_run_spec screen row bg fuel (x : nat) :
  TerminalEmulator.cols screen ≤ Z.of_nat (length row) →
  Z.of_nat x ≤ TerminalEmulator.cols screen →
  (Z.to_nat (TerminalEmulator.cols screen) - x ≤ fuel)%nat →
  scan_run screen fuel row bg (Z.of_nat x) =
    Ok (Z.of_nat (x + run_length bg
                        (take (Z.to_nat (TerminalEmulator.cols screen) - x) (drop x row)))).
Proof.
  intros Hlen. revert x. induction fuel as [|fuel IH]; intros x Hx Hfuel.
  - cbn. replace (Z.to_nat (TerminalEmulator.cols screen) - x)%nat with 0%nat by lia.
    rewrite take_0. cbn. do 2 f_equal. lia.
  - cbn [scan_run]. case_decide as Hlt.
    + destruct (lookup_lt_is_Some_2 row x) as [c Hc]; [lia|].
      rewrite py_get_of_nat, Hc, bind_Ok.
      rewrite (drop_S _ c) by done.
      replace (Z.to_nat (TerminalEmulator.cols screen) - x)%nat
        with (S (Z.to_nat (TerminalEmulator.cols screen) - S x)) by lia.
      cbn [take run_length]. case_decide; [|do 2 f_equal; lia].
      replace (Z.of_nat x + 1) with (Z.of_nat (S x)) by lia.
      rewrite IH by lia. do 2 f_equal. lia.
    + replace (Z.to_nat (TerminalEmulator.cols screen) - x)%nat with 0%nat by lia.
      rewrite take_0. cbn. do 2 f_equal. lia.
Qed.

Lemma run_length_le bg l : (run_length bg l ≤ length l)%nat.
Proof. induction l as [|c l IH]; cbn; [done|]. case_decide; lia. Qed.

Lemma bg_runs_cons start c row :
  bg_runs start (c :: row) =
    match bg_runs (S start) row with
    | (_, e, bg) :: runs =>
        if decide (bg = Cell.bg c) then (start, e, bg) :: runs
        else (start, S start, Cell.bg c) :: bg_runs (S start) row
    | [] => [(start, S start, Cell.bg c)]
    end.
Proof. reflexivity. Qed.

(** The runs of a row, read from the left: the first run and the runs
    of the rest. *)
Lemma bg_runs_forward l : ∀ c start,
  bg_runs start (c :: l) =
    (start, (S start + run_length (Cell.bg c) l)%nat, Cell.bg c)
    :: bg_runs (S start + run_length (Cell.bg c) l) (drop (run_length (Cell.bg c) l) l).
Proof.
  induction l as [|c' l IH]; intros c start.
  - cbn. by rewrite Nat.add_0_r.
  - rewrite (bg_runs_cons start c (c' :: l)), (IH c' (S start)).
    cbn [run_length].
    destruct (decide (Cell.bg c' = Cell.bg c)) as [Heq|Hne].
    + rewrite Heq. cbn [drop]. by rewrite Nat.add_succ_r.
    + cbn [drop]. by rewrite Nat.add_0_r, (IH c' (S start)).
Qed.

(** [bg_runs] gives the maximal runs of the row: they follow one another,
    differ from their neighbours, and stand for the backgrounds of the
    row. *)
Lemma bg_runs_chained row : ∀ start, chained start (bg_runs start row).
Proof.
  induction row as [|c row IH]; intros start; [done|].
  rewrite bg_runs_cons. specialize (IH (S start)).
  destruct (bg_runs (S start) row) as [|[[s' e'] bg'] runs]; [cbn; split_and!; (done || lia)|].
  destruct IH as (-> & Hlt & Hnext & Hrest).
  case_decide as Hbg.
  - cbn. split_and!; (done || lia).
  - cbn. split_and!; (done || lia).
Qed.

Lemma bg_runs_expand row : ∀ start, expand_runs (bg_runs start row) = Cell.bg <$> row.
Proof.
  induction row as [|c row IH]; intros start; [done|].
  rewrite bg_runs_cons. specialize (IH (S start)).
  pose proof (bg_runs_chained row (S start)) as Hchain.
  destruct (bg_runs (S start) row) as [|[[s' e'] bg'] runs].
  - symmetry in IH. apply fmap_nil_inv in IH as ->.
    unfold expand_runs. cbn [fmap list_fmap].
    by replace (S start - start)%nat with 1%nat by lia.
  - destruct Hchain as (-> & Hlt & _). unfold expand_runs in *.
    cbn [fmap list_fmap mjoin list_join] in *. rewrite <- IH.
    case_decide as Hbg; cbn [fmap list_fmap mjoin list_join].
    + rewrite <- Hbg. by replace (e' - start)%nat with (S (e' - S start)) by lia.
    + by replace (S start - start)%nat with 1%nat by lia.
Qed.

(** A run has the background of a cell of the row. *)
Lemma bg_runs_bg start row s e bg :
  (s, e, bg) ∈ bg_runs start row → ∃ c, c ∈ row ∧ Cell.bg c = bg.
Proof.
  revert start s e bg. induction row as [|c row IH]; intros start s e bg Hin.
  - by apply elem_of_nil in Hin.
  - cbn [bg_runs] in Hin.
    destruct (bg_runs (S start) row) as [|[[s' e'] bg'] runs] eqn:Hruns.
    + apply list_elem_of_singleton in Hin as [= -> -> ->]. exists c. by split; [left|].
    + assert (∀ r, r ∈ (s', e', bg') :: runs → ∃ c', c' ∈ c :: row ∧ Cell.bg c' = r.2)
        as Htail.
      { intros [[s1 e1] bg1] Hr. rewrite <- Hruns in Hr.
        destruct (IH _ _ _ _ Hr) as (c' & ? & ?). exists c'. by split; [right|]. }
      case_decide as Hbg.
      * apply elem_of_cons in Hin as [[= -> -> ->]|Hin].
        -- exists c. by split; [left|].
        -- apply (Htail (s, e, bg)). by right.
      * apply elem_of_cons in Hin as [[= -> -> ->]|Hin].
        -- exists c. by split; [left|].
        -- by apply (Htail (s, e, bg)).
Qed.

(** The loop over a row emits the rectangles of the runs that differ from
    the base colour: the source against [bg_runs]. *)
Lemma span_loop_spec screen bg0 y row fuel (x : nat) :
  let cols := Z.to_nat (TerminalEmulator.cols screen) in
  TerminalEmulator.cols screen ≤ Z.of_nat (length row) →
  Z.of_nat x ≤ TerminalEmulator.cols screen →
  (cols - x ≤ fuel)%nat →
  span_loop screen cell_w cell_h padding fuel bg0 y row (Z.of_nat x) =
    Ok ((λ '(s, e, bg),
           span_line cell_w cell_h padding y (Z.of_nat s) (Z.of_nat e) bg)
          <$> filter (λ r, r.2 ≠ bg0) (bg_runs x (take (cols - x) (drop x row)))).
Proof.
  intros cols Hlen. revert x. induction fuel as [|fuel IH]; intros x Hx Hfuel.
  - replace (cols - x)%nat with 0%nat by lia. by rewrite take_0.
  - cbn [span_loop]. case_decide as Hlt.
    + destruct (lookup_lt_is_Some_2 row x) as [c Hc]; [lia|].
      rewrite py_get_of_nat, Hc, bind_Ok.
      rewrite scan_run_spec by lia. rewrite bind_Ok. fold cols.
      rewrite (drop_S _ c) by done.
      replace (cols - x)%nat with (S (cols - S x)) by lia.
      cbn [take run_length]. rewrite decide_True by done.
      set (L := take (cols - S x) (drop (S x) row)).
      set (k := run_length (Cell.bg c) L).
      assert (k ≤ cols - S x)%nat as Hk.
      { subst k. etransitivity; [apply run_length_le|].
        subst L. rewrite length_take. lia. }
      rewrite IH by lia. rewrite bind_Ok.
      rewrite bg_runs_forward. fold k.
      replace (x + S k)%nat with (S x + k)%nat by lia.
      replace (drop k L) with (take (cols - (S x + k)) (drop (S x + k) row)).
      2: { subst L. rewrite !take_drop_commute, drop_drop. do 2 f_equal. lia. }
      rewrite filter_cons. cbn [snd].
      by destruct (decide (Cell.bg c ≠ bg0)).
    + replace (cols - x)%nat with 0%nat by lia. by rewrite take_0.
Qed.

Lemma mapM_Ok_fmap {A B} (f : A → result B) (g : A → B) (l : list A) :
  (∀ a, a ∈ l → f a = Ok (g a)) → mapM f l = Ok (g <$> l).
Proof.
  induction l as [|a l IH]; intros Hf; [done|].
  cbn [mapM]. rewrite Hf, bind_Ok by left.
  rewrite IH, bind_Ok; [done|]. intros a' Ha'. apply Hf. by right.
Qed.

Lemma elem_of_enumerate_from {A} (l : list A) y0 y a :
  (y, a) ∈ enumerate_from y0 l → a ∈ l.
Proof.
  revert y0. induction l as [|a' l IH]; intros y0 Hin; cbn in Hin.
  - by apply elem_of_nil in Hin.
  - apply elem_of_cons in Hin as [[= _ ->]|Hin]; [left|right; eauto].
Qed.

Lemma span_lines_spec screen bg0 :
  renderable screen →
  span_lines screen cell_w cell_h padding bg0 =
    Ok (concat ((λ '(y, row),
                   row_rects cell_w cell_h padding (TerminalEmulator.cols screen) bg0 y row)
                  <$> enumerate_from 0 (TerminalEmulator.cells screen))).
Proof.
  intros [Hcols Hrows]. unfold span_lines.
  erewrite mapM_Ok_fmap; [done|].
  intros [y row] Hin. apply elem_of_enumerate_from in Hin.
  pose proof (proj1 (Forall_forall _ _) Hrows row Hin) as Hrow. cbn in Hrow.
  rewrite (span_loop_spec screen bg0 y row _ 0) by (done || lia).
  unfold row_rects. by rewrite Nat.sub_0_r, drop_0.
Qed.

Lemma canvas_bg_spec screen :
  renderable screen →
  ∃ bg0, canvas_bg screen = Ok bg0 ∧
    ∀ row0 c, TerminalEmulator.cells screen !! 0%nat = Some row0 →
              row0 !! 0%nat = Some c → bg0 = Cell.bg c.
Proof.
  intros [Hcols Hrows]. unfold canvas_bg.
  destruct (TerminalEmulator.cells screen) as [|row0 rest] eqn:Hcells.
  - exists (0, 0, 0). by split.
  - apply Forall_cons in Hrows as [Hrow0 _].
    destruct row0 as [|c row0]; [cbn in Hrow0; lia|].
    exists (Cell.bg c). split; [done|]. by intros ?? [= <-] [= <-].
Qed.

(** No line of the text blocks is a rectangle. *)
Lemma flush_not_rect st :
  Forall (λ line, is_rect line = false) (emitted (flush st)) ↔
  Forall (λ line, is_rect line = false) (emitted st).
Proof.
  unfold flush. case_decide; [done|]. cbn. rewrite Forall_app, Forall_singleton.
  split; [by intros [? _]|]. intros ?. by split.
Qed.

Lemma text_cell_not_rect st cell :
  Forall (λ line, is_rect line = false) (emitted st) →
  Forall (λ line, is_rect line = false) (emitted (text_cell st cell)).
Proof.
  intros Hst. unfold text_cell. case_decide; cbn; [|done]. by apply flush_not_rect.
Qed.

Lemma foldl_text_cell_not_rect row st :
  Forall (λ line, is_rect line = false) (emitted st) →
  Forall (λ line, is_rect line = false) (emitted (foldl text_cell st row)).
Proof.
  revert st. induction row as [|cell row IH]; intros st Hst; [done|].
  cbn [foldl]. by apply IH, text_cell_not_rect.
Qed.

Lemma text_lines_row_not_rect y row :
  Forall (λ line, is_rect line = false) (text_lines_row cell_h padding y row).
Proof.
  unfold text_lines_row. apply Forall_app. split; [|by repeat constructor].
  apply flush_not_rect, foldl_text_cell_not_rect. by repeat constructor.
Qed.

Lemma text_lines_not_rect screen :
  Forall (λ line, is_rect line = false) (text_lines screen cell_h padding).
Proof.
  unfold text_lines. apply Forall_concat, Forall_fmap, Forall_forall.
  intros [y row] _. apply text_lines_row_not_rect.
Qed.

Lemma filter_none {A} (P : A → Prop) `{!∀ x, Decision (P x)} (l : list A) :
  Forall (λ x, ¬ P x) l → filter P l = [].
Proof.
  induction 1 as [|x l Hx _ IH]; [done|]. by rewrite filter_cons_False.
Qed.

Lemma filter_all {A} (P : A → Prop) `{!∀ x, Decision (P x)} (l : list A) :
  Forall P l → filter P l = l.
Proof.
  induction 1 as [|x l Hx _ IH]; [done|]. by rewrite filter_cons_True, IH.
Qed.

Lemma filter_rect_none (lines : list string) :
  Forall (λ line, is_rect line = false) lines →
  filter (λ line, is_rect line = true) lines = [].
Proof.
  intros Hlines. apply filter_none. eapply Forall_impl; [done|].
  intros line. cbn. congruence.
Qed.

Lemma row_rects_rect cols bg0 y row :
  Forall (λ line, is_rect line = true) (row_rects cell_w cell_h padding cols bg0 y row).
Proof. unfold row_rects. apply Forall_fmap, Forall_forall. by intros [[s e] bg] _. Qed.

(** On a row of one background that is the base colour no run differs
    from it. *)
Lemma row_rects_uniform cols bg0 y row :
  Forall (λ c, Cell.bg c = bg0) row →
  row_rects cell_w cell_h padding cols bg0 y row = [].
Proof.
  intros Hrow. unfold row_rects. rewrite filter_none; [done|].
  apply Forall_forall. intros [[s e] bg] Hin Hne. cbn in Hne.
  destruct (bg_runs_bg _ _ _ _ _ Hin) as (c & Hc & Hbg).
  apply subseteq_take in Hc.
  apply Hne. rewrite <- Hbg. by apply (proj1 (Forall_forall _ _) Hrow).
Qed.

Lemma render_lines_rects screen bg0 :
  renderable screen → canvas_bg screen = Ok bg0 →
  ∃ lines,
    render_lines screen cell_w cell_h padding = Ok lines ∧
    filter (λ line, is_rect line = true) lines =
      base_rect screen cell_w cell_h padding bg0
      :: concat ((λ '(y, row),
                    row_rects cell_w cell_h padding (TerminalEmulator.cols screen) bg0 y row)
                   <$> enumerate_from 0 (TerminalEmulator.cells screen)).
Proof.
  intros Hscreen Hbg0. unfold render_lines.
  rewrite Hbg0, bind_Ok, span_lines_spec, bind_Ok by done.
  eexists. split; [done|].
  rewrite !filter_app.
  rewrite (filter_rect_none (text_lines _ _ _)) by apply text_lines_not_rect.
  rewrite (filter_all _ (concat _)).
  - unfold header_lines. rewrite !filter_cons.
    rewrite decide_False, decide_False, decide_True by done.
    by rewrite !app_nil_r.
  - apply Forall_concat, Forall_fmap, Forall_forall.
    intros [y row] _. apply row_rects_rect.
Qed.
End render_facts.

(** C8. The rectangles of the rendered document are the base canvas fill,
    in the background of the top-left cell, followed, row by row, by one
    rectangle for each run of consecutive cells with the same background
    whose background differs from that of the top-left cell, and no
    others; when all cells have one background the base fill is the only
    rectangle. *)
Theorem background_rectangles (screen : TerminalEmulator.t) (cell_w cell_h padding : Z) :
  renderable screen →
  ∃ bg0 lines,
    canvas_bg screen = Ok bg0 ∧
    (∀ row0 c, TerminalEmulator.cells screen !! 0%nat = Some row0 →
               row0 !! 0%nat = Some c → bg0 = Cell.bg c) ∧
    render_lines screen cell_w cell_h padding = Ok lines ∧
    filter (λ line, is_rect line = true) lines =
      base_rect screen cell_w cell_h padding bg0
      :: concat ((λ '(y, row),
                    row_rects cell_w cell_h padding (TerminalEmulator.cols screen) bg0 y row)
                   <$> enumerate_from 0 (TerminalEmulator.cells screen)) ∧
    (∀ bg, Forall (Forall (λ c, Cell.bg c = bg)) (TerminalEmulator.cells screen) →
       filter (λ line, is_rect line = true) lines
         = [base_rect screen cell_w cell_h padding bg0] ∧
       (TerminalEmulator.cells screen ≠ [] → bg0 = bg)).
Proof.
  intros Hscreen.
  destruct (canvas_bg_spec screen Hscreen) as (bg0 & Hbg0 & Htop).
  destruct (render_lines_rects cell_w cell_h padding screen bg0 Hscreen Hbg0)
    as (lines & Hlines & Hrects).
  exists bg0, lines. split_and!; try done.
  intros bg Huniform.
  assert (TerminalEmulator.cells screen ≠ [] → bg0 = bg) as Hbg.
  { destruct Hscreen as [Hcols Hrows].
    destruct (TerminalEmulator.cells screen) as [|row0 rest] eqn:Hcells; [done|].
    intros _. apply Forall_cons in Hrows as [Hrow0 _].
    destruct row0 as [|c row0]; [cbn in Hrow0; lia|].
    rewrite (Htop (c :: row0) c eq_refl eq_refl).
    apply Forall_cons in Huniform as [Hrow _]. by apply Forall_cons in Hrow as [? _]. }
  split; [|done]. rewrite Hrects. f_equal.
  destruct (TerminalEmulator.cells screen) as [|row0 rest] eqn:Hcells; [done|].
  rewrite <- Hcells in *. specialize (Hbg ltac:(by rewrite Hcells)). subst bg.
  apply concat_nil_Forall, Forall_fmap, Forall_forall.
  intros [y row] Hin. apply elem_of_enumerate_from in Hin. cbn.
  apply row_rects_uniform. by apply (proj1 (Forall_forall _ _) Huniform).
Qed.

Lemma background_rectangles_witness :
  ∃ lines,
    render_lines (TerminalEmulator.__init__ 3 2) 9 16 10 = Ok lines ∧
    length (filter (λ line, is_rect line = true) lines) = 1%nat.
Proof.
  destruct (background_rectangles (TerminalEmulator.__init__ 3 2) 9 16 10)
    as (bg0 & lines & _ & _ & Hlines & _ & Huniform).
  - apply wf_renderable, wf_init; lia.
  - exists lines. split; [done|].
    destruct (Huniform (10, 12, 16)) as [-> _]; [|done].
    repeat constructor.
Defined.

(** ** The renderer and the screen object *)

Section observers.
Import Call.

(** What is built from reads of the dimensions and of the cells, from
    computations on values and from sequencing, leaves the object as it
    was and has the same outcome on equal grids. *)
Lemma observes_ret {A} (a : A) : observes_grid (mret a : call A).
Proof. by split. Qed.

Lemma observes_value {A} (r : result A) : observes_grid (value r).
Proof. by split. Qed.

Lemma observes_bind {A B} (m : call A) (k : A → call B) :
  observes_grid m → (∀ a, observes_grid (k a)) → observes_grid (m ≫= k).
Proof.
  intros [Hm1 Hm2] Hk. split.
  - intros s. unfold mbind, call_bind. specialize (Hm1 s).
    destruct (m s) as [s' [a|e]]; cbn in Hm1; subst s'; [|done]. apply Hk.
  - intros s1 s2 Hs. unfold mbind, call_bind.
    pose proof (Hm1 s1) as H1. pose proof (Hm1 s2) as H2. specialize (Hm2 s1 s2 Hs).
    destruct (m s1) as [s1' [a1|e1]], (m s2) as [s2' [a2|e2]];
      cbn in H1, H2, Hm2; subst; try done.
    + injection Hm2 as <-. by apply Hk.
    + by injection Hm2 as <-.
Qed.

Lemma observes_cols : observes_grid (attribute TerminalEmulator.cols).
Proof. split; [done|]. intros s1 s2 (Hc & _ & _). cbn. by rewrite Hc. Qed.

Lemma observes_rows : observes_grid (attribute TerminalEmulator.rows).
Proof. split; [done|]. intros s1 s2 (_ & Hr & _). cbn. by rewrite Hr. Qed.

Lemma observes_cells : observes_grid (attribute TerminalEmulator.cells).
Proof. split; [done|]. intros s1 s2 (_ & _ & Hc). cbn. by rewrite Hc. Qed.

Create HintDb observers.
#[local] Hint Resolve observes_ret observes_value observes_cols observes_rows
  observes_cells : observers.

Local Ltac observe :=
  repeat first
    [ progress eauto with observers
    | apply observes_bind; [|intros ?]
    | case_decide
    | case_match ].

Lemma observes_row_of y : observes_grid (row_of y).
Proof. unfold row_of. observe. Qed.
#[local] Hint Resolve observes_row_of : observers.

Lemma observes_row_item y x : observes_grid (row_item y x).
Proof. unfold row_item. observe. Qed.
#[local] Hint Resolve observes_row_item : observers.

Lemma observes_canvas_bg : observes_grid canvas_bg.
Proof. unfold canvas_bg. observe. Qed.

Lemma observes_scan_run fuel y bg x : observes_grid (scan_run fuel y bg x).
Proof. revert x. induction fuel as [|fuel IH]; intros x; cbn [scan_run]; observe. Qed.
#[local] Hint Resolve observes_canvas_bg observes_scan_run : observers.

Lemma observes_span_loop cw ch pad fuel bg0 y x :
  observes_grid (span_loop cw ch pad fuel bg0 y x).
Proof. revert x. induction fuel as [|fuel IH]; intros x; cbn [span_loop]; observe. Qed.
#[local] Hint Resolve observes_span_loop : observers.

Lemma observes_for_rows fuel y body :
  (∀ y, observes_grid (body y)) → observes_grid (for_rows fuel y body).
Proof.
  intros Hbody. revert y. induction fuel as [|fuel IH]; intros y; cbn [for_rows]; observe.
Qed.

Lemma observes_text_cells fuel y x st : observes_grid (text_cells fuel y x st).
Proof.
  revert x st. induction fuel as [|fuel IH]; intros x st; cbn [text_cells]; observe.
Qed.
#[local] Hint Resolve observes_text_cells : observers.

Lemma observes_text_lines_row ch pad y : observes_grid (text_lines_row ch pad y).
Proof. unfold text_lines_row. observe. Qed.
#[local] Hint Resolve observes_text_lines_row : observers.

Lemma observes_span_lines cw ch pad bg0 : observes_grid (span_lines cw ch pad bg0).
Proof.
  unfold span_lines. observe. apply observes_for_rows. intros y. observe.
Qed.

Lemma observes_text_lines ch pad : observes_grid (text_lines ch pad).
Proof. unfold text_lines. observe. apply observes_for_rows. intros y. observe. Qed.
#[local] Hint Resolve observes_span_lines observes_text_lines : observers.

Lemma observes_render_svg cw ch pad : observes_grid (render_svg cw ch pad).
Proof. unfold render_svg. observe. Qed.

End observers.

(** A call of [feed], for one, is not of this kind. *)
Lemma feed_is_not_readonly : ¬ readonly (Call.feed ["a"%byte]).
Proof. intros H. specialize (H (TerminalEmulator.__init__ 1 1)). discriminate H. Qed.

Section agreement.

Lemma call_bind_gives {A B} (m : Call.call A) (k : A → Call.call B) s r (f : A → result B) :
  m s = (s, r) → (∀ a, r = Ok a → k a s = (s, f a)) → (m ≫= k) s = (s, r ≫= f).
Proof.
  intros Hm Hk. unfold mbind at 1, Call.call_bind. rewrite Hm.
  destruct r; [by apply Hk|done].
Qed.

Lemma row_of_gives y row s :
  TerminalEmulator.cells s !! y = Some row → Call.row_of y s = (s, Ok row).
Proof. intros H. unfold Call.row_of, mbind, Call.call_bind, Call.attribute, Call.value. by rewrite H. Qed.

Lemma row_item_gives y x row s :
  TerminalEmulator.cells s !! y = Some row → Call.row_item y x s = (s, py_get row x).
Proof.
  intros H. unfold Call.row_item, mbind, Call.call_bind. by rewrite (row_of_gives y row s H).
Qed.

Lemma scan_run_gives fuel y row bg s : ∀ x,
  TerminalEmulator.cells s !! y = Some row →
  Call.scan_run fuel y bg x s = (s, scan_run s fuel row bg x).
Proof.
  induction fuel as [|fuel IH]; intros x Hrow; [done|].
  cbn [Call.scan_run scan_run]. unfold mbind at 1, Call.call_bind at 1. cbn.
  case_decide; [|done].
  unfold mbind at 1, Call.call_bind at 1. rewrite (row_item_gives y x row s Hrow).
  destruct (py_get row x) as [c|e]; [|done]. cbn.
  case_decide; [by apply IH|done].
Qed.

Lemma span_loop_gives cw ch pad fuel bg0 y row s : ∀ x,
  TerminalEmulator.cells s !! y = Some row →
  Call.span_loop cw ch pad fuel bg0 y x s
    = (s, span_loop s cw ch pad fuel bg0 (Z.of_nat y) row x).
Proof.
  induction fuel as [|fuel IH]; intros x Hrow; [done|].
  cbn [Call.span_loop span_loop]. unfold mbind at 1, Call.call_bind at 1. cbn.
  case_decide; [|done].
  unfold mbind at 1, Call.call_bind at 1. rewrite (row_item_gives y x row s Hrow).
  destruct (py_get row x) as [c|e]; [|done]. cbn.
  unfold mbind at 1, Call.call_bind at 1. rewrite (scan_run_gives _ y row _ s _ Hrow).
  destruct (scan_run s _ row (Cell.bg c) x) as [x'|e]; [|done]. cbn.
  unfold mbind at 1, Call.call_bind at 1. rewrite (IH x' Hrow).
  by destruct (span_loop s cw ch pad fuel bg0 (Z.of_nat y) row x').
Qed.

Lemma for_rows_gives (g : Z * list Cell.t → result (list string)) body s fuel : ∀ y,
  (length (TerminalEmulator.cells s) - y ≤ fuel)%nat →
  (∀ y row, TerminalEmulator.cells s !! y = Some row →
            body y s = (s, g (Z.of_nat y, row))) →
  Call.for_rows fuel y body s
    = (s, @concat string <$>
            mapM g (enumerate_from (Z.of_nat y) (drop y (TerminalEmulator.cells s)))).
Proof.
  induction fuel as [|fuel IH]; intros y Hfuel Hbody.
  { cbn. rewrite drop_ge by lia. done. }
  cbn [Call.for_rows]. unfold mbind at 1, Call.call_bind at 1. cbn.
  destruct (decide (y < length (TerminalEmulator.cells s))%nat) as [Hy|Hy];
    [|rewrite drop_ge by lia; reflexivity].
  destruct (lookup_lt_is_Some_2 _ _ Hy) as [row Hrow].
  rewrite (drop_S _ _ _ Hrow). cbn [enumerate_from mapM].
  unfold mbind at 1, Call.call_bind at 1. rewrite (Hbody y row Hrow).
  destruct (g (Z.of_nat y, row)) as [out|e]; [|done].
  unfold mbind at 1, Call.call_bind at 1.
  rewrite (IH (S y)) by (done || lia).
  replace (Z.of_nat (S y)) with (Z.of_nat y + 1) by lia.
  by destruct (mapM g _).
Qed.

Lemma text_cells_gives y row s fuel : ∀ x st,
  TerminalEmulator.cells s !! y = Some row → (length row - x ≤ fuel)%nat →
  Call.text_cells fuel y x st s = (s, Ok (foldl text_cell st (drop x row))).
Proof.
  induction fuel as [|fuel IH]; intros x st Hrow Hfuel.
  { cbn. by rewrite drop_ge by lia. }
  cbn [Call.text_cells]. unfold mbind at 1, Call.call_bind at 1. rewrite (row_of_gives y row s Hrow).
  destruct (row !! x) as [cell|] eqn:Hcell.
  - rewrite (drop_S _ _ _ Hcell). cbn [foldl]. apply IH; [done|lia].
  - apply lookup_ge_None in Hcell. by rewrite drop_ge by lia.
Qed.

Lemma text_lines_row_gives ch pad y row s :
  TerminalEmulator.cells s !! y = Some row →
  Call.text_lines_row ch pad y s
    = (s, Ok (text_lines_row ch pad (Z.of_nat y) row)).
Proof.
  intros Hrow. unfold Call.text_lines_row, text_lines_row.
  unfold mbind at 1, Call.call_bind at 1. rewrite (row_of_gives y row s Hrow).
  unfold mbind at 1, Call.call_bind at 1.
  by rewrite (text_cells_gives y row s _ 0 _ Hrow) by lia.
Qed.

Lemma mapM_Ok_all {A B} (h : A → B) (l : list A) :
  mapM (λ a, Ok (h a)) l = Ok (h <$> l).
Proof. induction l as [|a l IH]; [done|]. cbn [mapM]. by rewrite IH. Qed.

Lemma canvas_bg_gives s : Call.canvas_bg s = (s, canvas_bg s).
Proof.
  unfold Call.canvas_bg, canvas_bg, mbind at 1, Call.call_bind at 1. cbn.
  destruct (TerminalEmulator.cells s) as [|row cells'] eqn:Hcells; [done|].
  unfold mbind at 1, Call.call_bind at 1. cbn. by rewrite Hcells.
Qed.

Lemma span_lines_gives cw ch pad bg0 s :
  Call.span_lines cw ch pad bg0 s = (s, span_lines s cw ch pad bg0).
Proof.
  unfold Call.span_lines, span_lines, mbind at 1, Call.call_bind at 1. cbn.
  rewrite (for_rows_gives
             (λ '(y, row), span_loop s cw ch pad
                             (Z.to_nat (TerminalEmulator.cols s)) bg0 y row 0))
    by (lia || (intros y row Hrow; unfold mbind at 1, Call.call_bind at 1; cbn;
                by apply span_loop_gives)).
  done.
Qed.

Lemma text_lines_gives ch pad s :
  Call.text_lines ch pad s = (s, Ok (text_lines s ch pad)).
Proof.
  unfold Call.text_lines, text_lines, mbind at 1, Call.call_bind at 1. cbn.
  rewrite (for_rows_gives
             (λ p, Ok ((λ '(y, row), text_lines_row ch pad y row) p)))
    by (lia || (intros y row Hrow; by apply text_lines_row_gives)).
  by rewrite mapM_Ok_all.
Qed.

(** The renderer as a call returns what the renderer as a function of
    the screen gives, and leaves the object as it was. *)
Lemma render_svg_gives cw ch pad s :
  Call.render_svg cw ch pad s = (s, render_svg s cw ch pad).
Proof.
  unfold Call.render_svg, render_svg, render_lines.
  unfold mbind at 1, Call.call_bind at 1. cbn.
  unfold mbind at 1, Call.call_bind at 1. cbn.
  unfold mbind at 1, Call.call_bind at 1. rewrite canvas_bg_gives.
  destruct (canvas_bg s) as [bg0|e]; [|done]. cbn.
  unfold mbind at 1, Call.call_bind at 1. rewrite span_lines_gives.
  destruct (span_lines s cw ch pad bg0) as [spans|e]; [|done]. cbn.
  unfold mbind at 1, Call.call_bind at 1. rewrite text_lines_gives. done.
Qed.
End agreement.

(** C9. A call of [render_svg] leaves the screen object as it found it,
    whether it returns or raises; on two screens with equal grids, that
    is, with the same dimensions and cells, it has the same outcome: the
    same text, character for character, or the same exception; and two
    calls on the same object, one after the other, give the same text
    twice and leave the object as it was before the first. *)
Theorem render_svg_deterministic (screen1 screen2 : TerminalEmulator.t)
    (cell_w cell_h padding : Z) :
  same_grid screen1 screen2 →
  (Call.render_svg cell_w cell_h padding screen1).1 = screen1 ∧
  (Call.render_svg cell_w cell_h padding screen1).2
    = (Call.render_svg cell_w cell_h padding screen2).2 ∧
  (text1 ← Call.render_svg cell_w cell_h padding;
   text2 ← Call.render_svg cell_w cell_h padding;
   mret (text1, text2)) screen1
    = (screen1,
       text ← (Call.render_svg cell_w cell_h padding screen1).2; Ok (text, text)).
Proof.
  intros Hgrid.
  destruct (observes_render_svg cell_w cell_h padding) as [Hread Hgrid_only].
  split_and!; [apply Hread|by apply Hgrid_only|].
  unfold mbind at 1, Call.call_bind at 1. specialize (Hread screen1).
  destruct (Call.render_svg cell_w cell_h padding screen1) as [screen' [text|e]] eqn:H1;
    cbn in Hread; subst screen'; [|done].
  unfold mbind at 1, Call.call_bind at 1. by rewrite H1.
Qed.

Lemma render_svg_deterministic_witness :
  let screen1 :=
    TerminalEmulator.feed_after ["a"; "b"]%byte (TerminalEmulator.__init__ 3 2) in
  let screen2 :=
    TerminalEmulator.feed_after [x61; x62; x1b; x5b; x31; x6d; x0d]%byte
      (TerminalEmulator.__init__ 3 2) in
  same_grid screen1 screen2 ∧ TerminalEmulator.cx screen1 ≠ TerminalEmulator.cx screen2 ∧
  (Call.render_svg 9 16 10 screen1).1 = screen1 ∧
  (Call.render_svg 9 16 10 screen1).2 = (Call.render_svg 9 16 10 screen2).2 ∧
  (text1 ← Call.render_svg 9 16 10;
   text2 ← Call.render_svg 9 16 10;
   mret (text1, text2)) screen1
    = (screen1, text ← (Call.render_svg 9 16 10 screen1).2; Ok (text, text)).
Proof.
  intros screen1 screen2.
  assert (same_grid screen1 screen2) as Hgrid by (repeat split; vm_compute; reflexivity).
  split; [exact Hgrid|]. split; [vm_compute; discriminate|].
  exact (render_svg_deterministic screen1 screen2 9 16 10 Hgrid).
Defined.

(** * Further properties of the code *)

(** ** Calls of [feed] in pieces *)

Section chunks.
Import TerminalEmulator.

Lemma ord_backslash (b : byte) : ord b = code "\" ↔ b = "\"%byte.
Proof. split; [|by intros ->]. by destruct b. Qed.

(** A round looks at the following byte only to see a backslash. *)
Lemma feed_step_next b next next' s :
  next ≠ Some "\"%byte → next' ≠ Some "\"%byte →
  feed_step b next s = feed_step b next' s.
Proof.
  intros Hn Hn'. unfold feed_step. destruct (state s); try done.
  assert (∀ n : option byte, n ≠ Some "\"%byte → ¬ (ord <$> n = Some (code "\"))) as Hno.
  { intros [b'|] Hb'; cbn; [|discriminate].
    intros [= H]. apply ord_backslash in H. congruence. }
  case_decide; [done|].
  destruct (decide (_ ∧ ord <$> next = _)) as [[_ H1]|_]; [by apply Hno in H1|].
  destruct (decide (_ ∧ ord <$> next' = _)) as [[_ H1]|_]; [by apply Hno in H1|].
  done.
Qed.

Lemma feed_step_skip b next s s' :
  feed_step b next s = Ok (s', true) → next = Some "\"%byte.
Proof.
  unfold feed_step. destruct (state s).
  - intros Hs. inv_bind Hs. by injection Hs.
  - repeat case_decide; by intros [=].
  - destruct (decide (ord b = 7)); [by intros [=]|].
    destruct (decide (_ ∧ _)) as [[_ Hnext]|_]; [|by intros [=]].
    intros _. destruct next as [b'|]; [|done].
    injection Hnext as Hnext. apply ord_backslash in Hnext. by subst.
  - case_decide; [|by intros [=]]. intros Hs. inv_bind Hs. by injection Hs.
Qed.

Lemma feed_app_bounded n d1 d2 s :
  (length d1 ≤ n)%nat → head d2 ≠ Some "\"%byte →
  feed (d1 ++ d2) s = feed d1 s ≫= feed d2.
Proof.
  revert d1 s. induction n as [|n IH]; intros d1 s Hlen Hd2.
  { destruct d1; [done|cbn in Hlen; lia]. }
  destruct d1 as [|b rest]; [done|]. cbn in Hlen.
  cbn [app feed].
  destruct rest as [|b' rest'].
  - cbn [app head].
    rewrite (feed_step_next b (head d2) None) by done.
    destruct (feed_step b None s) as [[s' skip]|e] eqn:Hstep; [|done].
    rewrite !bind_Ok.
    destruct skip; [by apply feed_step_skip in Hstep|].
    by destruct d2.
  - cbn [app head].
    destruct (feed_step b (Some b') s) as [[s' skip]|e] eqn:Hstep; [|done].
    rewrite !bind_Ok. cbn in Hlen.
    destruct skip; [apply (IH rest' s')|apply (IH (b' :: rest') s')];
      (done || cbn; lia).
Qed.
End chunks.

(** X1. Feeding the bytes in two calls is feeding them in one, unless the
    second call begins with a backslash (which, after an ESC that ends the
    first call in an OSC sequence, is no longer seen as the terminator). *)
Theorem feed_in_two_calls (d1 d2 : list byte) (self : TerminalEmulator.t) :
  head d2 ≠ Some "\"%byte →
  TerminalEmulator.feed (d1 ++ d2) self
    = TerminalEmulator.feed d1 self ≫= TerminalEmulator.feed d2.
Proof. apply (feed_app_bounded (length d1)). done. Qed.

Lemma feed_in_two_calls_witness :
  TerminalEmulator.feed ([x1b; x5b; x33] ++ [x31; x6d; x41]) (TerminalEmulator.__init__ 4 2)
    = TerminalEmulator.feed [x1b; x5b; x33] (TerminalEmulator.__init__ 4 2)
        ≫= TerminalEmulator.feed [x31; x6d; x41].
Proof. apply feed_in_two_calls. discriminate. Defined.

(** ** Escape sequences, byte by byte *)

Section sequences.
Import TerminalEmulator.

(** The OSC state takes in the bytes that are neither BEL nor ESC. *)
Lemma osc_absorbs payload rest s :
  state s = osc → Forall (λ b, ord b ≠ 0x07 ∧ ord b ≠ 0x1B) payload →
  feed (payload ++ rest) s = feed rest s.
Proof.
  intros Hstate. induction 1 as [|b payload [Hbel Hesc] _ IH]; [done|].
  cbn [app]. rewrite (feed_cons_no_skip b _ s s); [done|].
  unfold feed_step. rewrite Hstate.
  rewrite decide_False by done. rewrite decide_False by (by intros [? _]). done.
Qed.

(** The CSI state collects the parameter bytes. *)
Lemma str_of_bytes_snoc bs b :
  str_of_bytes bs +:+ str1 (chr b) = str_of_bytes (bs ++ [b]).
Proof.
  unfold str_of_bytes. rewrite fmap_app. cbn [fmap list_fmap].
  induction (chr <$> bs) as [|c cs IH]; [done|]. cbn. rewrite append_cons. by rewrite IH.
Qed.

Lemma csi_collects params : ∀ rest s buf,
  state s = csi → Forall csi_parameter_byte params →
  feed (params ++ rest) (set_csi_buf (str_of_bytes buf) s)
    = feed rest (set_csi_buf (str_of_bytes (buf ++ params)) s).
Proof.
  induction params as [|b params IH]; intros rest s buf Hstate Hparams.
  - by rewrite app_nil_r.
  - apply Forall_cons in Hparams as [Hb Hparams]. cbn [app].
    rewrite (feed_cons_no_skip b _ _ (set_csi_buf (str_of_bytes (buf ++ [b])) s)).
    + rewrite IH by done. by rewrite <- app_assoc.
    + unfold feed_step. cbn. rewrite Hstate.
      rewrite decide_False; [by rewrite str_of_bytes_snoc|].
      unfold ch_le. rewrite code_chr. intros [? ?]. by apply Hb.
Qed.
End sequences.

(** X2. In the OSC state the two bytes ESC and backslash end the sequence
    when one call of [feed] holds them both; an ESC that is the last byte
    of a call is dropped, so that a backslash at the head of the next call
    leaves the emulator in the OSC state. *)
Theorem osc_terminator_across_calls (self : TerminalEmulator.t) :
  TerminalEmulator.state self = TerminalEmulator.osc →
  TerminalEmulator.feed [x1b; x5c] self
    = Ok (TerminalEmulator.set_state TerminalEmulator.normal
            (TerminalEmulator.set_osc_active false self)) ∧
  TerminalEmulator.feed [x1b] self ≫= TerminalEmulator.feed [x5c] = Ok self.
Proof.
  intros Hstate. split.
  - cbn [TerminalEmulator.feed head]. unfold TerminalEmulator.feed_step.
    by rewrite Hstate.
  - assert (TerminalEmulator.feed [x1b] self = Ok self) as ->.
    { cbn [TerminalEmulator.feed head]. unfold TerminalEmulator.feed_step.
      rewrite Hstate. rewrite decide_False by done.
      by rewrite decide_False by (by intros [_ ?]). }
    rewrite bind_Ok. cbn [TerminalEmulator.feed head].
    unfold TerminalEmulator.feed_step. rewrite Hstate.
    rewrite decide_False by done. by rewrite decide_False by (by intros [? _]).
Qed.

Lemma osc_terminator_across_calls_witness :
  TerminalEmulator.feed [x1b] (TerminalEmulator.set_state TerminalEmulator.osc
                                 (TerminalEmulator.__init__ 2 1))
    ≫= TerminalEmulator.feed [x5c]
  = Ok (TerminalEmulator.set_state TerminalEmulator.osc (TerminalEmulator.__init__ 2 1)).
Proof.
  apply (osc_terminator_across_calls
           (TerminalEmulator.set_state TerminalEmulator.osc (TerminalEmulator.__init__ 2 1))).
  reflexivity.
Defined.

(** X3. An OSC sequence has no effect: ESC ], any bytes other than BEL and
    ESC, then BEL or ESC backslash, fed in the normal state, leave the
    grid, the cursor and the attributes as they were, and the bytes after
    it are read in the normal state. *)
Theorem osc_sequence_is_inert (payload rest : list byte) (self : TerminalEmulator.t) :
  TerminalEmulator.state self = TerminalEmulator.normal →
  Forall (λ b, ord b ≠ 0x07 ∧ ord b ≠ 0x1B) payload →
  TerminalEmulator.feed ([x1b; x5d] ++ payload ++ [x07] ++ rest) self
    = TerminalEmulator.feed rest (TerminalEmulator.set_osc_active false self) ∧
  TerminalEmulator.feed ([x1b; x5d] ++ payload ++ [x1b; x5c] ++ rest) self
    = TerminalEmulator.feed rest (TerminalEmulator.set_osc_active false self).
Proof.
  intros Hstate Hpayload.
  set (s1 := TerminalEmulator.set_state TerminalEmulator.osc
               (TerminalEmulator.set_osc_active true
                  (TerminalEmulator.set_state TerminalEmulator.esc self))).
  assert (∀ tail, TerminalEmulator.feed ([x1b; x5d] ++ payload ++ tail) self
                  = TerminalEmulator.feed tail s1) as Hopen.
  { intros tail. cbn [app].
    rewrite (feed_cons_no_skip x1b _ self
               (TerminalEmulator.set_state TerminalEmulator.esc self))
      by (unfold TerminalEmulator.feed_step; by rewrite Hstate).
    rewrite (feed_cons_no_skip x5d _ _ s1) by done.
    by apply osc_absorbs. }
  assert (TerminalEmulator.set_state TerminalEmulator.normal
            (TerminalEmulator.set_osc_active false s1)
          = TerminalEmulator.set_osc_active false self) as Hclosed.
  { destruct self. cbn in Hstate. by subst. }
  split; rewrite Hopen.
  - cbn [app].
    rewrite (feed_cons_no_skip x07 _ s1
               (TerminalEmulator.set_state TerminalEmulator.normal
                  (TerminalEmulator.set_osc_active false s1))) by done.
    by rewrite Hclosed.
  - cbn [app TerminalEmulator.feed head]. unfold TerminalEmulator.feed_step at 1.
    cbn. rewrite Hclosed. by destruct rest.
Qed.

Lemma osc_sequence_is_inert_witness :
  TerminalEmulator.feed ([x1b; x5d] ++ [x30; x3b; x68; x69] ++ [x07] ++ [x41])
    (TerminalEmulator.__init__ 2 1)
  = TerminalEmulator.feed [x41]
      (TerminalEmulator.set_osc_active false (TerminalEmulator.__init__ 2 1)).
Proof.
  apply osc_sequence_is_inert; [done|].
  repeat constructor; by cbn.
Defined.

(** X4. A whole control sequence, ESC [ then parameter bytes (outside
    ['@' .. '~']) then a final byte in ['@' .. '~'], fed in the normal
    state, is one call of [_handle_csi] with the characters of the
    parameter bytes and of the final byte; the bytes after it are read in
    the normal state. *)
Theorem csi_sequence_dispatch (params : list byte) (final : byte) (rest : list byte)
    (self : TerminalEmulator.t) :
  TerminalEmulator.state self = TerminalEmulator.normal →
  Forall csi_parameter_byte params → 0x40 ≤ ord final ≤ 0x7E →
  TerminalEmulator.feed ([x1b; x5b] ++ params ++ final :: rest) self
    = self' ← TerminalEmulator._handle_csi (chr final) (str_of_bytes params)
               (TerminalEmulator.set_csi_buf (str_of_bytes params)
                  (TerminalEmulator.set_state TerminalEmulator.csi self));
      TerminalEmulator.feed rest
        (TerminalEmulator.set_state TerminalEmulator.normal self').
Proof.
  intros Hstate Hparams Hfinal. cbn [app].
  rewrite (feed_cons_no_skip x1b _ self
             (TerminalEmulator.set_state TerminalEmulator.esc self))
    by (unfold TerminalEmulator.feed_step; by rewrite Hstate).
  rewrite (feed_cons_no_skip x5b _ _
             (TerminalEmulator.set_csi_buf (str_of_bytes [])
                (TerminalEmulator.set_state TerminalEmulator.csi self))) by done.
  rewrite csi_collects by done. cbn [app TerminalEmulator.feed].
  unfold TerminalEmulator.feed_step at 1. cbn.
  rewrite decide_True by (unfold ch_le; rewrite code_chr; exact Hfinal).
  destruct (TerminalEmulator._handle_csi _ _ _) as [s'|e]; [|done].
  rewrite !bind_Ok. by destruct rest.
Qed.

Lemma csi_sequence_dispatch_witness :
  TerminalEmulator.feed ([x1b; x5b] ++ [x32; x3b; x33] ++ x48 :: [x41])
    (TerminalEmulator.__init__ 4 4)
  = self' ← TerminalEmulator._handle_csi "H" "2;3"
             (TerminalEmulator.set_csi_buf "2;3"
                (TerminalEmulator.set_state TerminalEmulator.csi
                   (TerminalEmulator.__init__ 4 4)));
    TerminalEmulator.feed [x41]
      (TerminalEmulator.set_state TerminalEmulator.normal self').
Proof.
  apply (csi_sequence_dispatch [x32; x3b; x33] x48 [x41]); [done| |cbn; lia].
  repeat constructor; unfold csi_parameter_byte; cbn; lia.
Defined.

(** ** Invariants of the grid *)

Lemma py_norm_lt (len : nat) (i : Z) (k : nat) : py_norm len i = Some k → (k < len)%nat.
Proof.
  unfold py_norm. case_decide; [intros [= <-]; lia|].
  case_decide; [intros [= <-]; lia|done].
Qed.

Lemma printable_styled fg bg b : printable_cell (Cell.styled fg bg b).
Proof. exists " "%char. split; [done|]. left. by vm_compute. Qed.

(** A property of the dimensions and the grid that holds after each
    assignment to a cell, each scroll and each reset holds after [feed]. *)
Section grid_invariant.
Import TerminalEmulator.

Variable P : t → Prop.
Hypothesis P_frame : ∀ s s',
  cols s' = cols s → rows s' = rows s → cells s' = cells s → P s → P s'.
Hypothesis P_write : ∀ s k row j c,
  cells s !! k = Some row → (j < length row)%nat → printable_cell c →
  P s → P (set_cells (<[k:=<[j:=c]> row]> (cells s)) s).
Hypothesis P_scroll : ∀ s row0 rest c,
  cells s = row0 :: rest → printable_cell c →
  P s → P (set_cells (rest ++ [repeated c (cols s)]) s).
Hypothesis P_reset : ∀ s, P s → P (reset s).

Local Ltac frame :=
  match goal with
  | H : P ?t |- _ =>
      apply (P_frame t); [reflexivity|reflexivity|reflexivity|exact H]
  end.

Lemma write_cell_P y x c s s' :
  printable_cell c → P s → write_cell y x c s = Ok s' → P s'.
Proof.
  intros Hc Hs (k & row & j & _ & Hrow & Hj & ->)%write_cell_inv.
  apply P_write; try done. by eapply py_norm_lt.
Qed.

Lemma scroll_once_P s s' : P s → scroll_once s = Ok s' → P s'.
Proof.
  unfold scroll_once. intros Hs.
  destruct (cells s) as [|row0 rest] eqn:Hcells; [done|]. intros [= <-].
  by eapply P_scroll; [|apply printable_styled|].
Qed.

Lemma newline_P s s' : P s → _newline s = Ok s' → P s'.
Proof.
  unfold _newline. intros Hs. cbn. case_decide.
  - rewrite scroll_1. apply scroll_once_P. frame.
  - intros [= <-]. frame.
Qed.

Lemma put_char_P a s s' :
  0x20 ≤ code a ≤ 0x7E ∨ 0xA0 ≤ code a →
  P s → _put_char (str1 a) s = Ok s' → P s'.
Proof.
  intros Ha Hs H. unfold _put_char in H.
  apply bind_Ok_inv in H as (s1 & H1 & H).
  apply bind_Ok_inv in H as (s2 & H2 & H).
  apply bind_Ok_inv in H as (s3 & H3 & H). injection H as <-.
  assert (P s1) as Hs1.
  { destruct (decide (cx s >= cols s)); [by eapply newline_P|by injection H1 as <-]. }
  assert (P s2) as Hs2.
  { destruct (decide (cy s1 >= rows s1)); [|by injection H2 as <-].
    apply bind_Ok_inv in H2 as (s2' & H2' & H2). injection H2 as <-.
    rewrite scroll_1 in H2'. apply (scroll_once_P _ _ Hs1) in H2'. frame. }
  assert (P s3) as Hs3.
  { eapply write_cell_P; [|exact Hs2|exact H3]. by exists a. }
  frame.
Qed.

Lemma erase_line_P ints s s' : P s → erase_line ints s = Ok s' → P s'.
Proof.
  unfold erase_line. intros Hs. case_decide; [|by intros [= <-]].
  destruct (if decide (arg ints 0 0 = 0) then _ else _) as [start end_].
  apply for_each_inv; [|done].
  intros x t t' _ Ht. unfold erase_cell. case_decide; [|by intros [= <-]].
  apply write_cell_P; [apply printable_styled|done].
Qed.

Lemma handle_csi_P final raw s s' : P s → _handle_csi final raw s = Ok s' → P s'.
Proof.
  intros Hs H. unfold _handle_csi in H.
  apply bind_Ok_inv in H as (ints & _ & H).
  repeat (destruct (decide (final = _ ∨ final = _)) as [_|_]
          || destruct (decide (final = _)) as [_|_]);
    try (injection H as <-; frame).
  - destruct (decide (arg ints 0 0 = 2)); injection H as <-; [by apply P_reset|done].
  - by eapply erase_line_P.
  - destruct (apply_sgr_same_screen ints s) as (s1 & Hs1 & Hc & Hr & Hcells & _).
    rewrite Hs1 in H. injection H as <-. by apply (P_frame s).
  - destruct (saved s) as [[x y]|]; injection H as <-; [frame|done].
Qed.

Lemma feed_step_P b next s s' skip :
  P s → feed_step b next s = Ok (s', skip) → P s'.
Proof.
  intros Hs H. unfold feed_step in H. cbn zeta in H. destruct (state s).
  - apply bind_Ok_inv in H as (s1 & H1 & H). injection H as <- <-.
    destruct (decide (ord b = 0x1B)); [injection H1 as <-; frame|].
    destruct (decide (ord b = 0x0D)); [injection H1 as <-; frame|].
    destruct (decide (ord b = 0x0A)); [by eapply newline_P|].
    destruct (decide (ord b = 0x08)); [injection H1 as <-; frame|].
    destruct (decide (ord b = 0x09)); [injection H1 as <-; frame|].
    destruct (decide (ord b = 0x07)); [by injection H1 as <-|].
    destruct (decide (0x20 ≤ ord b ≤ 0x7E ∨ ord b >= 0xA0)) as [Hb|_];
      [|by injection H1 as <-].
    eapply put_char_P; [|exact Hs|exact H1]. rewrite code_chr. lia.
  - destruct (decide (ord b = code "[")); [injection H as <- <-; frame|].
    destruct (decide (ord b = code "]")); injection H as <- <-; frame.
  - destruct (decide (ord b = 0x07)); [injection H as <- <-; frame|].
    destruct (decide (ord b = 0x1B ∧ _)); injection H as <- <-; [frame|done].
  - destruct (decide (ch_le "@" (chr b) ∧ ch_le (chr b) "~")).
    + apply bind_Ok_inv in H as (s1 & H1 & H). injection H as <- <-.
      apply (handle_csi_P _ _ _ _ Hs) in H1. frame.
    + injection H as <- <-. frame.
Qed.

Lemma feed_P_bounded n data s s' :
  (length data ≤ n)%nat → P s → feed data s = Ok s' → P s'.
Proof.
  revert data s. induction n as [|n IH]; intros data s Hlen Hs H.
  { destruct data; [by injection H as <-|cbn in Hlen; lia]. }
  destruct data as [|b rest]; [by injection H as <-|].
  cbn [feed] in H. cbn in Hlen.
  apply bind_Ok_inv in H as ([s1 skip] & H1 & H).
  apply (feed_step_P _ _ _ _ _ Hs) in H1.
  destruct rest as [|b' rest']; [by injection H as <-|]. cbn in Hlen.
  destruct skip; (eapply IH; [|exact H1|exact H]); cbn; lia.
Qed.

Lemma feed_P data s s' : P s → feed data s = Ok s' → P s'.
Proof. by apply (feed_P_bounded (length data)). Qed.
End grid_invariant.

Lemma length_repeated_nat {A} (x : A) (n : Z) : length (TerminalEmulator.repeated x n) = Z.to_nat n.
Proof. apply length_replicate. Qed.

Lemma feed_dimensions data s s' :
  TerminalEmulator.feed data s = Ok s' →
  TerminalEmulator.cols s' = TerminalEmulator.cols s ∧
  TerminalEmulator.rows s' = TerminalEmulator.rows s.
Proof.
  apply (feed_P (λ t, TerminalEmulator.cols t = TerminalEmulator.cols s ∧
                      TerminalEmulator.rows t = TerminalEmulator.rows s));
    try done.
  intros t t' Hc Hr _ [? ?]. by rewrite Hc, Hr.
Qed.

Lemma feed_rectangular data s s' :
  rectangular s → TerminalEmulator.feed data s = Ok s' → rectangular s'.
Proof.
  apply (feed_P rectangular); unfold rectangular.
  - intros t t' Hc Hr Hcells. by rewrite Hc, Hr, Hcells.
  - intros t k row j c Hrow _ _ [Hh Hw]. cbn. split; [by rewrite length_insert|].
    apply Forall_insert; [done|]. rewrite length_insert.
    by apply (proj1 (Forall_lookup _ _) Hw k row).
  - intros t row0 rest c Hcells _ [Hh Hw]. cbn. rewrite Hcells in Hh, Hw.
    split; [rewrite length_app; cbn in *; lia|].
    apply Forall_cons in Hw as [_ Hw]. apply Forall_app. split; [done|].
    apply Forall_singleton, length_repeated_nat.
  - intros t _. cbn. split; [apply length_repeated_nat|].
    apply Forall_replicate, length_repeated_nat.
Qed.

Lemma rectangular_init cols rows : rectangular (TerminalEmulator.__init__ cols rows).
Proof.
  split; cbn; [apply length_repeated_nat|].
  apply Forall_replicate, length_repeated_nat.
Qed.

Lemma feed_printable_cells data s s' :
  Forall (Forall printable_cell) (TerminalEmulator.cells s) →
  TerminalEmulator.feed data s = Ok s' →
  Forall (Forall printable_cell) (TerminalEmulator.cells s').
Proof.
  apply (feed_P (λ t, Forall (Forall printable_cell) (TerminalEmulator.cells t))).
  - intros t t' _ _ Hcells. by rewrite Hcells.
  - intros t k row j c Hrow _ Hc Hall. cbn.
    apply Forall_insert; [done|]. apply Forall_insert; [|done].
    by apply (proj1 (Forall_lookup _ _) Hall k row).
  - intros t row0 rest c Hcells Hc Hall. cbn. rewrite Hcells in Hall.
    apply Forall_cons in Hall as [_ Hall]. apply Forall_app. split; [done|].
    apply Forall_singleton. by apply Forall_replicate.
  - intros t _. cbn. apply Forall_replicate, Forall_replicate.
    apply (printable_styled (230, 230, 230) (10, 12, 16) false).
Qed.

(** X5. A call of [feed] that returns leaves the two dimensions as they
    were, on any state; and a grid of [rows] rows of [cols] cells (of no
    row or no cell when the dimension is not positive) is one still. *)
Theorem feed_keeps_grid_shape (data : list byte) (self self' : TerminalEmulator.t) :
  TerminalEmulator.feed data self = Ok self' →
  TerminalEmulator.cols self' = TerminalEmulator.cols self ∧
  TerminalEmulator.rows self' = TerminalEmulator.rows self ∧
  (rectangular self → rectangular self').
Proof.
  intros Hfeed. destruct (feed_dimensions _ _ _ Hfeed) as [Hc Hr].
  split_and!; [done|done|]. intros Hrect. by eapply feed_rectangular.
Qed.

Lemma feed_keeps_grid_shape_witness :
  match TerminalEmulator.feed [x41; x0a; x0a; x42] (TerminalEmulator.__init__ 2 2) with
  | Ok self' =>
      TerminalEmulator.cols self' = 2 ∧ TerminalEmulator.rows self' = 2 ∧
      rectangular self'
  | Raise _ => False
  end.
Proof.
  destruct (TerminalEmulator.feed _ _) as [self'|e] eqn:Hfeed;
    [|vm_compute in Hfeed; discriminate].
  destruct (feed_keeps_grid_shape _ _ _ Hfeed) as (Hc & Hr & Hrect).
  split_and!; [exact Hc|exact Hr|]. apply Hrect, rectangular_init.
Defined.

(** X6. Every cell that [feed] writes holds one character that is neither
    a control character nor NUL: if each cell of the grid holds one
    character with a code point in 0x20 .. 0x7E or from 0xA0 on, then so
    does each cell after any call of [feed] that returns; the grid of a new
    emulator is such a grid. *)
Theorem feed_cells_hold_printable_characters (data : list byte)
    (self self' : TerminalEmulator.t) :
  TerminalEmulator.feed data self = Ok self' →
  Forall (Forall printable_cell) (TerminalEmulator.cells self) →
  Forall (Forall printable_cell) (TerminalEmulator.cells self') ∧
  ∀ cols rows, Forall (Forall printable_cell)
                 (TerminalEmulator.cells (TerminalEmulator.__init__ cols rows)).
Proof.
  intros Hfeed Hcells. split; [by eapply feed_printable_cells|].
  intros cols rows. cbn. apply Forall_replicate, Forall_replicate.
  apply (printable_styled (230, 230, 230) (10, 12, 16) false).
Qed.

Lemma feed_cells_hold_printable_characters_witness :
  match TerminalEmulator.feed [x41; x07; x1b; x5b; x4b; xe9]
          (TerminalEmulator.__init__ 3 1) with
  | Ok self' => Forall (Forall printable_cell) (TerminalEmulator.cells self')
  | Raise _ => False
  end.
Proof.
  destruct (TerminalEmulator.feed _ _) as [self'|e] eqn:Hfeed;
    [|vm_compute in Hfeed; discriminate].
  apply (feed_cells_hold_printable_characters _ _ _ Hfeed).
  cbn. apply Forall_replicate, Forall_replicate.
  apply (printable_styled (230, 230, 230) (10, 12, 16) false).
Defined.

(** ** From the bytes to the document *)

(** X7. On a grid with a row and a column [capture_to_svg] reads or writes
    no list out of its range, in [feed] or in [render_svg]: it returns a
    document, whose first lines are the header for the dimensions asked
    for and whose last line closes it, or it raises the [ValueError] of
    [int], which takes a byte 0xB2, 0xB3 or 0xB9 in the data, or more
    bytes than [int] converts digits. *)
Theorem capture_to_svg_document (data : list byte) (rows cols : Z) :
  1 ≤ cols → 1 ≤ rows →
  match capture_to_svg data rows cols with
  | Ok svg =>
      ∃ bg0 body,
        svg = String.concat nl
                (header_lines (TerminalEmulator.__init__ cols rows) 9 16 10 bg0
                 ++ body ++ ["</svg>"]) +:+ nl
  | Raise e =>
      e = ValueError ∧
      (¬ Forall plain_byte data ∨ (int_max_str_digits < length data)%nat)
  end.
Proof.
  intros Hcols Hrows. unfold capture_to_svg.
  pose proof (feed_wf data _ (wf_init cols rows Hcols Hrows)) as Hwf.
  destruct (TerminalEmulator.feed data (TerminalEmulator.__init__ cols rows))
    as [screen|e] eqn:Hfeed.
  - destruct Hwf as (Hwf & Hc & Hr). rewrite bind_Ok.
    pose proof (wf_renderable _ Hwf) as Hrender.
    destruct (canvas_bg_spec _ Hrender) as (bg0 & Hbg0 & _).
    unfold render_svg, render_lines.
    rewrite Hbg0, bind_Ok, span_lines_spec, !bind_Ok by done.
    exists bg0. eexists (_ ++ _). rewrite <- (app_assoc _ _ ["</svg>"]).
    replace (header_lines screen 9 16 10 bg0)
      with (header_lines (TerminalEmulator.__init__ cols rows) 9 16 10 bg0); [done|].
    unfold header_lines, base_rect, svg_width, svg_height. by rewrite Hc, Hr.
  - cbn. split; [done|].
    destruct (decide (length data ≤ int_max_str_digits)%nat) as [Hlen|Hlen];
      [left|right; lia].
    intros Hplain.
    destruct (feed_plain_bounded (length data) data
                (TerminalEmulator.__init__ cols rows)) as [s' Hs'];
      [done|by apply wf_init|done|done|done|congruence].
Qed.

Lemma capture_to_svg_document_witness :
  match capture_to_svg [x41; x1b; x5b; x34; x31; x6d; x42] 1 2 with
  | Ok svg =>
      ∃ bg0 body,
        svg = String.concat nl
                (header_lines (TerminalEmulator.__init__ 2 1) 9 16 10 bg0
                 ++ body ++ ["</svg>"]) +:+ nl
  | Raise e =>
      e = ValueError ∧
      (¬ Forall plain_byte [x41; x1b; x5b; x34; x31; x6d; x42]
       ∨ (int_max_str_digits < length [x41; x1b; x5b; x34; x31; x6d; x42])%nat)
  end.
Proof. apply (capture_to_svg_document _ 1 2); lia. Defined.

(** X8. With a row and no column [capture_to_svg] returns no document,
    whatever the data: when [feed] returns, the read of [cells[0][0]] in
    [render_svg] is out of range. *)
Theorem capture_to_svg_needs_a_column (data : list byte) (rows cols : Z) :
  cols ≤ 0 → 1 ≤ rows → ∃ e, capture_to_svg data rows cols = Raise e.
Proof.
  intros Hcols Hrows. unfold capture_to_svg.
  destruct (TerminalEmulator.feed data (TerminalEmulator.__init__ cols rows))
    as [screen|e] eqn:Hfeed; [|by exists e].
  rewrite bind_Ok.
  destruct (feed_dimensions _ _ _ Hfeed) as [Hc Hr]. cbn in Hc, Hr.
  destruct (feed_rectangular _ _ _ (rectangular_init cols rows) Hfeed) as [Hh Hw].
  rewrite Hc in Hw. rewrite Hr in Hh.
  destruct (TerminalEmulator.cells screen) as [|row0 rest] eqn:Hcells;
    [cbn in Hh; lia|].
  apply Forall_cons in Hw as [Hrow0 _].
  destruct row0 as [|c row0]; [|cbn in Hrow0; lia].
  exists IndexError. unfold render_svg, render_lines, canvas_bg. by rewrite Hcells.
Qed.

Lemma capture_to_svg_needs_a_column_witness :
  ∃ e, capture_to_svg [x41] 2 0 = Raise e.
Proof. apply (capture_to_svg_needs_a_column [x41] 2 0); lia. Defined.

(** ** Graphic rendition *)

Section rendition.
Import TerminalEmulator.

(** The states that differ from [s] in the three attributes at most. *)
Lemma with_attrs_self s : with_attrs (current_fg s) (current_bg s) (bold s) s = s.
Proof. by destruct s. Qed.

Lemma with_attrs_twice fg bg b fg' bg' b' s :
  with_attrs fg' bg' b' (with_attrs fg bg b s) = with_attrs fg' bg' b' s.
Proof. done. Qed.

Lemma sgr_step_attrs params i p fg bg b s :
  ∃ s' i',
    sgr_step params i p (with_attrs fg bg b s) = Ok (s', i') ∧
    s' = with_attrs (current_fg s') (current_bg s') (bold s') s.
Proof.
  unfold sgr_step.
  repeat (destruct (decide _) as [?|?];
    [by (try (match goal with
              | |- context [py_get BASE_COLORS ?j] =>
                  destruct (BASE_COLORS_get j) as [? ->]; [lia|]
              end);
         rewrite ?bind_Ok; eexists _, _; split; reflexivity)|]).
  destruct (decide (p = 38 ∨ p = 48)) as [Hp|?];
    [|eexists _, _; split; reflexivity].
  destruct (decide _) as [(H1 & H2 & H4)|_].
  { assert (length (take 3 (drop (i + 2) params)) = 3%nat) as Hlen
      by (rewrite length_take, length_drop; lia).
    destruct (take 3 _) as [|r [|g [|c [|]]]]; try done.
    case_bool_decide; eexists _, _; split; reflexivity. }
  destruct (decide _) as [(H1 & H2 & H3)|_];
    [|eexists _, _; split; reflexivity].
  rewrite py_get_of_nat.
  destruct (lookup_lt_is_Some_2 params (i + 2)) as [idx ->]; [done|].
  rewrite bind_Ok. destruct (color_from_index_total idx) as [c ->].
  rewrite bind_Ok. case_bool_decide; eexists _, _; split; reflexivity.
Qed.

Lemma sgr_loop_attrs fuel params : ∀ i fg bg b s,
  ∃ s', sgr_loop fuel params i (with_attrs fg bg b s) = Ok s' ∧
        s' = with_attrs (current_fg s') (current_bg s') (bold s') s.
Proof.
  induction fuel as [|fuel IH]; intros i fg bg b s;
    [eexists; split; reflexivity|].
  cbn [sgr_loop]. destruct (params !! i) as [p|]; [|eexists; split; reflexivity].
  destruct (sgr_step_attrs params i p fg bg b s) as (s1 & i1 & -> & Hs1).
  rewrite bind_Ok.
  destruct (IH i1 (current_fg s1) (current_bg s1) (bold s1) s) as (s2 & H2 & Hs2).
  rewrite <- Hs1 in H2. by exists s2.
Qed.

(** The round at the head of the list, when it takes one parameter. *)
Lemma apply_sgr_head p rest s s1 :
  sgr_step (p :: rest) 0 p s = Ok (s1, 1%nat) →
  _apply_sgr (p :: rest) s = sgr_from rest 0 s1.
Proof.
  intros Hstep. rewrite apply_sgr_from, (sgr_from_step _ 0 p) by done.
  rewrite Hstep, bind_Ok. apply (sgr_from_shift [p] rest 0).
Qed.

Lemma apply_sgr_basic p rest s k :
  0 ≤ k < 16 →
  (30 ≤ p ≤ 37 ∧ k = p - 30 ∨ 90 ≤ p ≤ 97 ∧ k = p - 90 + 8) →
  _apply_sgr (p :: rest) s = _apply_sgr (38 :: 5 :: k :: rest) s.
Proof.
  intros Hk Hp. destruct (BASE_COLORS_get k Hk) as [c Hc].
  rewrite (apply_sgr_head p rest s (set_current_fg c s)).
  - pose proof (sgr_from_indexed 38 [] k rest s (or_introl eq_refl)) as Hidx.
    cbn [app length] in Hidx. rewrite (apply_sgr_from (38 :: _)), Hidx.
    unfold color_from_index. rewrite decide_False, decide_True by lia.
    by rewrite Hc, bind_Ok.
  - unfold sgr_step. rewrite !(decide_False (P := p = _)) by lia.
    destruct Hp as [[Hp ->]|[Hp ->]].
    + rewrite decide_True by done. by rewrite Hc.
    + rewrite decide_False, decide_True by lia. by rewrite Hc.
Qed.

Lemma apply_sgr_basic_bg p rest s k :
  0 ≤ k < 16 →
  (40 ≤ p ≤ 47 ∧ k = p - 40 ∨ 100 ≤ p ≤ 107 ∧ k = p - 100 + 8) →
  _apply_sgr (p :: rest) s = _apply_sgr (48 :: 5 :: k :: rest) s.
Proof.
  intros Hk Hp. destruct (BASE_COLORS_get k Hk) as [c Hc].
  rewrite (apply_sgr_head p rest s (set_current_bg c s)).
  - pose proof (sgr_from_indexed 48 [] k rest s (or_intror eq_refl)) as Hidx.
    cbn [app length] in Hidx. rewrite (apply_sgr_from (48 :: _)), Hidx.
    unfold color_from_index. rewrite decide_False, decide_True by lia.
    by rewrite Hc, bind_Ok.
  - unfold sgr_step. rewrite !(decide_False (P := p = _)) by lia.
    rewrite !(decide_False (P := 30 ≤ p ≤ 37)), !(decide_False (P := 90 ≤ p ≤ 97)) by lia.
    destruct Hp as [[Hp ->]|[Hp ->]].
    + rewrite decide_True by done. by rewrite Hc.
    + rewrite decide_False, decide_True by lia. by rewrite Hc.
Qed.
End rendition.

(** X9. [_apply_sgr] returns on every list of parameters and changes
    nothing but the foreground, the background and the bold flag; on the
    empty list it sets the three to their defaults. *)
Theorem apply_sgr_changes_attributes_only (params : list Z) (self : TerminalEmulator.t) :
  (∃ fg bg bold,
     TerminalEmulator._apply_sgr params self = Ok (with_attrs fg bg bold self)) ∧
  TerminalEmulator._apply_sgr [] self
    = Ok (with_attrs (230, 230, 230) (10, 12, 16) false self).
Proof.
  split; [|done]. unfold TerminalEmulator._apply_sgr.
  destruct (sgr_loop_attrs (length (match params with [] => [0] | _ => params end))
              (match params with [] => [0] | _ => params end) 0
              (TerminalEmulator.current_fg self) (TerminalEmulator.current_bg self)
              (TerminalEmulator.bold self) self) as (self' & Hrun & Hself').
  rewrite with_attrs_self in Hrun. rewrite Hrun, Hself'. by eexists _, _, _.
Qed.

(** X10. The codes of the sixteen base colours are short forms of the
    indexed colours: [30 .. 37] and [90 .. 97] set the foreground as
    [38;5;n] does for n in [0 .. 7] and [8 .. 15], [40 .. 47] and
    [100 .. 107] the background as [48;5;n] does; the parameters that
    follow are read alike. *)
Theorem sgr_base_colors_are_indexed_colors (p : Z) (rest : list Z)
    (self : TerminalEmulator.t) :
  (30 ≤ p ≤ 37 →
   TerminalEmulator._apply_sgr (p :: rest) self
     = TerminalEmulator._apply_sgr (38 :: 5 :: p - 30 :: rest) self) ∧
  (90 ≤ p ≤ 97 →
   TerminalEmulator._apply_sgr (p :: rest) self
     = TerminalEmulator._apply_sgr (38 :: 5 :: p - 90 + 8 :: rest) self) ∧
  (40 ≤ p ≤ 47 →
   TerminalEmulator._apply_sgr (p :: rest) self
     = TerminalEmulator._apply_sgr (48 :: 5 :: p - 40 :: rest) self) ∧
  (100 ≤ p ≤ 107 →
   TerminalEmulator._apply_sgr (p :: rest) self
     = TerminalEmulator._apply_sgr (48 :: 5 :: p - 100 + 8 :: rest) self).
Proof.
  split_and!; intros Hp.
  - apply apply_sgr_basic; [lia|by left].
  - apply apply_sgr_basic; [lia|by right].
  - apply apply_sgr_basic_bg; [lia|by left].
  - apply apply_sgr_basic_bg; [lia|by right].
Qed.

Lemma sgr_base_colors_are_indexed_colors_witness :
  TerminalEmulator._apply_sgr [94; 1] (TerminalEmulator.__init__ 2 1)
    = TerminalEmulator._apply_sgr [38; 5; 94 - 90 + 8; 1] (TerminalEmulator.__init__ 2 1).
Proof.
  apply (sgr_base_colors_are_indexed_colors 94 [1] (TerminalEmulator.__init__ 2 1)). lia.
Defined.

(** X11. A [38] or [48] that opens no complete form, neither [2] with
    three parameters after it nor [5] with one, is skipped alone: the
    parameters after it are read as codes of their own. *)
Theorem sgr_incomplete_extended_color (p : Z) (rest : list Z)
    (self : TerminalEmulator.t) :
  p = 38 ∨ p = 48 →
  (rest !! 0%nat = Some 2 → (length rest < 4)%nat) →
  (rest !! 0%nat = Some 5 → (length rest < 2)%nat) →
  TerminalEmulator._apply_sgr (p :: rest) self = TerminalEmulator.sgr_from rest 0 self.
Proof.
  intros Hp H2 H5. apply apply_sgr_head. unfold TerminalEmulator.sgr_step.
  repeat (rewrite decide_False by lia). rewrite decide_True by done.
  rewrite decide_False by (cbn; intros (_ & H & ?); apply H2 in H; lia).
  by rewrite decide_False by (cbn; intros (_ & H & ?); apply H5 in H; lia).
Qed.

Lemma sgr_incomplete_extended_color_witness :
  TerminalEmulator._apply_sgr [38; 2; 1; 41] (TerminalEmulator.__init__ 2 1)
    = Ok (with_attrs (230, 230, 230) (205, 49, 49) true (TerminalEmulator.__init__ 2 1)).
Proof.
  rewrite (sgr_incomplete_extended_color 38 [2; 1; 41]); [reflexivity|by left| |].
  - intros _. cbn. lia.
  - intros [=].
Defined.

(** ** Colours outside the table *)

Lemma BASE_COLORS_channels (idx : Z) (c : color) :
  py_get BASE_COLORS idx = Ok c →
  0 ≤ c.1.1 ≤ 255 ∧ 0 ≤ c.1.2 ≤ 255 ∧ 0 ≤ c.2 ≤ 255.
Proof.
  unfold py_get. destruct (py_norm (length BASE_COLORS) idx) as [k|]; [|done].
  destruct (BASE_COLORS !! k) as [c'|] eqn:Hk; [|done]. intros [= <-].
  revert Hk. generalize c'. apply Forall_lookup.
  repeat constructor; cbn; lia.
Qed.

Lemma level_channel (x : Z) : 0 ≤ x < 6 → 0 ≤ level x ≤ 255.
Proof. intros Hx. unfold level. case_decide; lia. Qed.

(** X12. [color_from_index] returns a colour with its three channels in
    [0 .. 255] for every integer, also outside [0 .. 255]: a negative
    index gives the white of the table, an index from 257 on the white
    (255, 255, 255). *)
Theorem color_from_index_every_integer (idx : Z) :
  ∃ r g b,
    color_from_index idx = Ok (r, g, b) ∧
    0 ≤ r ≤ 255 ∧ 0 ≤ g ≤ 255 ∧ 0 ≤ b ≤ 255 ∧
    (idx < 0 → (r, g, b) = (229, 229, 229)) ∧
    (257 ≤ idx → (r, g, b) = (255, 255, 255)).
Proof.
  unfold color_from_index.
  destruct (decide (idx < 0)).
  { exists 229, 229, 229. split_and!; (done || lia). }
  destruct (decide (idx < 16)).
  { destruct (BASE_COLORS_get idx) as [[[r g] b] Hc]; [lia|].
    exists r, g, b. pose proof (BASE_COLORS_channels _ _ Hc). cbn in *.
    split_and!; (done || lia). }
  destruct (decide (idx < 232)).
  { eexists _, _, _. split; [done|].
    split_and!; try lia; apply level_channel; Z.div_mod_to_equations; lia. }
  eexists _, _, _. split; [done|]. split_and!; try lia.
  intros Hidx. by rewrite Z.min_l, Z.max_r by lia.
Qed.

(** ** Escaped text *)

Lemma escape_char_markup (c : ascii) :
  Forall (λ c', ¬ markup_char c') (chars (escape_char c)).
Proof.
  unfold escape_char.
  repeat (destruct (decide _) as [?|?];
          [by (repeat constructor; intros [?|[?|[?|?]]])|]).
  apply Forall_singleton. by intros [?|[?|[?|?]]].
Qed.

Lemma escape_char_plain (c : ascii) : ¬ special_char c → escape_char c = str1 c.
Proof.
  unfold special_char, markup_char, escape_char. intros Hc.
  repeat (destruct (decide _) as [?|?]; [exfalso; apply Hc; tauto|]). done.
Qed.

Lemma escape_char_length (c : ascii) : (1 ≤ String.length (escape_char c))%nat.
Proof.
  unfold escape_char. repeat (destruct (decide _) as [?|?]; [cbn; lia|]). cbn; lia.
Qed.

(** X13. The text that [html.escape] returns holds none of the characters
    that open or close markup or end an attribute value; a text without
    these and without an ampersand is returned as it is, and no text gets
    shorter. *)
Theorem html_escape_leaves_no_markup (s : string) :
  Forall (λ c, ¬ markup_char c) (chars (html_escape s)) ∧
  (Forall (λ c, ¬ special_char c) (chars s) → html_escape s = s) ∧
  (String.length s ≤ String.length (html_escape s))%nat.
Proof.
  induction s as [|c s (IH1 & IH2 & IH3)]; [by repeat split|].
  cbn [html_escape]. split_and!.
  - rewrite chars_append. apply Forall_app. split; [apply escape_char_markup|done].
  - intros [Hc Hs]%Forall_cons. by rewrite escape_char_plain, IH2.
  - rewrite length_append. pose proof (escape_char_length c). cbn. lia.
Qed.

(** ** Erase in display *)

Section display.
Import TerminalEmulator.

Lemma feed_csi_final params final s :
  state s = normal → 0x40 ≤ ord final ≤ 0x7E →
  Forall csi_parameter_byte params →
  feed ([x1b; x5b] ++ params ++ [final]) s =
    (λ s', set_state normal s')
      <$> _handle_csi (chr final) (str_of_bytes params)
            (set_csi_buf (str_of_bytes params) (set_state csi s)).
Proof.
  intros Hstate Hfinal Hparams. cbn [app].
  rewrite (feed_cons_no_skip x1b _ s (set_state esc s))
    by (unfold feed_step; by rewrite Hstate).
  rewrite (feed_cons_no_skip x5b _ _
             (set_csi_buf (str_of_bytes []) (set_state csi s))) by done.
  rewrite csi_collects by done. cbn [app feed].
  unfold feed_step at 1. cbn.
  rewrite decide_True by (unfold ch_le; rewrite code_chr; exact Hfinal).
  by destruct (_handle_csi _ _ _).
Qed.
End display.

(** X14. ESC [ 2 J, fed in the normal state, leaves the emulator as a new
    one of the same dimensions: the grid is blank, and the cursor, the
    saved cursor and the attributes are reset with it. With no parameter,
    or with 0 or 1, ESC [ J changes nothing of the screen. *)
Theorem erase_display_is_reset (self : TerminalEmulator.t) :
  TerminalEmulator.state self = TerminalEmulator.normal →
  TerminalEmulator.feed [x1b; x5b; x32; x4a] self
    = Ok (TerminalEmulator.__init__ (TerminalEmulator.cols self)
            (TerminalEmulator.rows self)) ∧
  TerminalEmulator.feed [x1b; x5b; x4a] self = Ok (TerminalEmulator.set_csi_buf "" self) ∧
  TerminalEmulator.feed [x1b; x5b; x30; x4a] self
    = Ok (TerminalEmulator.set_csi_buf "0" self) ∧
  TerminalEmulator.feed [x1b; x5b; x31; x4a] self
    = Ok (TerminalEmulator.set_csi_buf "1" self).
Proof.
  intros Hstate.
  assert (∀ v, TerminalEmulator.set_state TerminalEmulator.normal
                 (TerminalEmulator.set_csi_buf v
                    (TerminalEmulator.set_state TerminalEmulator.csi self))
               = TerminalEmulator.set_csi_buf v self) as Hback.
  { intros v. destruct self. cbn in Hstate. by subst. }
  assert (∀ params, Forall csi_parameter_byte params →
            TerminalEmulator.feed (x1b :: x5b :: params ++ [x4a]) self
            = (λ s', TerminalEmulator.set_state TerminalEmulator.normal s')
                <$> TerminalEmulator._handle_csi "J" (str_of_bytes params)
                      (TerminalEmulator.set_csi_buf (str_of_bytes params)
                         (TerminalEmulator.set_state TerminalEmulator.csi self)))
    as Hfeed.
  { intros params. by apply (feed_csi_final params x4a self Hstate). }
  split_and!.
  - etrans; [apply (Hfeed [x32]); repeat constructor; unfold csi_parameter_byte; cbn; lia|done].
  - etrans; [apply (Hfeed []); constructor|]. by rewrite <- Hback.
  - etrans; [apply (Hfeed [x30]); repeat constructor; unfold csi_parameter_byte; cbn; lia|]. by rewrite <- Hback.
  - etrans; [apply (Hfeed [x31]); repeat constructor; unfold csi_parameter_byte; cbn; lia|]. by rewrite <- Hback.
Qed.

Lemma erase_display_is_reset_witness :
  TerminalEmulator.feed [x1b; x5b; x32; x4a]
    (TerminalEmulator.set_cx 1
       (TerminalEmulator.set_bold true (TerminalEmulator.__init__ 3 2)))
  = Ok (TerminalEmulator.__init__ 3 2).
Proof.
  apply (erase_display_is_reset
           (TerminalEmulator.set_cx 1
              (TerminalEmulator.set_bold true (TerminalEmulator.__init__ 3 2)))).
  reflexivity.
Defined.

(** ** Text between escape sequences *)

Section text.
Import TerminalEmulator.

Lemma with_text_intro s s' :
  cols s' = cols s → rows s' = rows s → saved s' = saved s →
  current_fg s' = current_fg s → current_bg s' = current_bg s → bold s' = bold s →
  state s' = state s → csi_buf s' = csi_buf s → osc_active s' = osc_active s →
  ∃ cells' x y, s' = with_text cells' x y s.
Proof.
  destruct s, s'. cbn. intros. subst. by eexists _, _, _.
Qed.

Lemma newline_text s s' :
  _newline s = Ok s' → ∃ cells' x y, s' = with_text cells' x y s.
Proof.
  unfold _newline. cbn. case_decide.
  - rewrite scroll_1. unfold scroll_once. cbn.
    destruct (cells s); [done|]. intros [= <-]. by apply with_text_intro.
  - intros [= <-]. by apply with_text_intro.
Qed.

Lemma put_char_text ch s s' :
  _put_char ch s = Ok s' → ∃ cells' x y, s' = with_text cells' x y s.
Proof.
  unfold _put_char. intros H.
  apply bind_Ok_inv in H as (s1 & H1 & H).
  apply bind_Ok_inv in H as (s2 & H2 & H).
  apply bind_Ok_inv in H as (s3 & H3 & H). injection H as <-.
  assert (∃ cells' x y, s1 = with_text cells' x y s) as (c1 & x1 & y1 & ->).
  { destruct (decide (cx s >= cols s)); [by apply newline_text|].
    injection H1 as <-. by apply with_text_intro. }
  assert (∃ cells' x y, s2 = with_text cells' x y s) as (c2 & x2 & y2 & ->).
  { destruct (decide _) in H2; [|injection H2 as <-; by apply with_text_intro].
    apply bind_Ok_inv in H2 as (s2' & H2' & H2). injection H2 as <-.
    rewrite scroll_1 in H2'. unfold scroll_once in H2'. cbn in H2'.
    destruct c1; [done|]. injection H2' as <-. by apply with_text_intro. }
  apply write_cell_inv in H3 as (k & row & j & _ & _ & _ & ->).
  by apply with_text_intro.
Qed.

Lemma feed_step_text b next s s' skip :
  state s = normal → ord b ≠ 0x1B → feed_step b next s = Ok (s', skip) →
  skip = false ∧ ∃ cells' x y, s' = with_text cells' x y s.
Proof.
  intros Hstate Hb H. unfold feed_step in H. cbn zeta in H. rewrite Hstate in H.
  apply bind_Ok_inv in H as (s1 & H1 & H). injection H as <- <-. split; [done|].
  rewrite decide_False in H1 by done.
  destruct (decide (ord b = 0x0D)); [injection H1 as <-; by apply with_text_intro|].
  destruct (decide (ord b = 0x0A)); [by apply newline_text|].
  destruct (decide (ord b = 0x08)); [injection H1 as <-; by apply with_text_intro|].
  destruct (decide (ord b = 0x09)); [injection H1 as <-; by apply with_text_intro|].
  destruct (decide (ord b = 0x07)); [injection H1 as <-; by apply with_text_intro|].
  destruct (decide (0x20 ≤ ord b ≤ 0x7E ∨ ord b >= 0xA0));
    [by eapply put_char_text|injection H1 as <-; by apply with_text_intro].
Qed.

Lemma feed_step_normal_next b next s :
  state s = normal → feed_step b next s = feed_step b None s.
Proof. intros Hstate. unfold feed_step. by rewrite Hstate. Qed.

Lemma feed_normal_cons b rest s :
  state s = normal → ord b ≠ 0x1B →
  feed (b :: rest) s = '(s1, _) ← feed_step b None s; feed rest s1.
Proof.
  intros Hstate Hb. cbn [feed]. rewrite (feed_step_normal_next b (head rest)) by done.
  destruct (feed_step b None s) as [[s1 skip]|e] eqn:Hstep; [|done].
  apply feed_step_text in Hstep as [-> _]; [|done..]. rewrite !bind_Ok.
  by destruct rest.
Qed.

Lemma feed_text_app text : ∀ tail s,
  state s = normal → Forall (λ b, ord b ≠ 0x1B) text →
  feed (text ++ tail) s = feed text s ≫= feed tail ∧
  ∀ s', feed text s = Ok s' → ∃ cells' x y, s' = with_text cells' x y s.
Proof.
  induction text as [|b text IH]; intros tail s Hstate Htext.
  { split; [done|]. intros s' [= <-]. by apply with_text_intro. }
  apply Forall_cons in Htext as [Hb Htext]. cbn [app].
  rewrite !feed_normal_cons by done.
  destruct (feed_step b None s) as [[s1 skip]|e] eqn:Hstep; [|by split].
  rewrite !bind_Ok.
  apply feed_step_text in Hstep as [_ (c1 & x1 & y1 & ->)]; [|done..].
  destruct (IH tail (with_text c1 x1 y1 s) Hstate Htext) as [Happ Hframe].
  split; [done|]. intros s' (c2 & x2 & y2 & ->)%Hframe. by apply with_text_intro.
Qed.
End text.

(** X15. Bytes without an ESC, fed in the normal state, change the grid and
    the cursor only: the dimensions, the saved cursor, the attributes and
    the state of the parser are as before. *)
Theorem text_changes_grid_and_cursor_only (text : list byte)
    (self self' : TerminalEmulator.t) :
  TerminalEmulator.state self = TerminalEmulator.normal →
  Forall (λ b, ord b ≠ 0x1B) text →
  TerminalEmulator.feed text self = Ok self' →
  ∃ cells x y, self' = with_text cells x y self.
Proof.
  intros Hstate Htext Hfeed.
  by apply (proj2 (feed_text_app text [] self Hstate Htext)).
Qed.

Lemma text_changes_grid_and_cursor_only_witness :
  match TerminalEmulator.feed [x41; x0a; x09; x42; x08; x0d]
          (TerminalEmulator.set_bold true (TerminalEmulator.__init__ 3 1)) with
  | Ok self' =>
      ∃ cells x y,
        self' = with_text cells x y
                  (TerminalEmulator.set_bold true (TerminalEmulator.__init__ 3 1))
  | Raise _ => False
  end.
Proof.
  destruct (TerminalEmulator.feed _ _) as [self'|e] eqn:Hfeed;
    [|vm_compute in Hfeed; discriminate].
  apply (text_changes_grid_and_cursor_only [x41; x0a; x09; x42; x08; x0d]
           (TerminalEmulator.set_bold true (TerminalEmulator.__init__ 3 1)) self');
    [reflexivity| |exact Hfeed].
  repeat constructor; by vm_compute.
Defined.

(** X16. ESC [ s and ESC [ u bracket a text: after ESC [ s, bytes without
    an ESC, and ESC [ u, all fed in the normal state, the cursor is where
    it was before, whatever the text wrote and however far it scrolled. *)
Theorem cursor_save_restore (text : list byte) (self self' : TerminalEmulator.t) :
  TerminalEmulator.state self = TerminalEmulator.normal →
  Forall (λ b, ord b ≠ 0x1B) text →
  TerminalEmulator.feed ([x1b; x5b; x73] ++ text ++ [x1b; x5b; x75]) self = Ok self' →
  TerminalEmulator.cx self' = TerminalEmulator.cx self ∧
  TerminalEmulator.cy self' = TerminalEmulator.cy self ∧
  TerminalEmulator.saved self'
    = Some (TerminalEmulator.cx self, TerminalEmulator.cy self).
Proof.
  intros Hstate Htext Hfeed. cbn [app] in Hfeed.
  rewrite (feed_cons_no_skip x1b _ self
             (TerminalEmulator.set_state TerminalEmulator.esc self)) in Hfeed
    by (unfold TerminalEmulator.feed_step; by rewrite Hstate).
  rewrite (feed_cons_no_skip x5b _ _
             (TerminalEmulator.set_csi_buf ""
                (TerminalEmulator.set_state TerminalEmulator.csi
                   (TerminalEmulator.set_state TerminalEmulator.esc self)))) in Hfeed
    by done.
  set (s3 := TerminalEmulator.set_state TerminalEmulator.normal
               (TerminalEmulator.set_saved
                  (Some (TerminalEmulator.cx self, TerminalEmulator.cy self))
                  (TerminalEmulator.set_csi_buf ""
                     (TerminalEmulator.set_state TerminalEmulator.csi
                        (TerminalEmulator.set_state TerminalEmulator.esc self))))).
  rewrite (feed_cons_no_skip x73 _ _ s3) in Hfeed by done.
  destruct (feed_text_app text [x1b; x5b; x75] s3 eq_refl Htext) as [Happ Hframe].
  rewrite Happ in Hfeed. apply bind_Ok_inv in Hfeed as (s4 & Htext4 & Hfeed).
  apply Hframe in Htext4 as (c4 & x4 & y4 & ->).
  cbn in Hfeed. injection Hfeed as <-. done.
Qed.

Lemma cursor_save_restore_witness :
  match TerminalEmulator.feed ([x1b; x5b; x73] ++ [x41; x0a; x42] ++ [x1b; x5b; x75])
          (TerminalEmulator.__init__ 3 2) with
  | Ok self' => TerminalEmulator.cx self' = 0 ∧ TerminalEmulator.cy self' = 0
  | Raise _ => False
  end.
Proof.
  destruct (TerminalEmulator.feed _ _) as [self'|e] eqn:Hfeed;
    [|vm_compute in Hfeed; discriminate].
  destruct (cursor_save_restore [x41; x0a; x42] (TerminalEmulator.__init__ 3 2) self'
              eq_refl) as (Hx & Hy & _); [|exact Hfeed|by split].
  repeat constructor; by vm_compute.
Defined.

(** ** The end of a row *)

(** X17. The wrap at the end of a row is deferred: after as many printable
    bytes as there are columns the cursor stands past the last column, on
    row 0 still; the next printable byte goes to column 0 of row 1, and
    row 0 keeps the text. *)
Theorem wrap_is_deferred (cols rows : Z) (data : list byte) (b : byte) :
  1 ≤ cols → 2 ≤ rows → Z.of_nat (length data) = cols →
  Forall (λ b, 0x20 ≤ ord b ≤ 0x7E) data → 0x20 ≤ ord b ≤ 0x7E →
  let text := (λ b, Cell.mk (str1 (chr b)) (230, 230, 230) (10, 12, 16) false) <$> data in
  ∃ self' self'',
    TerminalEmulator.feed data (TerminalEmulator.__init__ cols rows) = Ok self' ∧
    TerminalEmulator.cx self' = cols ∧ TerminalEmulator.cy self' = 0 ∧
    TerminalEmulator.feed (data ++ [b]) (TerminalEmulator.__init__ cols rows) = Ok self'' ∧
    TerminalEmulator.cx self'' = 1 ∧ TerminalEmulator.cy self'' = 1 ∧
    TerminalEmulator.cells self'' !! 0%nat = Some text ∧
    TerminalEmulator.cells self'' !! 1%nat =
      Some (Cell.mk (str1 (chr b)) (230, 230, 230) (10, 12, 16) false
            :: replicate (Z.to_nat cols - 1) Cell.blank).
Proof.
  intros Hcols Hrows Hlen Hdata Hb text.
  set (row0 := replicate (Z.to_nat cols) Cell.blank).
  set (init := TerminalEmulator.__init__ cols rows).
  assert (TerminalEmulator.cells init
          = row0 :: row0 :: replicate (Z.to_nat rows - 2) row0) as Hcells.
  { cbn. unfold TerminalEmulator.repeated.
    by replace (Z.to_nat rows) with (S (S (Z.to_nat rows - 2))) at 1 by lia. }
  assert (length row0 = length data) as Hrow0
    by (subst row0; rewrite length_replicate; lia).
  pose proof (feed_printable data init 0%nat row0 _ Hdata eq_refl Hcells eq_refl eq_refl
                ltac:(lia)
                ltac:(change (TerminalEmulator.cols init) with cols; lia)
                ltac:(change (TerminalEmulator.rows init) with rows; lia))
    as Hfeed.
  cbn [Nat.add take app] in Hfeed.
  rewrite <- Hrow0, drop_all, app_nil_r in Hfeed. fold text in Hfeed.
  eexists _, _. split; [exact Hfeed|]. split; [cbn; lia|]. split; [done|].
  assert (Forall (λ b, ord b ≠ 0x1B) data) as Hnoesc.
  { eapply Forall_impl; [exact Hdata|]. cbn. lia. }
  rewrite (proj1 (feed_text_app data [b] init eq_refl Hnoesc)), Hfeed, bind_Ok.
  cbn [TerminalEmulator.feed head]. unfold TerminalEmulator.feed_step. cbn zeta.
  cbn [TerminalEmulator.state TerminalEmulator.set_cx TerminalEmulator.set_cells init
       TerminalEmulator.__init__ TerminalEmulator.reset].
  repeat (rewrite decide_False by lia). rewrite decide_True by lia.
  unfold TerminalEmulator._put_char.
  rewrite decide_True by (cbn; lia). unfold TerminalEmulator._newline. cbn zeta.
  rewrite decide_False by (cbn; lia). rewrite bind_Ok.
  rewrite decide_False by (cbn; lia). rewrite bind_Ok.
  unfold TerminalEmulator.write_cell. cbn.
  rewrite (py_get_Ok _ 1 row0), bind_Ok by done.
  rewrite py_set_Ok, bind_Ok by (subst row0; rewrite length_replicate; lia).
  rewrite py_set_Ok, bind_Ok
    by (cbn; rewrite length_replicate; lia).
  split; [reflexivity|]. cbn. split_and!; try done.
  subst row0. destruct (Z.to_nat cols) as [|n] eqn:Hn; [lia|].
  cbn. by rewrite Nat.sub_0_r.
Qed.

Lemma wrap_is_deferred_witness :
  ∃ self' self'',
    TerminalEmulator.feed [x61; x62] (TerminalEmulator.__init__ 2 2) = Ok self' ∧
    TerminalEmulator.cx self' = 2 ∧ TerminalEmulator.cy self' = 0 ∧
    TerminalEmulator.feed ([x61; x62] ++ [x63]) (TerminalEmulator.__init__ 2 2)
      = Ok self'' ∧
    TerminalEmulator.cx self'' = 1 ∧ TerminalEmulator.cy self'' = 1 ∧
    TerminalEmulator.cells self'' !! 0%nat =
      Some [Cell.mk "a" (230, 230, 230) (10, 12, 16) false;
            Cell.mk "b" (230, 230, 230) (10, 12, 16) false] ∧
    TerminalEmulator.cells self'' !! 1%nat =
      Some [Cell.mk "c" (230, 230, 230) (10, 12, 16) false; Cell.blank].
Proof.
  apply (wrap_is_deferred 2 2 [x61; x62] x63); try (cbn; lia).
  repeat constructor; cbn; lia.
Defined.

(** ** Colours in the document *)

Lemma byte_of_channel (n : Z) : 0 ≤ n ≤ 255 → ∃ b : byte, n = ord b.
Proof.
  intros Hn. destruct (Byte.of_N (Z.to_N n)) as [b|] eqn:Hb.
  - exists b. apply Byte.to_of_N in Hb. unfold ord. lia.
  - apply Byte.of_N_None_iff in Hb. lia.
Qed.

Lemma format_02x_byte (b : byte) :
  String.length (format_02x (ord b)) = 2%nat ∧
  hex_value (format_02x (ord b)) = Some (Byte.to_N b).
Proof. destruct b; split; reflexivity. Qed.

Lemma format_02x_inj (m n : Z) :
  0 ≤ m ≤ 255 → 0 ≤ n ≤ 255 → format_02x m = format_02x n → m = n.
Proof.
  intros [a ->]%byte_of_channel [b ->]%byte_of_channel Heq.
  pose proof (proj2 (format_02x_byte a)) as Ha.
  rewrite Heq, (proj2 (format_02x_byte b)) in Ha. injection Ha as Ha.
  unfold ord. by rewrite Ha.
Qed.

Lemma append_inj_length (a a' x x' : string) :
  String.length a = String.length a' → a +:+ x = a' +:+ x' → a = a' ∧ x = x'.
Proof.
  revert a'. induction a as [|c a IH]; intros [|c' a'] Hlen; try done.
  rewrite !append_cons. intros [= -> Heq]. cbn in Hlen.
  destruct (IH a') as [-> ->]; [lia|done|done].
Qed.

(** X18. For a colour with its channels in [0 .. 255] [rgb_hex] gives a
    text of seven characters, one for each such colour; a channel outside
    that range, which [38;2;r;g;b] can set, gives a longer text that other
    colours give too. *)
Theorem rgb_hex_of_byte_channels (c c' : color) :
  byte_channels c → byte_channels c' →
  String.length (rgb_hex c) = 7%nat ∧
  (rgb_hex c = rgb_hex c' → c = c') ∧
  rgb_hex (16, 256, 0) = rgb_hex (257, 0, 0).
Proof.
  destruct c as [[r g] b], c' as [[r' g'] b'].
  intros (Hr & Hg & Hb) (Hr' & Hg' & Hb'). cbn in *.
  assert (∀ n, 0 ≤ n ≤ 255 → String.length (format_02x n) = 2%nat) as Hlen.
  { intros n [a ->]%byte_of_channel. apply format_02x_byte. }
  split_and!; [|intros Heq|done].
  - rewrite append_cons, append_nil_l. cbn [String.length].
    rewrite !length_append, !Hlen by done. done.
  - rewrite !append_cons, !append_nil_l in Heq. injection Heq as Heq.
    apply append_inj_length in Heq as [Hr'' Heq]; [|by rewrite !Hlen].
    apply append_inj_length in Heq as [Hg'' Hb'']; [|by rewrite !Hlen].
    by rewrite (format_02x_inj r r'), (format_02x_inj g g'), (format_02x_inj b b').
Qed.

Lemma rgb_hex_of_byte_channels_witness :
  String.length (rgb_hex (10, 12, 16)) = 7%nat ∧
  (rgb_hex (10, 12, 16) = rgb_hex (230, 230, 230) → (10, 12, 16) = (230, 230, 230)) ∧
  rgb_hex (16, 256, 0) = rgb_hex (257, 0, 0).
Proof. apply rgb_hex_of_byte_channels; unfold byte_channels; cbn; lia. Defined.

(** ** The text of a row *)

Lemma append_assoc (a b c : string) : (a +:+ b) +:+ c = a +:+ (b +:+ c).
Proof.
  induction a as [|x a IH]; [by rewrite !append_nil_l|].
  by rewrite !append_cons, IH.
Qed.

Lemma join_run_head st text runs :
  ∃ text' rest, join_run st text runs = (st, text') :: rest.
Proof.
  destruct runs as [|[st' text'] runs]; cbn; [by eexists _, _|].
  case_decide; by eexists _, _.
Qed.

Lemma join_run_join st a b runs :
  join_run st a (join_run st b runs) = join_run st (a +:+ b) runs.
Proof.
  destruct runs as [|[st' text'] runs]; cbn.
  - by rewrite decide_True.
  - destruct (decide (st' = st)) as [->|Hne]; cbn.
    + by rewrite decide_True, append_assoc.
    + by rewrite decide_True.
Qed.

Lemma join_run_other st st' a b runs :
  st' ≠ st → join_run st a (join_run st' b runs) = (st, a) :: join_run st' b runs.
Proof.
  intros Hne. destruct (join_run_head st' b runs) as (text' & rest & ->).
  cbn. by rewrite decide_False.
Qed.

Lemma tspans_cons run runs : tspans (run :: runs) = tspans [run] ++ tspans runs.
Proof.
  unfold tspans. rewrite !filter_cons, filter_nil. by case_decide.
Qed.

Lemma tspans_no_text st : tspans [(st, EmptyString)] = [].
Proof. unfold tspans. rewrite filter_cons, filter_nil. by rewrite decide_False by (by intros []). Qed.

Lemma flush_spec st :
  flush st =
    mk_run (current_fg st) (current_bold st) EmptyString
      (emitted st ++ tspans [((current_fg st, current_bold st), buffer st)]).
Proof.
  destruct st as [fg b buf em]. unfold flush. cbn [current_fg current_bold buffer emitted].
  destruct (decide (buf = EmptyString)) as [->|Hbuf].
  - by rewrite tspans_no_text, app_nil_r.
  - unfold tspans. rewrite filter_cons, filter_nil. by rewrite decide_True.
Qed.

Lemma foldl_text_cell_runs row : ∀ st,
  emitted (flush (foldl text_cell st row)) =
    emitted st
    ++ tspans (join_run (current_fg st, current_bold st) (buffer st) (style_runs row)).
Proof.
  induction row as [|cell row IH]; intros st.
  - cbn [foldl style_runs join_run]. by rewrite flush_spec.
  - cbn [foldl style_runs]. rewrite IH. unfold text_cell. fold (shown_ch cell).
    destruct (decide (Some (Cell.fg cell) ≠ current_fg st
                      ∨ Cell.bold cell ≠ current_bold st)) as [Hd|Hs].
    + rewrite flush_spec. cbn [current_fg current_bold buffer emitted].
      rewrite append_nil_l.
      rewrite (join_run_other (current_fg st, current_bold st))
        by (intros [= H1 H2]; destruct Hd; congruence).
      by rewrite (tspans_cons _ (join_run _ _ _)), app_assoc.
    + cbn [current_fg current_bold buffer emitted].
      destruct (decide (Some (Cell.fg cell) = current_fg st)) as [Hfg|];
        [|by destruct Hs; left].
      destruct (decide (Cell.bold cell = current_bold st)) as [Hbold|];
        [|by destruct Hs; right].
      by rewrite Hfg, Hbold, join_run_join.
Qed.

Lemma alternating_join st text runs : alternating runs → alternating (join_run st text runs).
Proof.
  destruct runs as [|[st' text'] runs]; cbn; [done|].
  destruct (decide (st' = st)) as [->|Hne]; cbn; [done|].
  intros Hruns. split; [congruence|done].
Qed.

Lemma joined_join st text runs :
  joined (snd <$> join_run st text runs) = text +:+ joined (snd <$> runs).
Proof.
  destruct runs as [|[st' text'] runs]; cbn; [done|].
  case_decide; cbn; [by rewrite append_assoc|done].
Qed.

(** X19. The text block of a row holds, between its opening and its
    closing line, one [tspan] for each run of consecutive cells with the
    same foreground and weight, in order, with the escaped characters of
    the run; a run of cells that show nothing has none. The runs are the
    longest ones, and they hold the characters of the row in order. *)
Theorem text_block_of_a_row (cell_h padding y : Z) (row : list Cell.t) :
  text_lines_row cell_h padding y row
    = text_open cell_h padding y :: tspans (style_runs row) ++ ["  </text>"] ∧
  alternating (style_runs row) ∧
  joined (snd <$> style_runs row) = joined (shown_ch <$> row).
Proof.
  split_and!.
  - unfold text_lines_row. rewrite foldl_text_cell_runs.
    cbn [current_fg current_bold buffer emitted app]. do 2 f_equal.
    destruct row as [|cell row]; [apply tspans_no_text|].
    cbn [style_runs]. rewrite join_run_other by done.
    by rewrite tspans_cons, tspans_no_text.
  - induction row as [|cell row IH]; [done|]. by apply alternating_join.
  - induction row as [|cell row IH]; [done|].
    cbn [style_runs fmap list_fmap]. rewrite joined_join. cbn. by rewrite IH.
Qed.

(** ** Control sequences without a branch *)

Lemma superscript_free_bytes (bs : list byte) :
  Forall plain_byte bs → superscript_free (str_of_bytes bs).
Proof.
  intros Hbs. unfold superscript_free, str_of_bytes, chars.
  rewrite list_ascii_of_string_of_list_ascii. apply Forall_fmap.
  eapply Forall_impl; [exact Hbs|]. intros b (H2 & H3 & H9). cbn.
  unfold char_isdigit. rewrite code_chr.
  destruct (is_decimal (chr b)); [done|]. cbn.
  intros H%bool_decide_eq_true. tauto.
Qed.

Lemma length_str_of_bytes (bs : list byte) :
  String.length (str_of_bytes bs) = length bs.
Proof.
  unfold str_of_bytes. rewrite <- (length_fmap chr bs).
  induction (chr <$> bs) as [|c cs IH]; [done|]. cbn. by rewrite IH.
Qed.

(** X20. A control sequence whose final byte has no branch in
    [_handle_csi], such as ESC [ ? 2 5 l, is ignored: fed in the normal
    state, with parameter bytes other than 0xB2, 0xB3 and 0xB9 and no more
    of them than [int] converts digits, it changes nothing but [csi_buf],
    which keeps the parameters. *)
Theorem unhandled_csi_is_ignored (params : list byte) (final : byte)
    (self : TerminalEmulator.t) :
  TerminalEmulator.state self = TerminalEmulator.normal →
  Forall csi_parameter_byte params → Forall plain_byte params →
  (length params ≤ int_max_str_digits)%nat →
  0x40 ≤ ord final ≤ 0x7E → chr final ∉ handled_finals →
  TerminalEmulator.feed ([x1b; x5b] ++ params ++ [final]) self
    = Ok (TerminalEmulator.set_csi_buf (str_of_bytes params) self).
Proof.
  intros Hstate Hparams Hplain Hlen Hfinal Hnot.
  rewrite feed_csi_final by done.
  destruct (csi_ints_Ok (str_of_bytes params)) as [ints Hints];
    [by apply superscript_free_bytes|by rewrite length_str_of_bytes|].
  unfold TerminalEmulator._handle_csi. rewrite Hints, bind_Ok.
  unfold handled_finals in Hnot.
  repeat (apply not_elem_of_cons in Hnot as [? Hnot]).
  rewrite decide_False by (by intros [?|?]).
  repeat (rewrite decide_False by done).
  cbn. destruct self. cbn in Hstate. by subst.
Qed.

Lemma unhandled_csi_is_ignored_witness :
  TerminalEmulator.feed ([x1b; x5b] ++ [x3f; x32; x35] ++ [x6c])
    (TerminalEmulator.__init__ 2 1)
  = Ok (TerminalEmulator.set_csi_buf "?25" (TerminalEmulator.__init__ 2 1)).
Proof.
  apply (unhandled_csi_is_ignored [x3f; x32; x35] x6c (TerminalEmulator.__init__ 2 1)).
  - reflexivity.
  - repeat constructor; unfold csi_parameter_byte; cbn; lia.
  - repeat constructor; cbn; lia.
  - unfold int_max_str_digits. cbn. lia.
  - cbn; lia.
  - unfold handled_finals. repeat (apply not_elem_of_cons; split; [done|]).
    apply not_elem_of_nil.
Defined.

(** ** Drawing on a screen *)

Section drawing.
Import TerminalEmulator.

Lemma for_each_list {A S} (I : list A → S → Prop) (body : A → S → result S) xs :
  ∀ pre s,
    I pre s →
    (∀ pre x s, x ∈ xs → I pre s → ∃ s', body x s = Ok s' ∧ I (pre ++ [x]) s') →
    ∃ s', for_each xs body s = Ok s' ∧ I (pre ++ xs) s'.
Proof.
  induction xs as [|x xs IH]; intros pre s Hs Hbody.
  - exists s. by rewrite app_nil_r.
  - destruct (Hbody pre x s) as (s1 & Hs1 & HI1); [by left|done|].
    cbn [for_each]. rewrite Hs1, bind_Ok.
    destruct (IH (pre ++ [x]) s1 HI1) as (s2 & Hs2 & HI2).
    { intros pre' x' t Hx'. apply Hbody. by right. }
    exists s2. split; [done|]. by rewrite <- app_assoc in HI2.
Qed.

Lemma cell_at_Some s r q c :
  rectangular s → cell_at s r q = Some c → 0 ≤ r < rows s ∧ 0 ≤ q < cols s.
Proof.
  intros [Hh Hw]. unfold cell_at. case_decide as Hrq; [|done].
  destruct (cells s !! Z.to_nat r) as [row|] eqn:Hrow; [|done]. cbn.
  intros Hq. apply lookup_lt_Some in Hq.
  pose proof (lookup_lt_Some _ _ _ Hrow).
  rewrite (proj1 (Forall_lookup _ _) Hw _ _ Hrow) in Hq. lia.
Qed.

Lemma cell_at_is_Some s r q :
  rectangular s → 0 ≤ r < rows s → 0 ≤ q < cols s → is_Some (cell_at s r q).
Proof.
  intros [Hh Hw] Hr Hq. unfold cell_at. rewrite decide_True by lia.
  destruct (lookup_lt_is_Some_2 (cells s) (Z.to_nat r)) as [row Hrow]; [lia|].
  rewrite Hrow. cbn. apply lookup_lt_is_Some_2.
  rewrite (proj1 (Forall_lookup _ _) Hw _ _ Hrow). lia.
Qed.

Lemma painted_refl s : rectangular s → painted (λ _ _ old, old) s s.
Proof.
  intros Hs. split_and!; [done|by exists (cells s); destruct s|].
  intros r q. by destruct (cell_at s r q).
Qed.

Lemma painted_ext g g' s s' :
  (∀ r q old, cell_at s r q = Some old → g r q old = g' r q old) →
  painted g s s' → painted g' s s'.
Proof.
  intros Hext (Hrect & Hcells & Hat). split_and!; [done..|].
  intros r q. rewrite Hat. destruct (cell_at s r q) as [old|] eqn:Hold; [|done].
  cbn. f_equal. by apply Hext.
Qed.

Lemma painted_write g s t y x c :
  rectangular s → painted g s t → 0 ≤ y < rows s → 0 ≤ x < cols s →
  ∃ t', write_cell y x c t = Ok t' ∧
        painted (λ r q old, if decide (r = y ∧ q = x) then c else g r q old) s t'.
Proof.
  intros Hs ([Hh Hw] & [cells1 ->] & Hat) Hy Hx. cbn in Hh, Hw.
  destruct (lookup_lt_is_Some_2 cells1 (Z.to_nat y)) as [row Hrow]; [lia|].
  pose proof (proj1 (Forall_lookup _ _) Hw _ _ Hrow) as Hlen. cbn in Hlen.
  eexists. split.
  { unfold write_cell. cbn.
    rewrite (py_get_Ok _ _ row), bind_Ok by (done || lia).
    rewrite py_set_Ok, bind_Ok by lia. rewrite py_set_Ok, bind_Ok by lia. done. }
  split_and!.
  - split; cbn; [by rewrite length_insert|].
    apply Forall_insert; [done|]. by rewrite length_insert.
  - by eexists.
  - intros r q. destruct (decide (r = y ∧ q = x)) as [[-> ->]|Hne].
    + destruct (cell_at_is_Some s y x) as [old ->]; [done..|]. cbn.
      unfold cell_at. cbn.
      rewrite decide_True by lia. rewrite list_lookup_insert_eq by lia. cbn.
      by rewrite list_lookup_insert_eq by lia.
    + transitivity (cell_at (set_cells cells1 s) r q).
      { unfold cell_at. cbn. case_decide; [|done].
        destruct (decide (Z.to_nat r = Z.to_nat y)) as [Hry|Hry].
        - rewrite Hry, list_lookup_insert_eq by lia. rewrite Hrow. cbn.
          by rewrite list_lookup_insert_ne by lia.
        - by rewrite list_lookup_insert_ne. }
      rewrite Hat. destruct (cell_at s r q); [|done].
      done.
Qed.

Local Ltac paint_cases :=
  repeat case_decide; try done; exfalso;
  rewrite ?elem_of_app, ?list_elem_of_singleton, ?elem_of_py_range, ?elem_of_nil in *;
  intuition lia.

Lemma paint_row g s t yy x x' c :
  rectangular s → painted g s t → 0 ≤ yy < rows s → 0 ≤ x → x' ≤ cols s →
  ∃ t', for_each (py_range x x') (λ xx t, write_cell yy xx c t) t = Ok t' ∧
        painted (λ r q old, if decide (r = yy ∧ x ≤ q < x') then c else g r q old) s t'.
Proof.
  intros Hs Ht Hyy Hx Hx'.
  destruct (for_each_list
              (λ pre t', painted (λ r q old, if decide (r = yy ∧ q ∈ pre) then c
                                             else g r q old) s t')
              (λ xx t, write_cell yy xx c t) (py_range x x') [] t)
    as (t' & Hrun & Hpaint).
  - eapply painted_ext; [|exact Ht]. intros r q old _. paint_cases.
  - intros pre xx t1 Hxx%elem_of_py_range Ht1.
    destruct (painted_write _ s t1 yy xx c Hs Ht1) as (t2 & Hw & Ht2); [done|lia|].
    exists t2. split; [done|]. eapply painted_ext; [|exact Ht2].
    intros r q old _. cbn beta. paint_cases.
  - exists t'. split; [done|]. eapply painted_ext; [|exact Hpaint].
    intros r q old _. cbn beta. paint_cases.
Qed.

Lemma fill_rect_painted x y w h ch fg bg bold s :
  rectangular s → 0 ≤ x → 0 ≤ y →
  ∃ s', fill_rect x y w h ch fg bg bold s = Ok s' ∧
        painted (λ r q old, if decide (y ≤ r < y + h ∧ x ≤ q < x + w)
                            then Cell.mk ch fg bg bold else old) s s'.
Proof.
  intros Hs Hx Hy. unfold fill_rect.
  set (c := Cell.mk ch fg bg bold).
  destruct (for_each_list
              (λ pre t, painted (λ r q old,
                                   if decide (r ∈ pre ∧ x ≤ q < Z.min (cols s) (x + w))
                                   then c else old) s t)
              (λ yy screen,
                 for_each (py_range x (Z.min (cols screen) (x + w)))
                   (λ xx screen, write_cell yy xx c screen) screen)
              (py_range y (Z.min (rows s) (y + h))) [] s)
    as (s' & Hrun & Hpaint).
  - eapply painted_ext; [|by apply painted_refl]. intros r q old _. paint_cases.
  - intros pre yy t Hyy%elem_of_py_range Ht.
    assert (cols t = cols s) as -> by (by destruct Ht as (_ & [? ->] & _)).
    destruct (paint_row _ s t yy x (Z.min (cols s) (x + w)) c Hs Ht)
      as (t' & Hrow & Ht'); [lia..|].
    exists t'. split; [done|]. eapply painted_ext; [|exact Ht'].
    intros r q old _. cbn beta. paint_cases.
  - exists s'. split; [done|]. eapply painted_ext; [|exact Hpaint].
    intros r q old [Hr Hq]%cell_at_Some; [|done]. cbn beta. paint_cases.
Qed.

Lemma cell_at_py_get s y x c :
  0 ≤ y → 0 ≤ x → cell_at s y x = Some c →
  ∃ row, py_get (cells s) y = Ok row ∧ py_get row x = Ok c.
Proof.
  intros Hy Hx. unfold cell_at. rewrite decide_True by done.
  destruct (cells s !! Z.to_nat y) as [row|] eqn:Hrow; [|done]. cbn. intros Hc.
  exists row. split; by apply py_get_Ok.
Qed.

Lemma draw_text_loop x y fg bg bold s l : ∀ k g t,
  rectangular s → 0 ≤ y < rows s → 0 ≤ k → painted g s t →
  (∀ q old, cell_at s y q = Some old → x + k ≤ q → g y q old = old) →
  ∃ t', for_each (enumerate_from k l) (draw_text_cell x y fg bg bold) t = Ok t' ∧
        painted (λ r q old, if decide (r = y ∧ x + k ≤ q)
                            then drawn (x + k) y l fg bg bold r q old
                            else g r q old) s t'.
Proof.
  induction l as [|ch l IH]; intros k g t Hs Hy Hk Ht Hg.
  { exists t. split; [done|]. eapply painted_ext; [|exact Ht].
    intros r q old Hold. cbn beta. unfold drawn. case_decide as H; [|done].
    destruct H as [-> ?]. rewrite lookup_nil. by apply Hg. }
  cbn [enumerate_from for_each].
  assert (∃ t1 g1,
            draw_text_cell x y fg bg bold (k, ch) t = Ok t1 ∧ painted g1 s t1 ∧
            ∀ r q old, cell_at s r q = Some old →
              g1 r q old =
                if decide (r = y ∧ q = x + k)
                then Cell.mk (str1 ch) fg (default (Cell.bg old) bg) bold
                else g r q old) as (t1 & g1 & -> & Ht1 & Hg1).
  { unfold draw_text_cell.
    assert (cols t = cols s) as -> by (by destruct Ht as (_ & [? ->] & _)).
    destruct (decide (0 ≤ x + k < cols s)) as [Hxx|Hxx].
    - destruct (cell_at_is_Some s y (x + k) Hs Hy Hxx) as [old0 Hold0].
      assert (cell_at t y (x + k) = Some old0) as Hcur.
      { destruct Ht as (_ & _ & Hat). rewrite Hat, Hold0. cbn. f_equal.
        apply Hg; [done|lia]. }
      apply cell_at_py_get in Hcur as (row & Hrow & Hcell); [|lia..].
      set (cell_bg := default (Cell.bg old0) bg).
      assert ((match bg with
               | Some bg => Ok bg
               | None => row ← py_get (cells t) y; c ← py_get row (x + k); Ok (Cell.bg c)
               end) = Ok cell_bg) as ->.
      { subst cell_bg. destruct bg as [b|]; [done|]. by rewrite Hrow, bind_Ok, Hcell. }
      rewrite bind_Ok.
      destruct (painted_write g s t y (x + k) (Cell.mk (str1 ch) fg cell_bg bold) Hs Ht)
        as (t1 & -> & Ht1); [done..|].
      eexists t1, _. split; [done|]. split; [exact Ht1|].
      intros r q old Hold. cbn beta. case_decide as H; [|done].
      destruct H as [-> ->]. subst cell_bg. congruence.
    - exists t, g. split; [done|]. split; [done|].
      intros r q old [Hr Hq]%cell_at_Some; [|done]. rewrite decide_False; [done|lia]. }
  rewrite bind_Ok.
  destruct (IH (k + 1) g1 t1 Hs Hy ltac:(lia) Ht1) as (t' & Hrun & Ht').
  { intros q old Hold Hq. rewrite Hg1 by done.
    rewrite decide_False by lia. apply Hg; [done|lia]. }
  exists t'. split; [done|]. eapply painted_ext; [|exact Ht'].
  intros r q old Hold. cbn beta. unfold drawn.
  destruct (decide (r = y ∧ x + (k + 1) ≤ q)) as [[-> Hq]|Hne].
  - rewrite !decide_True by lia.
    replace (Z.to_nat (q - (x + k))) with (S (Z.to_nat (q - (x + (k + 1))))) by lia.
    done.
  - rewrite Hg1 by done.
    destruct (decide (r = y ∧ q = x + k)) as [[-> ->]|Hne'].
    + rewrite !decide_True by lia. by rewrite Z.sub_diag.
    + destruct (decide (r = y ∧ x + k ≤ q)); [lia|done].
Qed.

Lemma draw_text_painted x y text fg bg bold s :
  rectangular s →
  ∃ s', draw_text x y text fg bg bold s = Ok s' ∧
        painted (drawn x y (chars text) fg bg bold) s s'.
Proof.
  intros Hs. unfold draw_text. case_decide as Hy.
  - exists s. split; [done|]. eapply painted_ext; [|by apply painted_refl].
    intros r q old [Hr Hq]%cell_at_Some; [|done]. unfold drawn.
    rewrite decide_False; [done|]. intros [-> _]. by apply Hy.
  - destruct (draw_text_loop x y fg bg bold s (chars text) 0 (λ _ _ old, old) s)
      as (s' & Hrun & Hs'); [done|done|done|by apply painted_refl|done|].
    exists s'. split; [done|]. eapply painted_ext; [|exact Hs'].
    intros r q old _. cbn beta. rewrite Z.add_0_r. unfold drawn. by case_decide.
Qed.

Lemma painted_trans g g' s t u :
  painted g s t → painted g' t u → painted (λ r q old, g' r q (g r q old)) s u.
Proof.
  intros (_ & [c1 ->] & Hat) (Hrect & [c2 ->] & Hat'). split_and!; [done|by eexists|].
  intros r q. rewrite Hat', Hat. by destruct (cell_at s r q).
Qed.

Lemma painted_dims g s t : painted g s t → cols t = cols s ∧ rows t = rows s.
Proof. by intros (_ & [? ->] & _). Qed.

Lemma paint_two g s t y1 x1 c1 y2 x2 c2 :
  rectangular s → painted g s t →
  0 ≤ y1 < rows s → 0 ≤ x1 < cols s → 0 ≤ y2 < rows s → 0 ≤ x2 < cols s →
  ∃ t', (t1 ← write_cell y1 x1 c1 t; write_cell y2 x2 c2 t1) = Ok t' ∧
        painted (λ r q old, if decide (r = y2 ∧ q = x2) then c2
                            else if decide (r = y1 ∧ q = x1) then c1
                            else g r q old) s t'.
Proof.
  intros Hs Ht Hy1 Hx1 Hy2 Hx2.
  destruct (painted_write g s t y1 x1 c1 Hs Ht) as (t1 & -> & Ht1); [done..|].
  rewrite bind_Ok.
  destruct (painted_write _ s t1 y2 x2 c2 Hs Ht1) as (t2 & -> & Ht2); [done..|].
  by exists t2.
Qed.

Lemma for_each_two {A S} (a b : A) (body : A → S → result S) s :
  for_each [a; b] body s = (s1 ← body a s; body b s1).
Proof.
  cbn [for_each]. destruct (body a s) as [s1|]; [|done]. rewrite !bind_Ok.
  by destruct (body b s1).
Qed.

(** X23. A box that lies within the grid, at least two cells wide and
    high: [draw_box] returns and leaves in the rectangle of the box the
    corners [+], the horizontal edges [-], the vertical edges [|] and
    blanks inside, with the colours of the box and no bold; a title that is
    not empty is then written in bold from column [x + 2] of the top edge,
    between [[ ] and [ ]], and runs past the box when it is too long. The
    cells outside are as before. *)
Theorem draw_box_draws_the_box x y w h fg bg title s :
  rectangular s → 0 ≤ x → 0 ≤ y → 2 ≤ w → 2 ≤ h →
  x + w ≤ cols s → y + h ≤ rows s →
  ∃ s', draw_box x y w h fg bg title s = Ok s' ∧
        painted (λ r q old, titled x y fg bg title r q (boxed x y w h fg bg r q old)) s s'.
Proof.
  intros Hs Hx Hy Hw Hh Hxw Hyh. unfold draw_box.
  rewrite decide_False by lia.
  destruct (fill_rect_painted x y w h " " fg bg false s Hs Hx Hy) as (s1 & -> & Hs1).
  rewrite bind_Ok.
  set (dash := Cell.mk "-" fg bg false). set (bar := Cell.mk "|" fg bg false).
  set (plus := Cell.mk "+" fg bg false).
  (* the top and the bottom edge *)
  destruct (for_each_list
              (λ pre t, painted (λ r q old,
                                   if decide ((r = y ∨ r = y + h - 1) ∧ q ∈ pre) then dash
                                   else if decide (y ≤ r < y + h ∧ x ≤ q < x + w)
                                        then Cell.mk " " fg bg false else old) s t)
              (λ xx screen,
                 for_each [y; Z.min (rows screen - 1) (y + h - 1)]
                   (λ yy screen,
                      write_cell yy xx
                        (Cell.mk (if decide (yy = y ∨ yy = y + h - 1) then "-" else " ")
                           fg bg false) screen) screen)
              (py_range x (Z.min (cols s1) (x + w))) [] s1)
    as (s2 & Hrun2 & Hs2).
  { eapply painted_ext; [|exact Hs1]. intros r q old _. cbn beta. paint_cases. }
  { intros pre xx t Hxx%elem_of_py_range Ht.
    destruct (painted_dims _ _ _ Hs1) as [Hc1 Hr1].
    destruct (painted_dims _ _ _ Ht) as [Hct Hrt].
    rewrite Hc1 in Hxx. rewrite for_each_two, Hrt.
    replace (Z.min (rows s - 1) (y + h - 1)) with (y + h - 1) by lia.
    rewrite !decide_True by lia. fold dash.
    destruct (paint_two _ s t y xx dash (y + h - 1) xx dash Hs Ht) as (t' & -> & Ht');
      [lia..|].
    exists t'. split; [done|]. eapply painted_ext; [|exact Ht'].
    intros r q old _. cbn beta. paint_cases. }
  rewrite Hrun2, bind_Ok. cbn [app] in Hs2.
  (* the left and the right edge *)
  destruct (for_each_list
              (λ pre t, painted (λ r q old,
                                   if decide (r ∈ pre ∧ (q = x ∨ q = x + w - 1)) then bar
                                   else if decide ((r = y ∨ r = y + h - 1) ∧ x ≤ q < x + w)
                                        then dash
                                   else if decide (y ≤ r < y + h ∧ x ≤ q < x + w)
                                        then Cell.mk " " fg bg false else old) s t)
              (λ yy screen,
                 for_each [x; Z.min (cols screen - 1) (x + w - 1)]
                   (λ xx screen,
                      write_cell yy xx
                        (Cell.mk (if decide (xx = x ∨ xx = x + w - 1) then "|" else " ")
                           fg bg false) screen) screen)
              (py_range y (Z.min (rows s2) (y + h))) [] s2)
    as (s3 & Hrun3 & Hs3).
  { eapply painted_ext; [|exact Hs2]. intros r q old [? ?]%cell_at_Some; [|done].
    destruct (painted_dims _ _ _ Hs1) as [Hc1 Hr1]. rewrite Hc1.
    cbn beta. paint_cases. }
  { intros pre yy t Hyy%elem_of_py_range Ht.
    destruct (painted_dims _ _ _ Hs2) as [Hc2 Hr2].
    destruct (painted_dims _ _ _ Ht) as [Hct Hrt].
    rewrite Hr2 in Hyy. rewrite for_each_two, Hct.
    replace (Z.min (cols s - 1) (x + w - 1)) with (x + w - 1) by lia.
    rewrite !decide_True by lia. fold bar.
    destruct (paint_two _ s t yy x bar yy (x + w - 1) bar Hs Ht) as (t' & -> & Ht');
      [lia..|].
    exists t'. split; [done|]. eapply painted_ext; [|exact Ht'].
    intros r q old _. cbn beta. paint_cases. }
  rewrite Hrun3, bind_Ok. cbn [app] in Hs3.
  (* the corners *)
  destruct (painted_dims _ _ _ Hs2) as [Hc2 Hr2].
  destruct (painted_dims _ _ _ Hs3) as [Hc3 Hr3].
  destruct (painted_write _ s s3 y x plus Hs Hs3) as (s4 & -> & Hs4); [lia..|].
  rewrite bind_Ok. destruct (painted_dims _ _ _ Hs4) as [Hc4 Hr4]. rewrite Hc4.
  replace (Z.min (cols s - 1) (x + w - 1)) with (x + w - 1) by lia.
  destruct (painted_write _ s s4 y (x + w - 1) plus Hs Hs4) as (s5 & -> & Hs5); [lia..|].
  rewrite bind_Ok. destruct (painted_dims _ _ _ Hs5) as [Hc5 Hr5]. rewrite Hr5.
  replace (Z.min (rows s - 1) (y + h - 1)) with (y + h - 1) by lia.
  destruct (painted_write _ s s5 (y + h - 1) x plus Hs Hs5) as (s6 & -> & Hs6); [lia..|].
  rewrite bind_Ok. destruct (painted_dims _ _ _ Hs6) as [Hc6 Hr6]. rewrite Hr6, Hc6.
  replace (Z.min (rows s - 1) (y + h - 1)) with (y + h - 1) by lia.
  replace (Z.min (cols s - 1) (x + w - 1)) with (x + w - 1) by lia.
  destruct (painted_write _ s s6 (y + h - 1) (x + w - 1) plus Hs Hs6)
    as (s7 & -> & Hs7); [lia..|].
  rewrite bind_Ok.
  assert (painted (boxed x y w h fg bg) s s7) as Hbox.
  { eapply painted_ext; [|exact Hs7]. intros r q old [? ?]%cell_at_Some; [|done].
    rewrite Hr2. cbn beta. unfold boxed, box_ch. subst dash bar plus.
    paint_cases. }
  destruct title as [t|]; [|by exists s7].
  unfold titled. case_decide; [|by exists s7].
  destruct (draw_text_painted (x + 2) y ("[ " +:+ t +:+ " ]") fg (Some bg) true s7)
    as (s8 & -> & Hs8); [by destruct Hbox|].
  exists s8. split; [done|]. by apply (painted_trans _ _ s s7 s8).
Qed.

Lemma py_range_nil lo hi : hi ≤ lo → py_range lo hi = [].
Proof. intros. unfold py_range. by replace (Z.to_nat (hi - lo)) with 0%nat by lia. Qed.

Lemma py_range_head lo hi : lo < hi → ∃ rest, py_range lo hi = lo :: rest.
Proof.
  intros. unfold py_range.
  replace (Z.to_nat (hi - lo)) with (S (Z.to_nat (hi - lo - 1))) by lia.
  cbn. eexists. f_equal. lia.
Qed.

Lemma write_cell_outside y x c s :
  rectangular s → 0 ≤ y → 0 ≤ x → cols s ≤ x ∨ rows s ≤ y →
  write_cell y x c s = Raise IndexError.
Proof.
  intros [Hh Hw] Hy Hx Hout. unfold write_cell, py_get, py_set.
  destruct (decide (rows s ≤ y)) as [Hrows|Hrows].
  { unfold py_norm. rewrite !decide_False by lia. done. }
  rewrite py_norm_nonneg by lia.
  destruct (lookup_lt_is_Some_2 (cells s) (Z.to_nat y)) as [row Hrow]; [lia|].
  rewrite Hrow, bind_Ok.
  pose proof (proj1 (Forall_lookup _ _) Hw _ _ Hrow) as Hlen. cbn in Hlen.
  unfold py_norm. rewrite !decide_False by lia. done.
Qed.

Lemma fill_rect_no_column x y w h ch fg bg bold s :
  cols s ≤ x ∨ rows s ≤ y → fill_rect x y w h ch fg bg bold s = Ok s.
Proof.
  intros Hout. unfold fill_rect.
  destruct (decide (rows s ≤ y)); [by rewrite py_range_nil by lia|].
  induction (py_range y _) as [|yy ys IH]; [done|].
  cbn [for_each]. by rewrite (py_range_nil x) by lia.
Qed.

(** X24. [draw_box] does not clip a box at its origin: when the origin
    is right of the grid or below it, the call raises [IndexError], where
    [fill_rect] and [draw_text] write nothing. *)
Theorem draw_box_origin_outside_raises x y w h fg bg title s :
  rectangular s → 0 ≤ x → 0 ≤ y → 2 ≤ w → 2 ≤ h →
  cols s ≤ x ∨ rows s ≤ y →
  draw_box x y w h fg bg title s = Raise IndexError.
Proof.
  intros Hs Hx Hy Hw Hh Hout. unfold draw_box.
  rewrite decide_False by lia. rewrite fill_rect_no_column, bind_Ok by done.
  destruct (decide (x < cols s)) as [Hcol|Hcol].
  { destruct (py_range_head x (Z.min (cols s) (x + w))) as [rest ->]; [lia|].
    cbn [for_each]. by rewrite write_cell_outside by (done || lia). }
  rewrite (py_range_nil x) by lia. cbn [for_each]. rewrite bind_Ok.
  destruct (decide (y < rows s)) as [Hrow|Hrow].
  { destruct (py_range_head y (Z.min (rows s) (y + h))) as [rest ->]; [lia|].
    cbn [for_each]. by rewrite write_cell_outside by (done || lia). }
  rewrite (py_range_nil y) by lia. cbn [for_each]. rewrite bind_Ok.
  by rewrite write_cell_outside by (done || lia).
Qed.
End drawing.

(** X21. [fill_rect] with an origin at or after row 0 and column 0 returns
    on every grid of [rows] rows of [cols] cells: the cells of the
    rectangle that are in the grid hold the given cell, all others are as
    before, and nothing but the grid is changed. The rectangle is clipped at
    the right and at the bottom. *)
Theorem fill_rect_fills_the_clipped_rectangle (x y w h : Z) (ch : string)
    (fg bg : color) (bold : bool) (screen : TerminalEmulator.t) :
  rectangular screen → 0 ≤ x → 0 ≤ y →
  ∃ screen',
    fill_rect x y w h ch fg bg bold screen = Ok screen' ∧
    painted (λ r q old, if decide (y ≤ r < y + h ∧ x ≤ q < x + w)
                        then Cell.mk ch fg bg bold else old) screen screen'.
Proof. apply fill_rect_painted. Qed.

Lemma fill_rect_fills_the_clipped_rectangle_witness :
  ∃ screen',
    fill_rect 1 0 5 1 "#" (1, 2, 3) (4, 5, 6) true (TerminalEmulator.__init__ 3 2)
      = Ok screen' ∧
    painted (λ r q old, if decide (0 ≤ r < 0 + 1 ∧ 1 ≤ q < 1 + 5)
                        then Cell.mk "#" (1, 2, 3) (4, 5, 6) true else old)
      (TerminalEmulator.__init__ 3 2) screen'.
Proof.
  apply (fill_rect_fills_the_clipped_rectangle 1 0 5 1); [|lia|lia].
  apply rectangular_init.
Defined.

(** X22. [draw_text] returns on every grid of [rows] rows of [cols] cells:
    the character at index [i] of the text is written to column [x + i] of
    row [y] when that cell is in the grid, with the given foreground and
    weight, and with the given background or, without one, the background
    that the cell had; the text is clipped at both ends of the row, and a
    row outside the grid takes nothing. *)
Theorem draw_text_writes_the_clipped_text (x y : Z) (text : string) (fg : color)
    (bg : option color) (bold : bool) (screen : TerminalEmulator.t) :
  rectangular screen →
  ∃ screen',
    draw_text x y text fg bg bold screen = Ok screen' ∧
    painted (drawn x y (chars text) fg bg bold) screen screen'.
Proof. apply draw_text_painted. Qed.

Lemma draw_text_writes_the_clipped_text_witness :
  ∃ screen',
    draw_text (-1) 1 "hello" (1, 2, 3) None true (TerminalEmulator.__init__ 3 2)
      = Ok screen' ∧
    painted (drawn (-1) 1 (chars "hello") (1, 2, 3) None true)
      (TerminalEmulator.__init__ 3 2) screen'.
Proof. apply draw_text_writes_the_clipped_text, rectangular_init. Defined.

Lemma draw_box_draws_the_box_witness :
  ∃ screen',
    draw_box 1 0 3 2 (1, 2, 3) (4, 5, 6) (Some "t") (TerminalEmulator.__init__ 4 3)
      = Ok screen' ∧
    painted (λ r q old,
               titled 1 0 (1, 2, 3) (4, 5, 6) (Some "t") r q
                 (boxed 1 0 3 2 (1, 2, 3) (4, 5, 6) r q old))
      (TerminalEmulator.__init__ 4 3) screen'.
Proof.
  apply (draw_box_draws_the_box 1 0 3 2); [apply rectangular_init|cbn; lia..].
Defined.

Lemma draw_box_origin_outside_raises_witness :
  draw_box 4 0 2 2 (1, 2, 3) (4, 5, 6) None (TerminalEmulator.__init__ 4 3)
    = Raise IndexError.
Proof.
  apply draw_box_origin_outside_raises; [apply rectangular_init|cbn; lia..].
Defined.
